(** * A record-mapping engine: validation, parsing, transforms, import

    A shallow embedding of the [/execute/config] handler of
    [src/api/server.js], of its order-only variant and of the first
    server, with the properties its specification states.

    Modelling conventions.
    - A JavaScript string is a [string] of bytes; case mapping and
      whitespace cover the ASCII range.
    - A JavaScript number is the mathematical value its literal denotes
      ([Finite]), or [NaN], or an infinity; rounding to binary64 is not
      modelled.
    - A parsed object is the ordered list of its own properties, over
      [Object.prototype]: a read finds the members it inherits, and
      [String] and [Number] throw when an own [toString] hides the
      inherited one.  Of an array, a string, a number or a boolean, the
      own properties are modelled, the members of their prototypes are
      not: the properties of a record are stated for records that are
      objects.
    - The [data] object of a record is the finite map of its own
      properties, with its prototype: a write to the key [__proto__]
      reaches the setter of [Object.prototype].  The modules are in
      strict mode.
    - [JSON.parse], the schema validator, the clock, and whether a native
      function throws when [JSON.stringify] calls it as [toJSON], are
      parameters. *)

From Stdlib Require Import String Ascii List ZArith NArith Bool Lia DecimalString.
From stdpp Require Import base option gmap strings list.

Local Open Scope string_scope.

(** ** Strings *)

Module Str.

(** The character of code 34. *)
Definition dquote : string := String "034"%char EmptyString.

(** [`"${s}"`] *)
Definition quoted (s : string) : string := dquote +:+ s +:+ dquote.

(** WhiteSpace and LineTerminator code points below 128. *)
Definition isWhiteSpace (c : ascii) : bool :=
  let n := nat_of_ascii c in
  bool_decide (n = 9 ∨ n = 10 ∨ n = 11 ∨ n = 12 ∨ n = 13 ∨ n = 32)%nat.

Fixpoint trimStart (s : string) : string :=
  match s with
  | EmptyString => EmptyString
  | String c r => if isWhiteSpace c then trimStart r else s
  end.

Fixpoint trimEnd (s : string) : string :=
  match s with
  | EmptyString => EmptyString
  | String c r =>
      match trimEnd r with
      | EmptyString => if isWhiteSpace c then EmptyString else String c EmptyString
      | r' => String c r'
      end
  end.

(** [String.prototype.trim] *)
Definition trim (s : string) : string := trimEnd (trimStart s).

Definition mapChars (f : ascii → ascii) : string → string :=
  fix go (s : string) : string :=
    match s with
    | EmptyString => EmptyString
    | String c r => String (f c) (go r)
    end.

Definition upperChar (c : ascii) : ascii :=
  let n := nat_of_ascii c in
  if bool_decide (97 ≤ n ≤ 122)%nat then ascii_of_nat (n - 32) else c.

Definition lowerChar (c : ascii) : ascii :=
  let n := nat_of_ascii c in
  if bool_decide (65 ≤ n ≤ 90)%nat then ascii_of_nat (n + 32) else c.

(** [String.prototype.toUpperCase] and [toLowerCase]. *)
Definition toUpperCase : string → string := mapChars upperChar.
Definition toLowerCase : string → string := mapChars lowerChar.

(** [s.split(c)] for a one-character separator: never empty. *)
Fixpoint split (c : ascii) (s : string) : list string :=
  match s with
  | EmptyString => [EmptyString]
  | String a r =>
      if decide (a = c) then EmptyString :: split c r
      else match split c r with
           | h :: t => String a h :: t
           | [] => [String a EmptyString]
           end
  end.

(** [parts.join(sep)] *)
Fixpoint join (sep : string) (parts : list string) : string :=
  match parts with
  | [] => EmptyString
  | [p] => p
  | p :: rest => p +:+ sep +:+ join sep rest
  end.

(** Decimal digits of a natural number, as [String(n)] prints an index. *)
Definition ofN (n : N) : string := NilZero.string_of_uint (N.to_uint n).
Definition ofNat (n : nat) : string := ofN (N.of_nat n).

Fixpoint zeros (n : nat) : string :=
  match n with O => EmptyString | S k => String "0" (zeros k) end.

(** Drops the zeros that end [s] and counts them. *)
Fixpoint stripTrailingZeros (s : string) : string * nat :=
  match s with
  | EmptyString => (EmptyString, O)
  | String c r =>
      let '(r', k) := stripTrailingZeros r in
      match r' with
      | EmptyString =>
          if decide (c = "0"%char) then (EmptyString, S k)
          else (String c EmptyString, k)
      | _ => (String c r', k)
      end
  end.

End Str.

(** ** Numbers *)

(** [Finite neg m e] is the value [(-1)^neg * m * 10^e]. *)
Inductive number : Type :=
  | NaN
  | Infinity (negative : bool)
  | Finite (negative : bool) (digits : N) (exp10 : Z).

Module Num.

Definition zero : number := Finite false 0 0.
Definition one : number := Finite false 1 0.
Definition ofNat (n : nat) : number := Finite false (N.of_nat n) 0.

(** The global [isNaN] on a number. *)
Definition isNaN (x : number) : bool :=
  match x with NaN => true | _ => false end.

Definition isZero (x : number) : bool :=
  match x with Finite _ 0%N _ => true | _ => false end.

Definition digitValue (radix : N) (c : ascii) : option N :=
  let n := N_of_ascii c in
  let d :=
    if bool_decide (48 ≤ n ≤ 57)%N then Some (n - 48)%N
    else if bool_decide (97 ≤ n ≤ 122)%N then Some (n - 87)%N
    else if bool_decide (65 ≤ n ≤ 90)%N then Some (n - 55)%N
    else None in
  match d with
  | Some v => if bool_decide (v < radix)%N then Some v else None
  | None => None
  end.

(** Reads the longest run of digits that starts [s]: the accumulated
    value, the number of digits read, and the rest. *)
Fixpoint readDigits (radix : N) (s : string) (acc : N) (count : nat)
  : N * nat * string :=
  match s with
  | EmptyString => (acc, count, s)
  | String c r =>
      match digitValue radix c with
      | Some d => readDigits radix r (acc * radix + d)%N (S count)
      | None => (acc, count, s)
      end
  end.

(** ExponentPart, or nothing, up to the end of the literal. *)
Definition readExponent (s : string) : option Z :=
  match s with
  | EmptyString => Some 0%Z
  | String c r =>
      if bool_decide (c = "e"%char ∨ c = "E"%char) then
        let '(neg, r') :=
          match r with
          | String "+"%char t => (false, t)
          | String "-"%char t => (true, t)
          | _ => (false, r)
          end in
        match readDigits 10 r' 0 0 with
        | (v, S _, EmptyString) =>
            Some (if neg then (- Z.of_N v)%Z else Z.of_N v)
        | _ => None
        end
      else None
  end.

(** StrUnsignedDecimalLiteral *)
Definition unsignedDecimal (neg : bool) (s : string) : number :=
  if decide (s = "Infinity") then Infinity neg
  else
    let '(ip, ni, r1) := readDigits 10 s 0 0 in
    match r1 with
    | String "."%char r2 =>
        let '(m, nf, r3) := readDigits 10 r2 ip 0 in
        if decide (ni + nf = 0)%nat then NaN
        else match readExponent r3 with
             | Some e => Finite neg m (e - Z.of_nat nf)
             | None => NaN
             end
    | _ =>
        if decide (ni = 0)%nat then NaN
        else match readExponent r1 with
             | Some e => Finite neg ip e
             | None => NaN
             end
    end.

(** NonDecimalIntegerLiteral, after its two-character prefix. *)
Definition nonDecimal (radix : N) (s : string) : number :=
  match readDigits radix s 0 0 with
  | (v, S _, EmptyString) => Finite false v 0
  | _ => NaN
  end.

(** StringToNumber: [Number(s)] for a string. *)
Definition ofString (str : string) : number :=
  let s := Str.trim str in
  match s with
  | EmptyString => zero
  | String "+"%char r => unsignedDecimal false r
  | String "-"%char r => unsignedDecimal true r
  | String "0"%char (String x r) =>
      if bool_decide (x = "x"%char ∨ x = "X"%char) then nonDecimal 16 r
      else if bool_decide (x = "o"%char ∨ x = "O"%char) then nonDecimal 8 r
      else if bool_decide (x = "b"%char ∨ x = "B"%char) then nonDecimal 2 r
      else unsignedDecimal false s
  | _ => unsignedDecimal false s
  end.

(** Number::toString in radix 10. *)
Definition toString (x : number) : string :=
  match x with
  | NaN => "NaN"
  | Infinity neg => if neg then "-Infinity" else "Infinity"
  | Finite neg m e =>
      if decide (m = 0%N) then "0"
      else
        let '(s, z) := Str.stripTrailingZeros (Str.ofN m) in
        let k := String.length s in
        let n := (Z.of_nat k + (e + Z.of_nat z))%Z in
        let body :=
          if bool_decide (Z.of_nat k ≤ n ≤ 21)%Z then
            s +:+ Str.zeros (Z.to_nat n - k)
          else if bool_decide (0 < n ≤ 21)%Z then
            substring 0 (Z.to_nat n) s +:+ "." +:+
            substring (Z.to_nat n) (k - Z.to_nat n) s
          else if bool_decide (-6 < n ≤ 0)%Z then
            "0." +:+ Str.zeros (Z.to_nat (- n)) +:+ s
          else
            let ex := (n - 1)%Z in
            let exs :=
              (if bool_decide (ex < 0)%Z then "-" else "+")
              +:+ Str.ofN (Z.abs_N ex) in
            match s with
            | String d EmptyString => String d "e" +:+ exs
            | String d r => String d ("." +:+ r) +:+ "e" +:+ exs
            | EmptyString => EmptyString
            end in
        if neg then "-" +:+ body else body
  end.

End Num.


(** ** Values *)

(** What [JSON.parse] returns, [undefined], and what a read of a parsed
    object finds in [Object.prototype]: a native function, or under
    [__proto__] the prototype itself. *)
#[warnings="-register-all"]
Inductive Value : Type :=
  | VUndefined
  | VNull
  | VBool (b : bool)
  | VNum (n : number)
  | VStr (s : string)
  | VArr (elements : list Value)
  | VObj (properties : list (string * Value))
  | VObjectPrototype
  | VBuiltin (name : string).

(** What a [throw] carries. *)
Inductive Exn : Type :=
  | SyntaxError (message : string)
  | TypeError (message : string)
  | Error (message : string).

(** [e.message] *)
Definition messageOf (e : Exn) : string :=
  match e with SyntaxError m | TypeError m | Error m => m end.

(** A computation that returns or throws. *)
Inductive result (A : Type) : Type :=
  | Ok (a : A)
  | Throw (e : Exn).
Arguments Ok {A} a.
Arguments Throw {A} e.

#[global] Instance result_ret : MRet result := λ A a, Ok a.
#[global] Instance result_bind : MBind result := λ A B f m,
  match m with Ok a => f a | Throw e => Throw e end.
#[global] Instance result_fmap : FMap result := λ A B f m,
  match m with Ok a => Ok (f a) | Throw e => Throw e end.

Module Obj.

(** Own properties, in insertion order. *)
Definition t : Type := list (string * Value).

(** The own property [key], if any. *)
Fixpoint lookup (o : t) (key : string) : option Value :=
  match o with
  | [] => None
  | (k, v) :: rest => if decide (k = key) then Some v else lookup rest key
  end.

(** The own property [key] becomes [v]: an existing property keeps its
    place. *)
Fixpoint set (o : t) (key : string) (v : Value) : t :=
  match o with
  | [] => [(key, v)]
  | (k, w) :: rest =>
      if decide (k = key) then (k, v) :: rest else (k, w) :: set rest key v
  end.

(** A canonical numeric string below 2^32 - 1. *)
Definition arrayIndex (key : string) : option N :=
  match NilEmpty.uint_of_string key with
  | Some u =>
      let n := N.of_uint u in
      if bool_decide (Str.ofN n = key ∧ (n < 4294967295)%N) then Some n else None
  | None => None
  end.

Fixpoint insertByIndex (i : N) (k : string) (sorted : list (N * string))
  : list (N * string) :=
  match sorted with
  | [] => [(i, k)]
  | (j, k') :: rest =>
      if bool_decide (i < j)%N then (i, k) :: sorted
      else (j, k') :: insertByIndex i k rest
  end.

(** OrdinaryOwnPropertyKeys: array indices in ascending order, then the
    other keys in insertion order. *)
Definition ownKeys (o : t) : list string :=
  let indexed :=
    foldr (λ kv acc,
             match arrayIndex kv.1 with
             | Some i => insertByIndex i kv.1 acc
             | None => acc
             end) [] o in
  let named :=
    List.filter (λ k, match arrayIndex k with Some _ => false | None => true end)
                (map fst o) in
  (map snd indexed ++ named)%list.

End Obj.

(** The names of the members of [Object.prototype]: every object literal
    and every parsed object inherits them. *)
Definition Object_prototype_keys : list string :=
  ["constructor"; "__defineGetter__"; "__defineSetter__"; "hasOwnProperty";
   "__lookupGetter__"; "__lookupSetter__"; "isPrototypeOf";
   "propertyIsEnumerable"; "toString"; "valueOf"; "__proto__"; "toLocaleString"].

(** What a read of [key] finds in [Object.prototype]. *)
Definition inherited (key : string) : Value :=
  if decide (key = "__proto__") then VObjectPrototype
  else if bool_decide (key ∈ Object_prototype_keys) then VBuiltin key
  else VUndefined.

(** The name a native function prints: [Object.prototype.constructor] is
    [Object]. *)
Definition nativeName (name : string) : string :=
  if decide (name = "constructor") then "Object" else name.

(** [String(v)].  An object goes through its [toString] and its
    [valueOf]: an own [toString] of a parsed object is no function, and
    the inherited [valueOf] returns the object, so that nothing gives a
    primitive value. *)
Fixpoint ToString (v : Value) : result string :=
  match v with
  | VUndefined => Ok "undefined"
  | VNull => Ok "null"
  | VBool b => Ok (if b then "true" else "false")
  | VNum n => Ok (Num.toString n)
  | VStr s => Ok s
  | VArr elements =>
      (* Array.prototype.join: undefined and null print as nothing *)
      (fix joinElements (l : list Value) : result string :=
         let element (x : Value) : result string :=
           match x with VUndefined | VNull => Ok EmptyString | _ => ToString x end in
         match l with
         | [] => Ok EmptyString
         | [x] => element x
         | x :: rest =>
             s ← element x;
             r ← joinElements rest;
             Ok (s +:+ "," +:+ r)
         end) elements
  | VObj properties =>
      match Obj.lookup properties "toString" with
      | Some _ => Throw (TypeError "Cannot convert object to primitive value")
      | None => Ok "[object Object]"
      end
  | VObjectPrototype => Ok "[object Object]"
  | VBuiltin name => Ok ("function " +:+ nativeName name +:+ "() { [native code] }")
  end.

(** [Number(v)] *)
Definition ToNumber (v : Value) : result number :=
  match v with
  | VUndefined => Ok NaN
  | VNull => Ok Num.zero
  | VBool b => Ok (if b then Num.one else Num.zero)
  | VNum n => Ok n
  | VStr s => Ok (Num.ofString s)
  | VArr _ | VObj _ | VObjectPrototype | VBuiltin _ =>
      s ← ToString v; Ok (Num.ofString s)
  end.

(** Truthiness, as [||] and [!] test it. *)
Definition ToBoolean (v : Value) : bool :=
  match v with
  | VUndefined | VNull => false
  | VBool b => b
  | VNum n => negb (Num.isNaN n || Num.isZero n)
  | VStr s => negb (bool_decide (s = EmptyString))
  | VArr _ | VObj _ | VObjectPrototype | VBuiltin _ => true
  end.

(** [o[key]] for a string key.  A parsed object has its own properties
    and the members of [Object.prototype]; of the other receivers the own
    properties are modelled. *)
Definition Get (o : Value) (key : string) : result Value :=
  match o with
  | VUndefined =>
      Throw (TypeError "Cannot read properties of undefined")
  | VNull =>
      Throw (TypeError "Cannot read properties of null")
  | VObj properties => Ok (default (inherited key) (Obj.lookup properties key))
  | VObjectPrototype =>
      Ok (if decide (key = "__proto__") then VNull else inherited key)
  | VArr elements =>
      if decide (key = "length") then Ok (VNum (Num.ofNat (length elements)))
      else match Obj.arrayIndex key with
           | Some i => Ok (default VUndefined (elements !! N.to_nat i))
           | None => Ok VUndefined
           end
  | VStr s =>
      if decide (key = "length") then Ok (VNum (Num.ofNat (String.length s)))
      else match Obj.arrayIndex key with
           | Some i =>
               Ok (match String.get (N.to_nat i) s with
                   | Some c => VStr (String c EmptyString)
                   | None => VUndefined
                   end)
           | None => Ok VUndefined
           end
  | VBool _ | VNum _ | VBuiltin _ => Ok VUndefined
  end.

(** [Object.keys(v)] *)
Definition Object_keys (v : Value) : result (list string) :=
  match v with
  | VUndefined | VNull =>
      Throw (TypeError "Cannot convert undefined or null to object")
  | VObj properties => Ok (Obj.ownKeys properties)
  | VArr elements => Ok (map Str.ofNat (seq 0 (length elements)))
  | VStr s => Ok (map Str.ofNat (seq 0 (String.length s)))
  | VBool _ | VNum _ | VObjectPrototype | VBuiltin _ => Ok []
  end.

(** [recordId === undefined || recordId === null || recordId === ''] *)
Definition isEmptyValue (v : Value) : bool :=
  match v with
  | VUndefined | VNull => true
  | VStr s => bool_decide (s = EmptyString)
  | _ => false
  end.

(** [value !== undefined && value !== null] *)
Definition isPresent (v : Value) : bool :=
  match v with VUndefined | VNull => false | _ => true end.

(** ** The [data] object of a record *)

Module Data.

(** The prototype of the object. *)
Inductive Proto : Type :=
  | ObjectPrototype
  | Null
  (** an object or an array of the source, or a native function *)
  | Source (v : Value).

(** The own properties, which [JSON.stringify] prints, and the
    prototype. *)
Record t : Type := {
  own : gmap string Value;
  proto : Proto;
}.

(** [{}] *)
Definition empty : t := {| own := ∅; proto := ObjectPrototype |}.

(** The object with the own property [key] set to [v]. *)
Definition define (d : t) (key : string) (v : Value) : t :=
  {| own := <[key := v]> (own d); proto := proto d |}.

(** The setter of [Object.prototype] under [__proto__]: an object or
    [null] becomes the prototype, anything else is ignored. *)
Definition setPrototype (d : t) (v : Value) : t :=
  match v with
  | VObj _ | VArr _ | VBuiltin _ => {| own := own d; proto := Source v |}
  | VObjectPrototype => {| own := own d; proto := ObjectPrototype |}
  | VNull => {| own := own d; proto := Null |}
  | VUndefined | VBool _ | VNum _ | VStr _ => d
  end.

(** [d[key] = v] in strict mode.  A key that is no own property is looked
    for along the prototypes: [__proto__] ends at the setter of
    [Object.prototype] unless the chain stops before it or a parsed object
    in it has the key; the [name] and [length] of a native function cannot
    be written, nor the [prototype] of [Object], nor the [caller] and
    [arguments] of [Function.prototype], and the assignment throws; every
    other key becomes an own property. *)
Definition assign (d : t) (key : string) (v : Value) : result t :=
  if bool_decide (is_Some (own d !! key)) then Ok (define d key v)
  else if decide (key = "__proto__") then
    match proto d with
    | Null => Ok (define d key v)
    | Source (VObj properties) =>
        if bool_decide (is_Some (Obj.lookup properties key))
        then Ok (define d key v)
        else Ok (setPrototype d v)
    | _ => Ok (setPrototype d v)
    end
  else
    match proto d with
    | Source (VBuiltin name) =>
        if bool_decide (key ∈ ["length"; "name"; "caller"; "arguments"]
                        ∨ (name = "constructor" ∧ key = "prototype"))
        then Throw (TypeError ("Cannot assign to read only property " +:+ key))
        else Ok (define d key v)
    | _ => Ok (define d key v)
    end.

(** Whether [JSON.stringify] throws on the object: it calls an own
    [toJSON] that is a function, and [nativeThrows] tells whether that
    native function throws when called on the object. *)
Definition stringifyThrows (nativeThrows : string → t → bool) (d : t) : bool :=
  match own d !! "toJSON" with
  | Some (VBuiltin name) => nativeThrows name d
  | _ => false
  end.

End Data.

(** ** Source parser *)

(** [record[header] = cell] on the object literal [record], for a string
    [cell]: under the header [__proto__] the assignment reaches the setter
    of [Object.prototype], which ignores a string. *)
Definition assignCell (record : Obj.t) (header cell : string) : Obj.t :=
  if decide (header = "__proto__") then record
  else Obj.set record header (VStr cell).

(** [headers.forEach((header, idx) => { record[header] = values[idx] || ''; })] *)
Fixpoint forEachHeader (headers : list string) (idx : nat) (values : list string)
    (record : Obj.t) : Obj.t :=
  match headers with
  | [] => record
  | header :: rest =>
      forEachHeader rest (S idx) values
        (assignCell record header (default EmptyString (values !! idx)))
  end.

Definition parseCSV (csvString : string) : list Value :=
  let lines := Str.split "010"%char (Str.trim csvString) in
  if bool_decide (length lines < 2) then []
  else
    let headers := map Str.trim (Str.split ","%char (default EmptyString (head lines))) in
    map (λ line,
           let values := map Str.trim (Str.split ","%char line) in
           VObj (forEachHeader headers 0 values []))
        (tail lines).

(** The loop of [parseJSON] over [Object.keys(parsed)]: the array held by
    the first key that holds one. *)
Fixpoint firstArrayProperty (parsed : Value) (keys : list string)
  : result (option (list Value)) :=
  match keys with
  | [] => Ok None
  | key :: rest =>
      v ← Get parsed key;
      match v with
      | VArr elements => Ok (Some elements)
      | _ => firstArrayProperty parsed rest
      end
  end.

Section Parser.

(** The engine's [JSON.parse]. *)
Variable JSON_parse : string → result Value.

Definition parseJSON (jsonString : string) : result (list Value) :=
  parsed ← JSON_parse jsonString;
  match parsed with
  | VArr elements => Ok elements
  | _ =>
      keys ← Object_keys parsed;
      found ← firstArrayProperty parsed keys;
      Ok (default [parsed] found)
  end.

Definition parseSourceFile (sourceFile sourceType : string) : result (list Value) :=
  if decide (sourceType = "csv") then Ok (parseCSV sourceFile)
  else if decide (sourceType = "json") then parseJSON sourceFile
  else Throw (Error ("Unsupported source type: " +:+ sourceType)).

End Parser.

(** ** Mapping configuration *)

Module SourceType.
Inductive t : Type := csv | json.
Definition name (s : t) : string :=
  match s with csv => "csv" | json => "json" end.
End SourceType.

Module Repository.
Inductive t : Type := users | products | orders.
Definition name (r : t) : string :=
  match r with users => "users" | products => "products" | orders => "orders" end.
End Repository.

Module Transform.
Inductive t : Type := none | uppercase | lowercase | trim | number.
End Transform.

Record FieldMapping : Type := {
  sourceField : string;
  targetField : string;
  transform : option Transform.t;
}.

Record Options : Type := {
  skipEmptyFields : bool;
  validateRequired : bool;
}.

(** What [MappingConfigSchema.safeParse] returns as [data]. *)
Record MappingConfig : Type := {
  name : string;
  sourceType : SourceType.t;
  targetRepository : Repository.t;
  idField : string;
  fieldMappings : list FieldMapping;
  options : Options;
}.

Record RepositorySchema : Type := {
  required : list string;
  optional : list string;
}.

Definition REPOSITORY_SCHEMA (r : Repository.t) : RepositorySchema :=
  match r with
  | Repository.users =>
      {| required := ["id"; "email"; "name"];
         optional := ["phone"; "address"; "role"] |}
  | Repository.products =>
      {| required := ["sku"; "name"; "price"];
         optional := ["description"; "category"; "stock"] |}
  | Repository.orders =>
      {| required := ["orderId"; "customerId"; "total"];
         optional := ["status"; "createdAt"; "items"] |}
  end.

(** ** Target coverage *)

Definition mappedTargetFields (validConfig : MappingConfig) : list string :=
  map targetField (fieldMappings validConfig).

Definition requiredWithoutId (validConfig : MappingConfig) : list string :=
  filter (λ f, f ≠ "id") (required (REPOSITORY_SCHEMA (targetRepository validConfig))).

Definition missingRequired (validConfig : MappingConfig) : list string :=
  filter (λ f, f ∉ mappedTargetFields validConfig) (requiredWithoutId validConfig).

(** The order-only variant of the server: one inline target schema, whose
    identifier is [orderId]. *)
Module Order.

Definition TARGET_ORDER_SCHEMA : RepositorySchema :=
  {| required := ["orderId"];
     optional := ["customerId"; "customerEmail"; "customerName"; "totalAmount";
                  "currency"; "status"; "itemCount"; "shippingAddress";
                  "shippingCity"; "shippingCountry"; "createdAt"; "updatedAt";
                  "notes"] |}.

Definition requiredFields : list string :=
  filter (λ f, f ≠ "orderId") (required TARGET_ORDER_SCHEMA).

(** [mappedTargetFields] is a [Set] there: membership is all it is used for. *)
Definition missingRequired (fieldMappings : list FieldMapping) : list string :=
  filter (λ f, f ∉ map targetField fieldMappings) requiredFields.

End Order.

(** ** Standardized output *)

Module Meta.
Record t : Type := {
  sourceIndex : nat;
  importedAt : string;
  success : bool;
  (** [undefined] when there is no error *)
  errors : option (list string);
}.
End Meta.

Module StandardizedRecord.
Record t : Type := {
  id : string;
  type : Repository.t;
  data : Data.t;
  _meta : Meta.t;
}.
End StandardizedRecord.

Module Issue.
Record t : Type := { path : string; message : string }.
End Issue.

Module Summary.
Record t : Type := {
  totalRecords : nat;
  successfulImports : nat;
  failedImports : nat;
  targetRepository : Repository.t;
  importedAt : string;
}.
End Summary.

(** The status and the keys of the JSON body the handler sends; a key the
    body does not have is [None]. *)
Module Response.
Record t : Type := {
  status : nat;
  error : option string;
  valid : option bool;
  errors : option (list Issue.t);
  message : option string;
  summary : option Summary.t;
  records : option (list StandardizedRecord.t);
}.

(** [res.status(code).json({ error })] *)
Definition failure (code : nat) (err : string) : t :=
  {| status := code; error := Some err; valid := None; errors := None;
     message := None; summary := None; records := None |}.

(** [res.json({ valid: false, errors })] *)
Definition invalid (errs : list Issue.t) : t :=
  {| status := 200; error := None; valid := Some false; errors := Some errs;
     message := None; summary := None; records := None |}.

(** [res.json({ valid: true, message, records })] *)
Definition noRecords (msg : string) (recs : list StandardizedRecord.t) : t :=
  {| status := 200; error := None; valid := Some true; errors := None;
     message := Some msg; summary := None; records := Some recs |}.

(** [res.json({ valid: true, summary, records })] *)
Definition imported (s : Summary.t) (recs : list StandardizedRecord.t) : t :=
  {| status := 200; error := None; valid := Some true; errors := None;
     message := None; summary := Some s; records := Some recs |}.
End Response.

(** ** Record importer *)

Definition missingIdError (idField : string) : string :=
  "Missing ID field " +:+ Str.quoted idField.

Definition numberError (sourceField : string) : string :=
  "Field " +:+ Str.quoted sourceField +:+ " could not be converted to number".

Definition missingFieldIssue (field : string) : Issue.t :=
  {| Issue.path := "fieldMappings";
     Issue.message := "Missing required target field: " +:+ Str.quoted field |}.

(** The [switch (mapping.transform)] of the handler: the new [value] and
    the record's errors after it, unless [String] or [Number] throws. *)
Definition applyTransform (mapping : FieldMapping) (value : Value)
    (recordErrors : list string) : result (Value * list string) :=
  match transform mapping with
  | Some Transform.uppercase =>
      s ← ToString value; Ok (VStr (Str.toUpperCase s), recordErrors)
  | Some Transform.lowercase =>
      s ← ToString value; Ok (VStr (Str.toLowerCase s), recordErrors)
  | Some Transform.trim =>
      s ← ToString value; Ok (VStr (Str.trim s), recordErrors)
  | Some Transform.number =>
      numValue ← ToNumber value;
      if Num.isNaN numValue then
        Ok (VNum Num.zero, (recordErrors ++ [numberError (sourceField mapping)])%list)
      else Ok (VNum numValue, recordErrors)
  | Some Transform.none | None => Ok (value, recordErrors)
  end.

(** [for (const mapping of validConfig.fieldMappings)], from the state
    [(data, recordErrors)] the loop has reached. *)
Fixpoint applyMappings (skipEmpty : bool) (sourceRecord : Value)
    (mappings : list FieldMapping) (data : Data.t)
    (recordErrors : list string) : result (Data.t * list string) :=
  match mappings with
  | [] => Ok (data, recordErrors)
  | mapping :: rest =>
      value ← Get sourceRecord (sourceField mapping);
      if isEmptyValue value && skipEmpty then
        (* continue *)
        applyMappings skipEmpty sourceRecord rest data recordErrors
      else
        '(value, recordErrors) ←
          (if isPresent value then applyTransform mapping value recordErrors
           else Ok (value, recordErrors));
        data ← Data.assign data (targetField mapping) value;
        applyMappings skipEmpty sourceRecord rest data recordErrors
  end.

(** [String(recordId || `unknown-${index}`)] *)
Definition idString (recordId : Value) (index : nat) : result string :=
  if ToBoolean recordId then ToString recordId
  else Ok ("unknown-" +:+ Str.ofNat index).

(** One turn of the loop over [sourceRecords]. *)
Definition importRecord (validConfig : MappingConfig) (importedAt : string)
    (index : nat) (sourceRecord : Value) : result StandardizedRecord.t :=
  recordId ← Get sourceRecord (idField validConfig);
  let recordErrors :=
    if isEmptyValue recordId then [missingIdError (idField validConfig)] else [] in
  '(data, recordErrors) ←
    applyMappings (skipEmptyFields (options validConfig)) sourceRecord
      (fieldMappings validConfig) Data.empty recordErrors;
  id ← idString recordId index;
  Ok {| StandardizedRecord.id := id;
        StandardizedRecord.type := targetRepository validConfig;
        StandardizedRecord.data := data;
        StandardizedRecord._meta :=
          {| Meta.sourceIndex := index;
             Meta.importedAt := importedAt;
             Meta.success := bool_decide (length recordErrors = 0);
             Meta.errors :=
               if bool_decide (0 < length recordErrors) then Some recordErrors
               else None |} |}.

(** [for (let index = ...; index < sourceRecords.length; index++)].  The
    handler also pushes the errors of each record, with its index, on a
    local array [errors] that it never sends; the array is left out. *)
Fixpoint importRecords (validConfig : MappingConfig) (importedAt : string)
    (index : nat) (sourceRecords : list Value) : result (list StandardizedRecord.t) :=
  match sourceRecords with
  | [] => Ok []
  | sourceRecord :: rest =>
      standardizedRecord ← importRecord validConfig importedAt index sourceRecord;
      records ← importRecords validConfig importedAt (S index) rest;
      Ok (standardizedRecord :: records)
  end.

Definition successCount (records : list StandardizedRecord.t) : nat :=
  length (filter (λ r, Meta.success (StandardizedRecord._meta r) = true) records).

(** ** The handler of [POST /execute/config] *)

(** What [MappingConfigSchema.safeParse] returns. *)
Inductive SafeParse : Type :=
  | ParseSuccess (data : MappingConfig)
  | ParseFailure (issues : list (list string * string)).

Section Handler.

Variable JSON_parse : string → result Value.

(** Whether the native function of that name throws when [JSON.stringify]
    calls it as the [toJSON] of a data object. *)
Variable toJSONThrows : string → Data.t → bool.

(** The handler from [// Parse the source file] on; [importedAt] is what
    the clock reads when the import starts. *)
Definition importSource (importedAt : string) (validConfig : MappingConfig)
    (sourceFile : string) : Response.t :=
  match parseSourceFile JSON_parse sourceFile
          (SourceType.name (sourceType validConfig)) with
  | Throw parseError =>
      Response.invalid
        [ {| Issue.path := "sourceFile";
             Issue.message := "Failed to parse: " +:+ messageOf parseError |} ]
  | Ok sourceRecords =>
      if bool_decide (length sourceRecords = 0) then
        Response.noRecords "Source file parsed but contains no records." []
      else
        match importRecords validConfig importedAt 0 sourceRecords with
        | Throw _ => Response.failure 500 "Failed to execute config"
        | Ok records =>
            (* [res.json] throws inside the [try] *)
            if existsb (λ r, Data.stringifyThrows toJSONThrows
                               (StandardizedRecord.data r)) records
            then Response.failure 500 "Failed to execute config"
            else
              Response.imported
                {| Summary.totalRecords := length sourceRecords;
                   Summary.successfulImports := successCount records;
                   Summary.failedImports :=
                     length sourceRecords - successCount records;
                   Summary.targetRepository := targetRepository validConfig;
                   Summary.importedAt := importedAt |}
                records
        end
  end.

(** The handler once the configuration has passed the schema: the
    check of the required target fields, then the import. *)
Definition executeConfig (importedAt : string) (validConfig : MappingConfig)
    (sourceFile : string) : Response.t :=
  if validateRequired (options validConfig)
     && bool_decide (0 < length (missingRequired validConfig))
  then Response.invalid (map missingFieldIssue (missingRequired validConfig))
  else importSource importedAt validConfig sourceFile.

(** The schema validator. *)
Variable safeParse : Value → SafeParse.

(** The whole handler, on the request body. *)
Definition POST_execute_config (importedAt : string) (body : Value) : Response.t :=
  match (config ← Get body "config";
         sourceFile ← Get body "sourceFile";
         Ok (config, sourceFile)) with
  | Throw _ => Response.failure 500 "Failed to execute config"
  | Ok (config, sourceFile) =>
      if negb (ToBoolean config) then Response.failure 400 "config is required"
      else
        match sourceFile with
        | VStr text =>
            if negb (ToBoolean sourceFile) then
              Response.failure 400 "sourceFile is required and must be a string"
            else
              match safeParse config with
              | ParseFailure issues =>
                  Response.invalid
                    (map (λ issue, {| Issue.path := Str.join "." issue.1;
                                      Issue.message := issue.2 |}) issues)
              | ParseSuccess validConfig =>
                  executeConfig importedAt validConfig text
              end
        | _ => Response.failure 400 "sourceFile is required and must be a string"
        end
  end.

End Handler.

(** ** A reference [JSON.parse]

    A parser of JSON texts over ASCII, to run the handler on concrete
    texts.  The theorems below hold for every [JSON_parse]. *)

Module Reference.

Fixpoint skipWs (s : string) : string :=
  match s with
  | String c r =>
      let n := nat_of_ascii c in
      if bool_decide (n = 32 ∨ n = 9 ∨ n = 10 ∨ n = 13)%nat then skipWs r else s
  | EmptyString => s
  end.

(** [s] without the prefix [p], if it starts with it. *)
Fixpoint stripPrefix (p s : string) : option string :=
  match p, s with
  | EmptyString, _ => Some s
  | String a p', String b s' => if decide (a = b) then stripPrefix p' s' else None
  | _, EmptyString => None
  end.

Definition hex4 (a b c d : ascii) : option N :=
  match Num.digitValue 16 a, Num.digitValue 16 b,
        Num.digitValue 16 c, Num.digitValue 16 d with
  | Some x, Some y, Some z, Some w => Some (((x * 16 + y) * 16 + z) * 16 + w)%N
  | _, _, _, _ => None
  end.

(** The characters of a string literal, after its opening quote. *)
Fixpoint parseString (s : string) : option (string * string) :=
  match s with
  | EmptyString => None
  | String c r =>
      if decide (c = "034"%char) then Some (EmptyString, r)
      else if decide (c = "092"%char) then
        match r with
        | String e r' =>
            if decide (e = "u"%char) then
              match r' with
              | String h1 (String h2 (String h3 (String h4 r''))) =>
                  match hex4 h1 h2 h3 h4 with
                  | Some code =>
                      if bool_decide (code < 128)%N
                      then match parseString r'' with
                           | Some (str, rest') =>
                               Some (String (ascii_of_N code) str, rest')
                           | None => None
                           end
                      else None
                  | None => None
                  end
              | _ => None
              end
            else
              let unescaped : option ascii :=
                if decide (e = "034"%char) then Some "034"%char
                else if decide (e = "092"%char) then Some "092"%char
                else if decide (e = "/"%char) then Some "/"%char
                else if decide (e = "b"%char) then Some "008"%char
                else if decide (e = "f"%char) then Some "012"%char
                else if decide (e = "n"%char) then Some "010"%char
                else if decide (e = "r"%char) then Some "013"%char
                else if decide (e = "t"%char) then Some "009"%char
                else None in
              match unescaped with
              | Some x =>
                  match parseString r' with
                  | Some (str, rest') => Some (String x str, rest')
                  | None => None
                  end
              | None => None
              end
        | EmptyString => None
        end
      else if bool_decide (nat_of_ascii c < 32)%nat then None
      else match parseString r with
           | Some (str, rest) => Some (String c str, rest)
           | None => None
           end
  end.

Definition parseNumber (s : string) : option (Value * string) :=
  let '(neg, s1) :=
    match s with String "-"%char r => (true, r) | _ => (false, s) end in
  let '(ip, ni, r1) := Num.readDigits 10 s1 0 0 in
  let leadingZero :=
    match s1 with String "0"%char _ => bool_decide (1 < ni) | _ => false end in
  if bool_decide (ni = 0) || leadingZero then None
  else
    let fraction :=
      match r1 with
      | String "."%char r =>
          match Num.readDigits 10 r ip 0 with
          | (m, S k, r') => Some (m, S k, r')
          | _ => None
          end
      | _ => Some (ip, 0, r1)
      end in
    match fraction with
    | None => None
    | Some (m, nf, r2) =>
        let exponent :=
          match r2 with
          | String c r =>
              if bool_decide (c = "e"%char ∨ c = "E"%char) then
                let '(eneg, r') :=
                  match r with
                  | String "+"%char t => (false, t)
                  | String "-"%char t => (true, t)
                  | _ => (false, r)
                  end in
                match Num.readDigits 10 r' 0 0 with
                | (v, S _, r'') =>
                    Some (if eneg then (- Z.of_N v)%Z else Z.of_N v, r'')
                | _ => None
                end
              else Some (0%Z, r2)
          | EmptyString => Some (0%Z, r2)
          end in
        match exponent with
        | Some (e, r3) => Some (VNum (Finite neg m (e - Z.of_nat nf)), r3)
        | None => None
        end
    end.

Fixpoint parseValue (fuel : nat) (s : string) : option (Value * string) :=
  match fuel with
  | O => None
  | S fuel =>
      match skipWs s with
      | String "n"%char r => (λ rest, (VNull, rest)) <$> stripPrefix "ull" r
      | String "t"%char r => (λ rest, (VBool true, rest)) <$> stripPrefix "rue" r
      | String "f"%char r => (λ rest, (VBool false, rest)) <$> stripPrefix "alse" r
      | String "034"%char r =>
          (λ '(str, rest), (VStr str, rest)) <$> parseString r
      | String "["%char r =>
          match skipWs r with
          | String "]"%char rest => Some (VArr [], rest)
          | r' => parseElements fuel r' []
          end
      | String "{"%char r =>
          match skipWs r with
          | String "}"%char rest => Some (VObj [], rest)
          | r' => parseMembers fuel r' []
          end
      | s' => parseNumber s'
      end
  end
with parseElements (fuel : nat) (s : string) (acc : list Value)
  : option (Value * string) :=
  match fuel with
  | O => None
  | S fuel =>
      match parseValue fuel s with
      | Some (v, r) =>
          match skipWs r with
          | String ","%char rest => parseElements fuel rest (acc ++ [v])%list
          | String "]"%char rest => Some (VArr (acc ++ [v])%list, rest)
          | _ => None
          end
      | None => None
      end
  end
with parseMembers (fuel : nat) (s : string) (acc : Obj.t)
  : option (Value * string) :=
  match fuel with
  | O => None
  | S fuel =>
      match skipWs s with
      | String "034"%char r =>
          match parseString r with
          | Some (key, r1) =>
              match skipWs r1 with
              | String ":"%char r2 =>
                  match parseValue fuel r2 with
                  | Some (v, r3) =>
                      match skipWs r3 with
                      | String ","%char rest =>
                          parseMembers fuel rest (Obj.set acc key v)
                      | String "}"%char rest =>
                          Some (VObj (Obj.set acc key v), rest)
                      | _ => None
                      end
                  | None => None
                  end
              | _ => None
              end
          | None => None
          end
      | _ => None
      end
  end.

Definition JSON_parse (text : string) : result Value :=
  match parseValue (2 * String.length text + 2) text with
  | Some (v, rest) =>
      match skipWs rest with
      | EmptyString => Ok v
      | _ => Throw (SyntaxError "Unexpected non-whitespace character after JSON")
      end
  | None => Throw (SyntaxError "Unexpected token in JSON")
  end.

(** A validator that accepts nothing: for a run of the handler that
    stops before the schema. *)
Definition rejectAll (config : Value) : SafeParse :=
  ParseFailure [(["name"], "Required")].

(** The native functions that throw whatever the object: the two that
    define an accessor, called without a function to define. *)
Definition toJSONThrows (name : string) (d : Data.t) : bool :=
  bool_decide (name ∈ ["__defineGetter__"; "__defineSetter__"]).

End Reference.

(** ** What a mapping entry reads and writes *)

(** [sourceRecord[mapping.sourceField]] *)
Definition rawValue (sourceRecord : Value) (mapping : FieldMapping) : Value :=
  match Get sourceRecord (sourceField mapping) with
  | Ok v => v
  | Throw _ => VUndefined
  end.

(** The entry meets the [continue] of the loop. *)
Definition skipped (skipEmpty : bool) (sourceRecord : Value)
    (mapping : FieldMapping) : bool :=
  isEmptyValue (rawValue sourceRecord mapping) && skipEmpty.

(** What the entry makes of the value it reads when it is not skipped:
    the value to write and the errors to record, unless the conversion
    throws. *)
Definition produced (sourceRecord : Value) (mapping : FieldMapping)
  : result (Value * list string) :=
  let value := rawValue sourceRecord mapping in
  if isPresent value then applyTransform mapping value [] else Ok (value, []).

(** The entry is skipped, or its conversion returns. *)
Definition converts (skipEmpty : bool) (sourceRecord : Value)
    (mapping : FieldMapping) : Prop :=
  skipped skipEmpty sourceRecord mapping = false →
  ∃ out, produced sourceRecord mapping = Ok out.

(** The conversions the handler makes of the record return: [String] of
    its identifier, when that is truthy, and those of its entries. *)
Definition convertible (validConfig : MappingConfig) (sourceRecord : Value) : Prop :=
  (∀ recordId,
     Get sourceRecord (idField validConfig) = Ok recordId →
     ToBoolean recordId = true → ∃ id, ToString recordId = Ok id)
  ∧ Forall (converts (skipEmptyFields (options validConfig)) sourceRecord)
           (fieldMappings validConfig).

(** The value the entry writes when it is not skipped. *)
Definition producedValue (sourceRecord : Value) (mapping : FieldMapping) : Value :=
  match produced sourceRecord mapping with
  | Ok out => out.1
  | Throw _ => VUndefined
  end.

(** The errors the entry records when it is not skipped. *)
Definition producedErrors (sourceRecord : Value) (mapping : FieldMapping)
  : list string :=
  match produced sourceRecord mapping with
  | Ok out => out.2
  | Throw _ => []
  end.

(** The writes of the entries that are not skipped, in list order, as
    own properties. *)
Definition written (skipEmpty : bool) (sourceRecord : Value)
    (data : gmap string Value) (mappings : list FieldMapping) : gmap string Value :=
  foldl (λ data mapping,
           if skipped skipEmpty sourceRecord mapping then data
           else <[targetField mapping := producedValue sourceRecord mapping]> data)
        data mappings.

(** The errors of the entries that are not skipped, in list order. *)
Definition reported (skipEmpty : bool) (sourceRecord : Value)
    (mappings : list FieldMapping) : list string :=
  mappings ≫= λ mapping,
    if skipped skipEmpty sourceRecord mapping then []
    else producedErrors sourceRecord mapping.

(** ** The import with another time stamp *)

Definition stampRecord (importedAt : string) (r : StandardizedRecord.t)
  : StandardizedRecord.t :=
  {| StandardizedRecord.id := StandardizedRecord.id r;
     StandardizedRecord.type := StandardizedRecord.type r;
     StandardizedRecord.data := StandardizedRecord.data r;
     StandardizedRecord._meta :=
       {| Meta.sourceIndex := Meta.sourceIndex (StandardizedRecord._meta r);
          Meta.importedAt := importedAt;
          Meta.success := Meta.success (StandardizedRecord._meta r);
          Meta.errors := Meta.errors (StandardizedRecord._meta r) |} |}.

Definition stampSummary (importedAt : string) (s : Summary.t) : Summary.t :=
  {| Summary.totalRecords := Summary.totalRecords s;
     Summary.successfulImports := Summary.successfulImports s;
     Summary.failedImports := Summary.failedImports s;
     Summary.targetRepository := Summary.targetRepository s;
     Summary.importedAt := importedAt |}.

(** The response with every [importedAt] in it replaced. *)
Definition stampResponse (importedAt : string) (response : Response.t) : Response.t :=
  {| Response.status := Response.status response;
     Response.error := Response.error response;
     Response.valid := Response.valid response;
     Response.errors := Response.errors response;
     Response.message := Response.message response;
     Response.summary := stampSummary importedAt <$> Response.summary response;
     Response.records := map (stampRecord importedAt) <$> Response.records response |}.

(** ** Statements of the specification that the handler does not meet *)

(** The configuration passes the check of the required target fields. *)
Definition coverageOk (validConfig : MappingConfig) : Prop :=
  validateRequired (options validConfig) = true → missingRequired validConfig = [].

(** Last write wins: where two entries have the target field [t], the last
    of them in list order gives [data[t]]. *)
Definition lastWriteWins (skipEmpty : bool) : Prop :=
  ∀ (sourceRecord : Value) (mappings : list FieldMapping) (t : string)
    (entry : FieldMapping) (data : Data.t) (recordErrors : list string),
    (2 ≤ length (filter (λ m, targetField m = t) mappings))%nat →
    last (filter (λ m, targetField m = t) mappings) = Some entry →
    applyMappings skipEmpty sourceRecord mappings Data.empty []
    = Ok (data, recordErrors) →
    Data.own data !! t = Some (producedValue sourceRecord entry).

(** With [skipEmptyFields], the target field of an entry whose raw value
    is empty, null or absent is no key of [data]. *)
Definition emptyFieldsNeverKeys : Prop :=
  ∀ (sourceRecord : Value) (mappings : list FieldMapping) (entry : FieldMapping)
    (data : Data.t) (recordErrors : list string),
    entry ∈ mappings →
    isEmptyValue (rawValue sourceRecord entry) = true →
    applyMappings true sourceRecord mappings Data.empty [] = Ok (data, recordErrors) →
    Data.own data !! targetField entry = None.

(** An empty source gives [valid: true], no record, and a summary that
    counts zero records. *)
Definition emptySourceHasSummary : Prop :=
  ∀ (JSON_parse : string → result Value) (toJSONThrows : string → Data.t → bool)
    (importedAt : string) (validConfig : MappingConfig) (sourceFile : string),
    coverageOk validConfig →
    parseSourceFile JSON_parse sourceFile (SourceType.name (sourceType validConfig))
    = Ok [] →
    let response :=
      executeConfig JSON_parse toJSONThrows importedAt validConfig sourceFile in
    Response.valid response = Some true
    ∧ Response.records response = Some []
    ∧ ∃ s, Response.summary response = Some s ∧ Summary.totalRecords s = 0.

(** ** Concrete inputs *)

Module Sample.

Definition entry (source target : string) (t : option Transform.t) : FieldMapping :=
  {| sourceField := source; targetField := target; transform := t |}.

(** Two entries for the target field [t]. *)
Definition duplicateTarget : list FieldMapping :=
  [entry "a" "t" None; entry "b" "t" None].

(** [{ a: "x", b: "" }] *)
Definition secondEmptyProperties : Obj.t := [("a", VStr "x"); ("b", VStr EmptyString)].
Definition secondEmpty : Value := VObj secondEmptyProperties.

(** [{ a: "x", b: "y" }] *)
Definition bothSetProperties : Obj.t := [("a", VStr "x"); ("b", VStr "y")].
Definition bothSet : Value := VObj bothSetProperties.

(** The configuration of the README. *)
Definition userImport (skipEmpty : bool) : MappingConfig :=
  {| name := "user-import";
     sourceType := SourceType.csv;
     targetRepository := Repository.users;
     idField := "user_id";
     fieldMappings := [entry "email_address" "email" None;
                       entry "full_name" "name" (Some Transform.trim)];
     options := {| skipEmptyFields := skipEmpty; validateRequired := true |} |}.

(** The same without a mapping to [email]. *)
Definition userImportNoEmail : MappingConfig :=
  {| name := "user-import";
     sourceType := SourceType.csv;
     targetRepository := Repository.users;
     idField := "user_id";
     fieldMappings := [entry "full_name" "name" (Some Transform.trim)];
     options := {| skipEmptyFields := true; validateRequired := true |} |}.

(** The CSV text of the README: a header row and two records. *)
Definition twoUsers : string :=
  "user_id,email_address,full_name" +:+ String "010"%char
    ("1,alice@example.com,  Alice Smith  " +:+ String "010"%char
       "2,bob@example.com,Bob Jones").

(** A CSV text with a header row and no other line. *)
Definition headerOnly : string := "user_id,email_address,full_name".

(** A product import with a numeric price. *)
Definition productImport (skipEmpty : bool) : MappingConfig :=
  {| name := "product-import";
     sourceType := SourceType.json;
     targetRepository := Repository.products;
     idField := "id";
     fieldMappings := [entry "price" "price" (Some Transform.number)];
     options := {| skipEmptyFields := skipEmpty; validateRequired := false |} |}.

(** A product import that maps the price to the key [__proto__]. *)
Definition priceToProto : MappingConfig :=
  {| name := "product-import";
     sourceType := SourceType.json;
     targetRepository := Repository.products;
     idField := "id";
     fieldMappings := [entry "price" "__proto__" (Some Transform.number)];
     options := {| skipEmptyFields := false; validateRequired := false |} |}.

(** [{ id: "p1", price: "abc" }] *)
Definition priceNotNumeric : Value :=
  VObj [("id", VStr "p1"); ("price", VStr "abc")].

(** [{ id: "p1", price: "" }] *)
Definition priceEmpty : Value :=
  VObj [("id", VStr "p1"); ("price", VStr EmptyString)].

(** [{ id: 0, price: "7" }] *)
Definition idZero : Value :=
  VObj [("id", VNum Num.zero); ("price", VStr "7")].

(** [{ price: "7" }] *)
Definition idAbsent : Value := VObj [("price", VStr "7")].

(** The text [{"meta":{}, "items":[{"id":1}]}]. *)
Definition wrapperText : string :=
  "{" +:+ Str.quoted "meta" +:+ ":{}, " +:+ Str.quoted "items" +:+ ":[{"
  +:+ Str.quoted "id" +:+ ":1}]}".

(** What [JSON.parse] makes of it. *)
Definition wrapper : list (string * Value) :=
  [("meta", VObj []); ("items", VArr [VObj [("id", VNum Num.one)]])].

End Sample.

(** ** The other handlers

    [POST /generate/config] of [src/api/server.js] as it stands before the
    call to the language model, the [/execute/config] handler of the
    order-only server, and the [/execute/config] handler of the first
    server, which takes the source records in the request. *)

(** What a lookup in the object literal [REPOSITORY_SCHEMA] finds: a
    property of the literal, a member [Object.prototype] gives it, or
    nothing ([undefined]). *)
Inductive Member (A : Type) : Type :=
  | Own (a : A)
  | Inherited
  | Missing.
Arguments Own {A} a.
Arguments Inherited {A}.
Arguments Missing {A}.

(** [REPOSITORY_SCHEMA[key]] *)
Definition REPOSITORY_SCHEMA_at (key : string) : Member RepositorySchema :=
  if decide (key = "users") then Own (REPOSITORY_SCHEMA Repository.users)
  else if decide (key = "products") then Own (REPOSITORY_SCHEMA Repository.products)
  else if decide (key = "orders") then Own (REPOSITORY_SCHEMA Repository.orders)
  else if bool_decide (key ∈ Object_prototype_keys) then Inherited
  else Missing.

(** [Object.keys(REPOSITORY_SCHEMA).join(', ')] *)
Definition repositoryNames : string :=
  Str.join ", " (map Repository.name
                   [Repository.users; Repository.products; Repository.orders]).

Module Generate.

(** The placeholder configuration the handler answers with. *)
Record Placeholder : Type := {
  message : string;
  detectedSourceFields : list string;
  targetRepository : Value;
  targetSchema : Member RepositorySchema;
}.

Record Response : Type := {
  status : nat;
  error : option string;
  config : option Placeholder;
}.

Definition failure (code : nat) (err : string) : Response :=
  {| status := code; error := Some err; config := None |}.

End Generate.

Section GenerateHandler.

Variable JSON_parse : string → result Value.

(** The [try] block of the handler: the field names of the first record,
    or none. *)
Definition detectSourceFields (sourceFile fileType : string) : result (list string) :=
  records ← parseSourceFile JSON_parse sourceFile fileType;
  match records with
  | [] => Ok []
  | first :: _ => Object_keys first
  end.

Definition POST_generate_config (body : Value) : Generate.Response :=
  match (sourceFile ← Get body "sourceFile";
         fileType ← Get body "fileType";
         targetRepository ← Get body "targetRepository";
         Ok (sourceFile, fileType, targetRepository)) with
  | Throw _ => Generate.failure 500 "Failed to generate config"
  | Ok (sourceFile, fileType, targetRepository) =>
      match sourceFile with
      | VStr text =>
          if negb (ToBoolean sourceFile) then
            Generate.failure 400 "sourceFile is required and must be a string"
          else
            match fileType with
            | VStr kind =>
                if bool_decide (kind = "csv" ∨ kind = "json") then
                  (* the key of [REPOSITORY_SCHEMA[targetRepository]] is the
                     value as a string *)
                  match (if ToBoolean targetRepository
                         then REPOSITORY_SCHEMA_at <$> ToString targetRepository
                         else Ok Missing) with
                  | Throw _ => Generate.failure 500 "Failed to generate config"
                  | Ok Missing =>
                      Generate.failure 400
                        ("targetRepository is required and must be one of: "
                         +:+ repositoryNames)
                  | Ok schema =>
                      match detectSourceFields text kind with
                      | Throw parseError =>
                          Generate.failure 400
                            ("Failed to parse source file: " +:+ messageOf parseError)
                      | Ok sourceFields =>
                          {| Generate.status := 200;
                             Generate.error := None;
                             Generate.config :=
                               Some {| Generate.message :=
                                         "LLM integration not yet implemented";
                                       Generate.detectedSourceFields := sourceFields;
                                       Generate.targetRepository := targetRepository;
                                       Generate.targetSchema := schema |} |}
                      end
                  end
                else
                  Generate.failure 400
                    ("fileType is required and must be " +:+ Str.quoted "csv"
                     +:+ " or " +:+ Str.quoted "json")
            | _ =>
                Generate.failure 400
                  ("fileType is required and must be " +:+ Str.quoted "csv"
                   +:+ " or " +:+ Str.quoted "json")
            end
      | _ => Generate.failure 400 "sourceFile is required and must be a string"
      end
  end.

End GenerateHandler.

(** The order-only server. *)
Module OrderServer.

Record MappingConfig : Type := {
  name : string;
  sourceType : SourceType.t;
  idField : string;
  fieldMappings : list FieldMapping;
  options : Options;
}.

Record ImportedOrder : Type := {
  _sourceIndex : nat;
  _success : bool;
  _errors : option (list string);
  order : Data.t;
}.

Record Summary : Type := {
  totalRecords : nat;
  successfulImports : nat;
  failedImports : nat;
  importedAt : string;
}.

Record Response : Type := {
  status : nat;
  error : option string;
  valid : option bool;
  errors : option (list Issue.t);
  message : option string;
  summary : option Summary;
  orders : option (list ImportedOrder);
}.

Definition failure (code : nat) (err : string) : Response :=
  {| status := code; error := Some err; valid := None; errors := None;
     message := None; summary := None; orders := None |}.

Definition invalid (errs : list Issue.t) : Response :=
  {| status := 200; error := None; valid := Some false; errors := Some errs;
     message := None; summary := None; orders := None |}.

Definition missingOrderIdError (idField : string) : string :=
  "Missing order ID field " +:+ Str.quoted idField.

(** One turn of the loop over [sourceRecords]: the [order] object starts
    with its [orderId], and the field mappings write into it.  The loop
    over the mappings is that of the other server ([Number.isNaN] tests a
    number there, as [isNaN] does). *)
Definition importOrder (validConfig : MappingConfig) (index : nat)
    (sourceRecord : Value) : result ImportedOrder :=
  orderId ← Get sourceRecord (idField validConfig);
  let recordErrors :=
    if isEmptyValue orderId then [missingOrderIdError (idField validConfig)] else [] in
  id ← idString orderId index;
  let order : Data.t := Data.define Data.empty "orderId" (VStr id) in
  '(order, recordErrors) ←
    applyMappings (skipEmptyFields (options validConfig)) sourceRecord
      (fieldMappings validConfig) order recordErrors;
  Ok {| _sourceIndex := index;
        _success := bool_decide (length recordErrors = 0);
        _errors := if bool_decide (0 < length recordErrors) then Some recordErrors
                   else None;
        order := order |}.

Fixpoint importOrders (validConfig : MappingConfig) (index : nat)
    (sourceRecords : list Value) : result (list ImportedOrder) :=
  match sourceRecords with
  | [] => Ok []
  | sourceRecord :: rest =>
      o ← importOrder validConfig index sourceRecord;
      os ← importOrders validConfig (S index) rest;
      Ok (o :: os)
  end.

Definition successCount (orders : list ImportedOrder) : nat :=
  length (filter (λ o, _success o = true) orders).

End OrderServer.

Section OrderHandler.

Variable JSON_parse : string → result Value.
Variable toJSONThrows : string → Data.t → bool.

(** The handler of the order-only server once the configuration has
    passed the schema. *)
Definition executeOrderConfig (importedAt : string)
    (validConfig : OrderServer.MappingConfig) (sourceFile : string)
  : OrderServer.Response :=
  let missingRequired := Order.missingRequired (OrderServer.fieldMappings validConfig) in
  if validateRequired (OrderServer.options validConfig)
     && bool_decide (0 < length missingRequired)
  then OrderServer.invalid (map missingFieldIssue missingRequired)
  else
    match parseSourceFile JSON_parse sourceFile
            (SourceType.name (OrderServer.sourceType validConfig)) with
    | Throw parseError =>
        OrderServer.invalid
          [ {| Issue.path := "sourceFile";
               Issue.message := "Failed to parse: " +:+ messageOf parseError |} ]
    | Ok sourceRecords =>
        if bool_decide (length sourceRecords = 0) then
          {| OrderServer.status := 200; OrderServer.error := None;
             OrderServer.valid := Some true; OrderServer.errors := None;
             OrderServer.message :=
               Some "Source file parsed but contains no records.";
             OrderServer.summary := None; OrderServer.orders := Some [] |}
        else
          match OrderServer.importOrders validConfig 0 sourceRecords with
          | Throw _ => OrderServer.failure 500 "Failed to execute config"
          | Ok orders =>
              if existsb (λ o, Data.stringifyThrows toJSONThrows
                                 (OrderServer.order o)) orders
              then OrderServer.failure 500 "Failed to execute config"
              else
              {| OrderServer.status := 200; OrderServer.error := None;
                 OrderServer.valid := Some true; OrderServer.errors := None;
                 OrderServer.message := None;
                 OrderServer.summary :=
                   Some {| OrderServer.totalRecords := length sourceRecords;
                           OrderServer.successfulImports :=
                             OrderServer.successCount orders;
                           OrderServer.failedImports :=
                             length sourceRecords - OrderServer.successCount orders;
                           OrderServer.importedAt := importedAt |};
                 OrderServer.orders := Some orders |}
          end
    end.

End OrderHandler.

(** The first server: the configuration names its repository by any
    string, has no [idField], and the source records come in the request
    as [sourceData]. *)
Module Legacy.

Record MappingConfig : Type := {
  name : string;
  sourceType : string;
  targetRepository : string;
  fieldMappings : list FieldMapping;
  options : Options;
}.

Record ImportedRecord : Type := {
  _index : nat;
  _success : bool;
  _errors : list string;
  record : Data.t;
}.

Module ConfigSummary.
Record t : Type := {
  name : string;
  targetRepository : string;
  fieldCount : nat;
  mappedFields : list string;
}.
End ConfigSummary.

Module Summary.
Record t : Type := {
  totalRecords : nat;
  successfulImports : nat;
  failedImports : nat;
  targetRepository : string;
}.
End Summary.

Record Response : Type := {
  status : nat;
  error : option string;
  valid : option bool;
  errors : option (list Issue.t);
  message : option string;
  configSummary : option ConfigSummary.t;
  summary : option Summary.t;
  importedRecords : option (list ImportedRecord);
}.

Definition failure (code : nat) (err : string) : Response :=
  {| status := code; error := Some err; valid := None; errors := None;
     message := None; configSummary := None; summary := None;
     importedRecords := None |}.

Definition invalid (errs : list Issue.t) : Response :=
  {| status := 200; error := None; valid := Some false; errors := Some errs;
     message := None; configSummary := None; summary := None;
     importedRecords := None |}.

Definition unknownRepositoryIssue (repository : string) : Issue.t :=
  {| Issue.path := "targetRepository";
     Issue.message := "Unknown repository " +:+ Str.quoted repository
                      +:+ ". Valid: " +:+ repositoryNames |}.

(** The callback of [sourceData.map]; its loop over the mappings is that
    of the later servers. *)
Definition importOne (validConfig : MappingConfig) (index : nat)
    (sourceRecord : Value) : result ImportedRecord :=
  '(targetRecord, recordErrors) ←
    applyMappings (skipEmptyFields (options validConfig)) sourceRecord
      (fieldMappings validConfig) Data.empty [];
  Ok {| _index := index;
        _success := bool_decide (length recordErrors = 0);
        _errors := recordErrors;
        record := targetRecord |}.

Fixpoint importAll (validConfig : MappingConfig) (index : nat)
    (sourceData : list Value) : result (list ImportedRecord) :=
  match sourceData with
  | [] => Ok []
  | sourceRecord :: rest =>
      r ← importOne validConfig index sourceRecord;
      rs ← importAll validConfig (S index) rest;
      Ok (r :: rs)
  end.

Definition successCount (records : list ImportedRecord) : nat :=
  length (filter (λ r, _success r = true) records).

(** The handler once the configuration has passed the schema;
    [sourceData] is what the request holds under that key, and
    [toJSONThrows] tells whether a native function throws when
    [JSON.stringify] calls it as the [toJSON] of a record. *)
Definition executeConfig (toJSONThrows : string → Data.t → bool)
    (validConfig : MappingConfig) (sourceData : Value) : Response :=
  match REPOSITORY_SCHEMA_at (targetRepository validConfig) with
  | Missing => invalid [unknownRepositoryIssue (targetRepository validConfig)]
  | Inherited =>
      (* [repoSchema.required] is undefined there: [.filter] throws *)
      failure 500 "Failed to execute config"
  | Own repoSchema =>
      let mappedTargetFields := map targetField (fieldMappings validConfig) in
      let missingRequired :=
        filter (λ f, f ∉ mappedTargetFields) (required repoSchema) in
      if validateRequired (options validConfig)
         && bool_decide (0 < length missingRequired)
      then invalid (map missingFieldIssue missingRequired)
      else
        match sourceData with
        | VArr records =>
            match importAll validConfig 0 records with
            | Throw _ => failure 500 "Failed to execute config"
            | Ok importedRecords =>
                if existsb (λ r, Data.stringifyThrows toJSONThrows (record r))
                     importedRecords
                then failure 500 "Failed to execute config"
                else
                {| status := 200; error := None; valid := Some true;
                   errors := None; message := None; configSummary := None;
                   summary :=
                     Some {| Summary.totalRecords := length records;
                             Summary.successfulImports := successCount importedRecords;
                             Summary.failedImports :=
                               length records - successCount importedRecords;
                             Summary.targetRepository :=
                               targetRepository validConfig |};
                   importedRecords := Some importedRecords |}
            end
        | _ =>
            {| status := 200; error := None; valid := Some true; errors := None;
               message :=
                 Some "Config is valid. Provide sourceData array to simulate import.";
               configSummary :=
                 Some {| ConfigSummary.name := name validConfig;
                         ConfigSummary.targetRepository :=
                           targetRepository validConfig;
                         ConfigSummary.fieldCount :=
                           length (fieldMappings validConfig);
                         ConfigSummary.mappedFields := mappedTargetFields |};
               summary := None; importedRecords := None |}
        end
  end.

End Legacy.

(** ** Further concrete inputs *)

Module Sample2.

(** The text [[{"id":0,"price":"7"}, null]]. *)
Definition secondNull : string :=
  "[{" +:+ Str.quoted "id" +:+ ":0," +:+ Str.quoted "price" +:+ ":"
  +:+ Str.quoted "7" +:+ "}, null]".

(** The text [[{"id":{"toString":1}}]]. *)
Definition idWithToString : string :=
  "[{" +:+ Str.quoted "id" +:+ ":{" +:+ Str.quoted "toString" +:+ ":1}}]".

(** A CSV text whose first column has the name [__proto__]. *)
Definition protoHeader : string :=
  "__proto__,b" +:+ String "010"%char "x,y".

(** [{ user_id: "2", email_address: "bob@example.com", full_name: "Bob Jones" }] *)
Definition bobProperties : Obj.t :=
  [("user_id", VStr "2"); ("email_address", VStr "bob@example.com");
   ("full_name", VStr "Bob Jones")].
Definition bob : Value := VObj bobProperties.

(** The record the README import makes of it, as the second of its
    source. *)
Definition bobRecord : StandardizedRecord.t :=
  {| StandardizedRecord.id := "2";
     StandardizedRecord.type := Repository.users;
     StandardizedRecord.data :=
       Data.define (Data.define Data.empty "email" (VStr "bob@example.com"))
         "name" (VStr "Bob Jones");
     StandardizedRecord._meta :=
       {| Meta.sourceIndex := 1;
          Meta.importedAt := "2026-01-28T12:00:00.000Z";
          Meta.success := true;
          Meta.errors := None |} |}.

(** [{ id: "p1" }] *)
Definition noPrice : Value := VObj [("id", VStr "p1")].

(** The record a product import without [skipEmptyFields] makes of it. *)
Definition noPriceRecord : StandardizedRecord.t :=
  {| StandardizedRecord.id := "p1";
     StandardizedRecord.type := Repository.products;
     StandardizedRecord.data := Data.define Data.empty "price" VUndefined;
     StandardizedRecord._meta :=
       {| Meta.sourceIndex := 0;
          Meta.importedAt := "2026-01-28T12:00:00.000Z";
          Meta.success := true;
          Meta.errors := None |} |}.

(** An order import with an entry that maps to [orderId]. *)
Definition orderImport : OrderServer.MappingConfig :=
  {| OrderServer.name := "order-import";
     OrderServer.sourceType := SourceType.json;
     OrderServer.idField := "id";
     OrderServer.fieldMappings := [Sample.entry "ref" "orderId" None];
     OrderServer.options :=
       {| skipEmptyFields := true; validateRequired := true |} |}.

(** [{ id: "A1", ref: "B2" }] *)
Definition orderWithRef : Value := VObj [("id", VStr "A1"); ("ref", VStr "B2")].

(** A configuration of the first server for [users] that maps no [id]. *)
Definition legacyUsers : Legacy.MappingConfig :=
  {| Legacy.name := "user-import";
     Legacy.sourceType := "csv";
     Legacy.targetRepository := "users";
     Legacy.fieldMappings := [Sample.entry "email_address" "email" None;
                              Sample.entry "full_name" "name" (Some Transform.trim)];
     Legacy.options := {| skipEmptyFields := true; validateRequired := true |} |}.

(** The same with a mapping to [id]. *)
Definition legacyUsersWithId : Legacy.MappingConfig :=
  {| Legacy.name := "user-import";
     Legacy.sourceType := "csv";
     Legacy.targetRepository := "users";
     Legacy.fieldMappings := [Sample.entry "user_id" "id" None;
                              Sample.entry "email_address" "email" None;
                              Sample.entry "full_name" "name" (Some Transform.trim)];
     Legacy.options := {| skipEmptyFields := true; validateRequired := true |} |}.

End Sample2.

(** ** Notions the properties of the parser are stated with *)

(** The number of times [c] stands in [s]. *)
Fixpoint occurrences (c : ascii) (s : string) : nat :=
  match s with
  | EmptyString => 0
  | String a r => (if decide (a = c) then 1 else 0) + occurrences c r
  end.

(** The lines of a CSV text, as [parseCSV] splits them. *)
Definition csvLines (csvString : string) : list string :=
  Str.split "010"%char (Str.trim csvString).

(** The trimmed cells of a line. *)
Definition csvCells (line : string) : list string :=
  map Str.trim (Str.split ","%char line).

(** * Properties *)

(** ** Target coverage *)

Section Coverage.

Variables (required : list string) (idName : string) (mapped : list string).

(** Both servers compute the missing fields with the same two filters. *)
Lemma missing_spec (f : string) :
  f ∈ filter (λ f, f ∉ mapped) (filter (λ f, f ≠ idName) required)
  ↔ f ∈ required ∧ f ≠ idName ∧ f ∉ mapped.
Proof. rewrite !list_elem_of_filter. tauto. Qed.

Lemma missing_nil :
  (∀ f, f ∈ required → f ≠ idName → f ∈ mapped) →
  filter (λ f, f ∉ mapped) (filter (λ f, f ≠ idName) required) = [].
Proof.
  intros Hall.
  destruct (filter _ (filter _ required)) as [|f l] eqn:E; [done|].
  assert (Hf : f ∈ f :: l) by apply list_elem_of_here.
  rewrite <- E in Hf. apply missing_spec in Hf as (Hr & Hid & Hm).
  destruct Hm. by apply Hall.
Qed.

End Coverage.

Lemma coverage_gate (l : list string) :
  bool_decide (0 < length l) = true ↔ l ≠ [].
Proof.
  rewrite bool_decide_eq_true. destruct l; simpl; split; try done; lia.
Qed.

(** C1. With [validateRequired] set, the missing fields are the required
    fields of the target schema, the identifier ([id]; [orderId] in the
    order-only server) apart, that no mapping has as its [targetField];
    if there are any, the response is [valid: false] with one
    "Missing required target field" error per missing field, at path
    [fieldMappings]; and if every required field other than the identifier
    is mapped, the check passes and the import goes on. *)
Theorem missing_required_coverage
    (JSON_parse : string → result Value) (toJSONThrows : string → Data.t → bool)
    (importedAt : string) (validConfig : MappingConfig) (sourceFile : string) :
  validateRequired (options validConfig) = true →
  let schema := REPOSITORY_SCHEMA (targetRepository validConfig) in
  (∀ f, f ∈ missingRequired validConfig
        ↔ f ∈ required schema ∧ f ≠ "id" ∧ f ∉ mappedTargetFields validConfig)
  ∧ (∀ f, f ∈ Order.missingRequired (fieldMappings validConfig)
          ↔ f ∈ required Order.TARGET_ORDER_SCHEMA ∧ f ≠ "orderId"
            ∧ f ∉ map targetField (fieldMappings validConfig))
  ∧ (missingRequired validConfig ≠ [] →
     let response :=
       executeConfig JSON_parse toJSONThrows importedAt validConfig sourceFile in
     Response.valid response = Some false
     ∧ Response.records response = None
     ∧ Response.errors response
       = Some (map (λ field,
                      {| Issue.path := "fieldMappings";
                         Issue.message :=
                           "Missing required target field: " +:+ Str.quoted field |})
                   (missingRequired validConfig)))
  ∧ ((∀ f, f ∈ required schema → f ≠ "id" → f ∈ mappedTargetFields validConfig) →
     missingRequired validConfig = []
     ∧ executeConfig JSON_parse toJSONThrows importedAt validConfig sourceFile
       = importSource JSON_parse toJSONThrows importedAt validConfig sourceFile).
Proof.
  intros Hvr schema. split; [|split; [|split]].
  - intros f. apply missing_spec.
  - intros f. apply missing_spec.
  - intros Hmiss. unfold executeConfig. rewrite Hvr. simpl.
    by rewrite (proj2 (coverage_gate _) Hmiss).
  - intros Hall.
    assert (Hnil : missingRequired validConfig = []) by by apply missing_nil.
    split; [done|].
    unfold executeConfig. by rewrite Hnil, andb_false_r.
Qed.

Lemma missing_required_coverage_witness :
  Response.errors
    (executeConfig Reference.JSON_parse Reference.toJSONThrows
       "2026-01-28T12:00:00.000Z" Sample.userImportNoEmail Sample.twoUsers)
  = Some [ {| Issue.path := "fieldMappings";
              Issue.message :=
                "Missing required target field: " +:+ Str.quoted "email" |} ].
Proof.
  destruct (missing_required_coverage Reference.JSON_parse
              Reference.toJSONThrows "2026-01-28T12:00:00.000Z"
              Sample.userImportNoEmail Sample.twoUsers eq_refl)
    as (_ & _ & Hfails & _).
  destruct Hfails as (_ & _ & Herrors); [done|]. exact Herrors.
Defined.

(** The import of the README: two records, both imported. *)
Example readme_import :
  executeConfig Reference.JSON_parse Reference.toJSONThrows
    "2026-01-28T12:00:00.000Z" (Sample.userImport true) Sample.twoUsers
  = Response.imported
      {| Summary.totalRecords := 2;
         Summary.successfulImports := 2;
         Summary.failedImports := 0;
         Summary.targetRepository := Repository.users;
         Summary.importedAt := "2026-01-28T12:00:00.000Z" |}
      [ {| StandardizedRecord.id := "1";
           StandardizedRecord.type := Repository.users;
           StandardizedRecord.data :=
             {| Data.own := <["name" := VStr "Alice Smith"]>
                              (<["email" := VStr "alice@example.com"]> ∅);
                Data.proto := Data.ObjectPrototype |};
           StandardizedRecord._meta :=
             {| Meta.sourceIndex := 0;
                Meta.importedAt := "2026-01-28T12:00:00.000Z";
                Meta.success := true;
                Meta.errors := None |} |};
        {| StandardizedRecord.id := "2";
           StandardizedRecord.type := Repository.users;
           StandardizedRecord.data :=
             {| Data.own := <["name" := VStr "Bob Jones"]>
                              (<["email" := VStr "bob@example.com"]> ∅);
                Data.proto := Data.ObjectPrototype |};
           StandardizedRecord._meta :=
             {| Meta.sourceIndex := 1;
                Meta.importedAt := "2026-01-28T12:00:00.000Z";
                Meta.success := true;
                Meta.errors := None |} |} ].
Proof. vm_compute. reflexivity. Qed.

(** ** Reading a source record *)

Lemma Get_present (o : Value) (key : string) (v : Value) :
  Get o key = Ok v → isPresent o = true.
Proof. by destruct o. Qed.

Lemma rawValue_Get (sourceRecord : Value) (mapping : FieldMapping) (v : Value) :
  Get sourceRecord (sourceField mapping) = Ok v → rawValue sourceRecord mapping = v.
Proof. unfold rawValue. by intros ->. Qed.

Lemma Get_rawValue (properties : Obj.t) (mapping : FieldMapping) :
  Get (VObj properties) (sourceField mapping)
  = Ok (rawValue (VObj properties) mapping).
Proof. done. Qed.

(** ** The loop over the field mappings *)

(** The errors a transform finds are appended to those of the record. *)
Lemma applyTransform_errors (mapping : FieldMapping) (value : Value)
    (recordErrors : list string) :
  applyTransform mapping value recordErrors
  = out ← applyTransform mapping value [];
    Ok (out.1, (recordErrors ++ out.2)%list).
Proof.
  unfold applyTransform.
  destruct (transform mapping) as [[]|]; simpl; rewrite ?app_nil_r; try done.
  - by destruct (ToString value); simpl; rewrite ?app_nil_r.
  - by destruct (ToString value); simpl; rewrite ?app_nil_r.
  - by destruct (ToString value); simpl; rewrite ?app_nil_r.
  - destruct (ToNumber value) as [numValue|]; simpl; [|done].
    by destruct (Num.isNaN numValue); simpl; rewrite ?app_nil_r.
Qed.

(** A write to an object that has kept the prototype of [{}], at a key
    other than [__proto__], makes an own property. *)
Lemma assign_define (d : Data.t) (key : string) (v : Value) :
  Data.proto d = Data.ObjectPrototype →
  key ≠ "__proto__" →
  Data.assign d key v = Ok (Data.define d key v).
Proof.
  intros Hproto Hkey. unfold Data.assign.
  case_bool_decide; [done|]. rewrite decide_False by done. by rewrite Hproto.
Qed.

(** One turn of the loop over an object, for an entry whose target field
    is not [__proto__]. *)
Lemma applyMappings_cons (skipEmpty : bool) (properties : Obj.t)
    (mapping : FieldMapping) (rest : list FieldMapping)
    (data : Data.t) (recordErrors : list string) :
  Data.proto data = Data.ObjectPrototype →
  targetField mapping ≠ "__proto__" →
  applyMappings skipEmpty (VObj properties) (mapping :: rest) data recordErrors
  = if skipped skipEmpty (VObj properties) mapping
    then applyMappings skipEmpty (VObj properties) rest data recordErrors
    else out ← produced (VObj properties) mapping;
         applyMappings skipEmpty (VObj properties) rest
           (Data.define data (targetField mapping) out.1)
           (recordErrors ++ out.2)%list.
Proof.
  intros Hproto Hkey.
  unfold skipped, produced. cbn [applyMappings].
  rewrite Get_rawValue. cbn [mbind result_bind].
  set (value := rawValue (VObj properties) mapping).
  destruct (isEmptyValue value && skipEmpty); [done|].
  destruct (isPresent value).
  - rewrite applyTransform_errors.
    destruct (applyTransform mapping value []) as [[v errs]|]; [|done].
    cbn. by rewrite assign_define.
  - cbn. by rewrite assign_define, app_nil_r.
Qed.

(** The loop over an object returns when the conversions of its entries
    do, and what it returns then. *)
Lemma applyMappings_returns (skipEmpty : bool) (properties : Obj.t)
    (mappings : list FieldMapping) (data : Data.t) (recordErrors : list string) :
  Data.proto data = Data.ObjectPrototype →
  "__proto__" ∉ map targetField mappings →
  Forall (converts skipEmpty (VObj properties)) mappings →
  applyMappings skipEmpty (VObj properties) mappings data recordErrors
  = Ok ({| Data.own := written skipEmpty (VObj properties) (Data.own data) mappings;
           Data.proto := Data.ObjectPrototype |},
        (recordErrors ++ reported skipEmpty (VObj properties) mappings)%list).
Proof.
  intros Hproto Hkeys Hall. revert data recordErrors Hproto.
  induction mappings as [|mapping rest IH]; intros data recordErrors Hproto.
  - cbn. rewrite app_nil_r. by destruct data; simpl in *; subst.
  - apply Forall_cons in Hall as [Hm Hall].
    rewrite fmap_cons, not_elem_of_cons in Hkeys. destruct Hkeys as [Hkey Hkeys].
    rewrite applyMappings_cons by done.
    unfold written, reported, producedValue, producedErrors. simpl.
    destruct (skipped skipEmpty (VObj properties) mapping) eqn:Hs.
    + by rewrite IH.
    + destruct (Hm Hs) as [out ->]. cbn.
      rewrite IH by done. unfold written, reported, producedValue, producedErrors.
      by rewrite <- app_assoc.
Qed.

(** When the loop over an object returns, the conversion of every entry
    has. *)
Lemma applyMappings_converts (skipEmpty : bool) (properties : Obj.t)
    (mappings : list FieldMapping) (data : Data.t) (recordErrors : list string)
    (out : Data.t * list string) :
  Data.proto data = Data.ObjectPrototype →
  "__proto__" ∉ map targetField mappings →
  applyMappings skipEmpty (VObj properties) mappings data recordErrors = Ok out →
  Forall (converts skipEmpty (VObj properties)) mappings.
Proof.
  intros Hproto Hkeys. revert data recordErrors Hproto.
  induction mappings as [|mapping rest IH]; intros data recordErrors Hproto Hout;
    [done|].
  rewrite fmap_cons, not_elem_of_cons in Hkeys. destruct Hkeys as [Hkey Hkeys].
  rewrite applyMappings_cons in Hout by done.
  destruct (skipped skipEmpty (VObj properties) mapping) eqn:Hs.
  - apply Forall_cons. split; [|by eapply IH].
    intros Hs'. congruence.
  - destruct (produced (VObj properties) mapping) as [o|] eqn:Hp; [|done].
    apply Forall_cons. split; [intros _; eauto|].
    cbn in Hout. eapply (IH Hkeys); [|exact Hout]. exact Hproto.
Qed.

Lemma applyMappings_inv (skipEmpty : bool) (properties : Obj.t)
    (mappings : list FieldMapping) (data data' : Data.t)
    (recordErrors recordErrors' : list string) :
  Data.proto data = Data.ObjectPrototype →
  "__proto__" ∉ map targetField mappings →
  applyMappings skipEmpty (VObj properties) mappings data recordErrors
  = Ok (data', recordErrors') →
  Data.own data' = written skipEmpty (VObj properties) (Data.own data) mappings
  ∧ Data.proto data' = Data.ObjectPrototype
  ∧ recordErrors'
    = (recordErrors ++ reported skipEmpty (VObj properties) mappings)%list.
Proof.
  intros Hproto Hkeys Hout.
  pose proof (applyMappings_converts _ _ _ _ _ _ Hproto Hkeys Hout) as Hall.
  rewrite applyMappings_returns in Hout by done.
  by injection Hout as <- <-.
Qed.

(** What the writes leave at a key: the value of the last entry for that
    key that is not skipped. *)
Lemma written_lookup (skipEmpty : bool) (sourceRecord : Value)
    (data : gmap string Value) (mappings : list FieldMapping) (t : string) :
  written skipEmpty sourceRecord data mappings !! t
  = match last (filter (λ m, targetField m = t
                              ∧ skipped skipEmpty sourceRecord m = false) mappings) with
    | Some m => Some (producedValue sourceRecord m)
    | None => data !! t
    end.
Proof.
  unfold written.
  induction mappings as [|mapping mappings IH] using rev_ind; [done|].
  rewrite foldl_snoc, filter_app, last_app.
  rewrite filter_cons, filter_nil.
  destruct (skipped skipEmpty sourceRecord mapping) eqn:Hs.
  - rewrite decide_False by (intros [_ ?]; done). by simpl.
  - destruct (decide (targetField mapping = t)) as [<-|Hne].
    + rewrite decide_True by done. simpl. by rewrite lookup_insert_eq.
    + rewrite decide_False by (intros [? _]; done). simpl.
      by rewrite lookup_insert_ne.
Qed.

Lemma last_filter_elem {A : Type} (P : A → Prop) `{!∀ x, Decision (P x)}
    (l : list A) (x : A) :
  last (filter P l) = Some x → x ∈ l ∧ P x.
Proof.
  intros [l' Hl]%last_Some.
  assert (Hx : x ∈ filter P l) by (rewrite Hl; set_solver).
  apply list_elem_of_filter in Hx. tauto.
Qed.

Lemma last_filter_none {A : Type} (P : A → Prop) `{!∀ x, Decision (P x)}
    (l : list A) (x : A) :
  last (filter P l) = None → x ∈ l → ¬ P x.
Proof.
  intros Hlast Hx HP.
  assert (Hin : x ∈ filter P l) by (apply list_elem_of_filter; done).
  destruct (filter P l) as [|y k] using rev_ind; [by apply elem_of_nil in Hin|].
  by rewrite last_snoc in Hlast.
Qed.

(** ** Last write wins *)

(** C2, as the specification states it, fails: with [skipEmptyFields] the
    record [{ a: "x", b: "" }] under the entries [a → t], [b → t] keeps
    ["x"] at [t], the value of the first entry. *)
Lemma last_write_wins_fails_when_skipping : ¬ (∀ skipEmpty, lastWriteWins skipEmpty).
Proof.
  intros H.
  specialize (H true Sample.secondEmpty Sample.duplicateTarget "t"
                (Sample.entry "b" "t" None)
                (Data.define Data.empty "t" (VStr "x")) []).
  assert (Hdata : Data.own (Data.define Data.empty "t" (VStr "x")) !! "t"
                  = Some (VStr EmptyString)).
  { apply H; [vm_compute; lia | reflexivity | reflexivity]. }
  simpl in Hdata. rewrite lookup_insert_eq in Hdata. discriminate Hdata.
Qed.

(** C2, amended.  For a source record that is an object and field mappings
    none of which has the target field [__proto__]: after the loop,
    [data[t]] is the value produced by the last entry with target field
    [t] that was not skipped (and [t] is no key of [data] if there is
    none); without [skipEmptyFields] no entry is skipped, and the last
    entry with target field [t] gives the value. *)
Theorem last_unskipped_write_wins (skipEmpty : bool) (properties : Obj.t)
    (mappings : list FieldMapping) (t : string)
    (data : Data.t) (recordErrors : list string) :
  "__proto__" ∉ map targetField mappings →
  applyMappings skipEmpty (VObj properties) mappings Data.empty []
  = Ok (data, recordErrors) →
  Data.own data !! t
  = producedValue (VObj properties)
    <$> last (filter (λ m, targetField m = t
                           ∧ skipped skipEmpty (VObj properties) m = false) mappings)
  ∧ (skipEmpty = false →
     Data.own data !! t
     = producedValue (VObj properties)
       <$> last (filter (λ m, targetField m = t) mappings)).
Proof.
  intros Hkeys (Hown & _ & _)%applyMappings_inv; [|done..].
  rewrite Hown.
  assert (Hgen : written skipEmpty (VObj properties) (Data.own Data.empty) mappings !! t
    = producedValue (VObj properties)
      <$> last (filter (λ m, targetField m = t
                             ∧ skipped skipEmpty (VObj properties) m = false)
                       mappings)).
  { rewrite written_lookup. by destruct (last _). }
  split; [done|]. intros ->. rewrite Hgen. do 2 f_equal.
  apply list_filter_iff. intros m. unfold skipped.
  rewrite andb_false_r. tauto.
Qed.

Lemma last_unskipped_write_wins_witness :
  Data.own (Data.define Data.empty "t" (VStr "y")) !! "t"
  = producedValue (VObj Sample.bothSetProperties)
    <$> last (filter (λ m, targetField m = "t"
                           ∧ skipped false (VObj Sample.bothSetProperties) m = false)
                     Sample.duplicateTarget)
  ∧ (false = false →
     Data.own (Data.define Data.empty "t" (VStr "y")) !! "t"
     = producedValue (VObj Sample.bothSetProperties)
       <$> last (filter (λ m, targetField m = "t") Sample.duplicateTarget)).
Proof.
  apply (last_unskipped_write_wins false Sample.bothSetProperties
           Sample.duplicateTarget "t" (Data.define Data.empty "t" (VStr "y")) []).
  - apply (bool_decide_unpack _). vm_compute. reflexivity.
  - reflexivity.
Defined.

(** ** Skipped fields *)

(** C6, as the specification states it, fails: under [{ a: "x", b: "" }]
    the entry [b → t] reads an empty value, and [t] is a key of [data]
    all the same, written by the entry [a → t]. *)
Lemma empty_field_key_present : ¬ emptyFieldsNeverKeys.
Proof.
  intros H.
  specialize (H Sample.secondEmpty Sample.duplicateTarget
                (Sample.entry "b" "t" None)
                (Data.define Data.empty "t" (VStr "x")) []).
  assert (Hdata : Data.own (Data.define Data.empty "t" (VStr "x")) !! "t" = None).
  { apply H; [set_solver | reflexivity | reflexivity]. }
  simpl in Hdata. rewrite lookup_insert_eq in Hdata. discriminate Hdata.
Qed.

(** C6, amended.  For a source record that is an object and field mappings
    none of which has the target field [__proto__]: with
    [skipEmptyFields], a target field is no key of [data] (it is left
    unset, not set to null) exactly when every entry that maps to it reads
    an empty, null or absent raw value; an entry that reads such a value
    writes nothing, and leaves what the entries before it wrote. *)
Theorem unset_iff_every_entry_empty (properties : Obj.t)
    (mappings : list FieldMapping) (t : string)
    (data : Data.t) (recordErrors : list string) :
  "__proto__" ∉ map targetField mappings →
  applyMappings true (VObj properties) mappings Data.empty []
  = Ok (data, recordErrors) →
  (Data.own data !! t = None
   ↔ ∀ m, m ∈ mappings → targetField m = t →
          isEmptyValue (rawValue (VObj properties) m) = true)
  ∧ (∀ m rest value data0 recordErrors0,
       Get (VObj properties) (sourceField m) = Ok value →
       isEmptyValue value = true →
       applyMappings true (VObj properties) (m :: rest) data0 recordErrors0
       = applyMappings true (VObj properties) rest data0 recordErrors0).
Proof.
  intros Hkeys (Hown & _ & _)%applyMappings_inv; [|done..].
  rewrite Hown. split.
  - rewrite written_lookup.
    destruct (last _) as [m|] eqn:Hlast.
    + apply last_filter_elem in Hlast as (Hin & Ht & Hs).
      unfold skipped in Hs. rewrite andb_true_r in Hs.
      split; [done|]. intros Hall. rewrite (Hall m Hin Ht) in Hs. done.
    + split; [|done]. intros _ m Hin Ht.
      pose proof (last_filter_none _ _ m Hlast Hin) as Hno.
      unfold skipped in Hno. rewrite andb_true_r in Hno.
      destruct (isEmptyValue (rawValue (VObj properties) m)); [done|].
      destruct Hno. done.
  - intros m rest value data0 recordErrors0 Hv Hempty.
    cbn [applyMappings]. rewrite Hv. cbn. by rewrite Hempty.
Qed.

Lemma unset_iff_every_entry_empty_witness :
  Data.own (Data.define Data.empty "t" (VStr "x")) !! "t" = None
  ↔ ∀ m, m ∈ Sample.duplicateTarget → targetField m = "t" →
         isEmptyValue (rawValue (VObj Sample.secondEmptyProperties) m) = true.
Proof.
  apply (unset_iff_every_entry_empty Sample.secondEmptyProperties
           Sample.duplicateTarget "t" (Data.define Data.empty "t" (VStr "x")) []).
  - apply (bool_decide_unpack _). vm_compute. reflexivity.
  - reflexivity.
Defined.

(** ** An empty source *)

(** C3, as the specification states it, fails: for a CSV text with a
    header row only, the response has no summary. *)
Lemma empty_source_has_no_summary : ¬ emptySourceHasSummary.
Proof.
  intros H.
  destruct (H Reference.JSON_parse Reference.toJSONThrows
              "2026-01-28T12:00:00.000Z" (Sample.userImport true) Sample.headerOnly)
    as (_ & _ & s & Hs & _).
  - intros _. reflexivity.
  - reflexivity.
  - discriminate Hs.
Qed.

(** C3, amended.  When the configuration passes the coverage check and the
    source parses to no record, the response is [valid: true] with an
    empty [records] and a message, and it has no summary. *)
Theorem empty_source_no_records (JSON_parse : string → result Value)
    (toJSONThrows : string → Data.t → bool)
    (importedAt : string) (validConfig : MappingConfig) (sourceFile : string) :
  coverageOk validConfig →
  parseSourceFile JSON_parse sourceFile (SourceType.name (sourceType validConfig))
  = Ok [] →
  let response :=
    executeConfig JSON_parse toJSONThrows importedAt validConfig sourceFile in
  response = Response.noRecords "Source file parsed but contains no records." []
  ∧ Response.valid response = Some true
  ∧ Response.records response = Some []
  ∧ Response.summary response = None.
Proof.
  intros Hcov Hparse response.
  assert (Hr : response
               = Response.noRecords "Source file parsed but contains no records." []).
  { unfold response, executeConfig.
    destruct (validateRequired (options validConfig)) eqn:Hvr; simpl.
    - rewrite (Hcov Hvr). simpl. unfold importSource. by rewrite Hparse.
    - unfold importSource. by rewrite Hparse. }
  by rewrite Hr.
Qed.

Lemma empty_source_no_records_witness :
  let response :=
    executeConfig Reference.JSON_parse Reference.toJSONThrows
      "2026-01-28T12:00:00.000Z" (Sample.userImport true) Sample.headerOnly in
  response = Response.noRecords "Source file parsed but contains no records." []
  ∧ Response.valid response = Some true
  ∧ Response.records response = Some []
  ∧ Response.summary response = None.
Proof.
  apply empty_source_no_records.
  - intros _. reflexivity.
  - reflexivity.
Defined.

(** ** One record *)

Lemma reported_cons (skipEmpty : bool) (sourceRecord : Value)
    (mapping : FieldMapping) (rest : list FieldMapping) :
  reported skipEmpty sourceRecord (mapping :: rest)
  = ((if skipped skipEmpty sourceRecord mapping then []
      else producedErrors sourceRecord mapping)
     ++ reported skipEmpty sourceRecord rest)%list.
Proof. done. Qed.

Lemma reported_app (skipEmpty : bool) (sourceRecord : Value)
    (l k : list FieldMapping) :
  reported skipEmpty sourceRecord (l ++ k)
  = (reported skipEmpty sourceRecord l ++ reported skipEmpty sourceRecord k)%list.
Proof. unfold reported. apply bind_app. Qed.

(** The errors of a transform are its [number] error, or none. *)
Lemma applyTransform_number_errors (mapping : FieldMapping) (value : Value)
    (out : Value * list string) (e : string) :
  applyTransform mapping value [] = Ok out →
  e ∈ out.2 → e = numberError (sourceField mapping).
Proof.
  unfold applyTransform.
  destruct (transform mapping) as [[| | | |]|].
  - by intros [= <-] ?%elem_of_nil.
  - destruct (ToString value); cbn; [|done]. by intros [= <-] ?%elem_of_nil.
  - destruct (ToString value); cbn; [|done]. by intros [= <-] ?%elem_of_nil.
  - destruct (ToString value); cbn; [|done]. by intros [= <-] ?%elem_of_nil.
  - destruct (ToNumber value) as [numValue|]; cbn; [|done].
    destruct (Num.isNaN numValue); intros [= <-]; cbn.
    + by intros ->%list_elem_of_singleton.
    + by intros ?%elem_of_nil.
  - by intros [= <-] ?%elem_of_nil.
Qed.

(** The loop keeps the errors it is given and appends [number] errors
    only. *)
Lemma applyMappings_appends (skipEmpty : bool) (sourceRecord : Value)
    (mappings : list FieldMapping) (data data' : Data.t)
    (recordErrors recordErrors' : list string) :
  applyMappings skipEmpty sourceRecord mappings data recordErrors
  = Ok (data', recordErrors') →
  ∃ more, recordErrors' = (recordErrors ++ more)%list
          ∧ ∀ e, e ∈ more → ∃ sourceField, e = numberError sourceField.
Proof.
  revert data recordErrors.
  induction mappings as [|mapping rest IH]; intros data recordErrors.
  - intros [= <- <-]. exists []. split; [by rewrite app_nil_r|].
    by intros e ?%elem_of_nil.
  - cbn [applyMappings].
    destruct (Get sourceRecord (sourceField mapping)) as [value|]; [|done].
    cbn [mbind result_bind].
    destruct (isEmptyValue value && skipEmpty); [apply IH|].
    destruct (isPresent value).
    + rewrite applyTransform_errors.
      destruct (applyTransform mapping value []) as [out|] eqn:Hout; [|done].
      cbn.
      destruct (Data.assign data (targetField mapping) out.1) as [d|]; [|done].
      cbn. intros (more & -> & Hmore)%IH.
      exists (out.2 ++ more)%list. split; [by rewrite app_assoc|].
      intros e [He|He]%elem_of_app; [|by apply Hmore].
      eexists. by eapply applyTransform_number_errors.
    + cbn.
      destruct (Data.assign data (targetField mapping) value) as [d|]; [|done].
      cbn. apply IH.
Qed.

(** The record the loop body makes, once the identifier is read, the
    loop over the mappings has returned, and [String] has. *)
Lemma importRecord_returns (validConfig : MappingConfig) (importedAt : string)
    (index : nat) (sourceRecord recordId : Value) (data : Data.t)
    (recordErrors : list string) (id : string) :
  Get sourceRecord (idField validConfig) = Ok recordId →
  applyMappings (skipEmptyFields (options validConfig)) sourceRecord
    (fieldMappings validConfig) Data.empty
    (if isEmptyValue recordId then [missingIdError (idField validConfig)] else [])
  = Ok (data, recordErrors) →
  idString recordId index = Ok id →
  importRecord validConfig importedAt index sourceRecord
  = Ok {| StandardizedRecord.id := id;
          StandardizedRecord.type := targetRepository validConfig;
          StandardizedRecord.data := data;
          StandardizedRecord._meta :=
            {| Meta.sourceIndex := index;
               Meta.importedAt := importedAt;
               Meta.success := bool_decide (length recordErrors = 0);
               Meta.errors :=
                 if bool_decide (0 < length recordErrors) then Some recordErrors
                 else None |} |}.
Proof.
  intros Hid Hloop Hstr. unfold importRecord.
  rewrite Hid. cbn. rewrite Hloop. cbn. by rewrite Hstr.
Qed.

(** A record is made in no other way. *)
Lemma importRecord_inv (validConfig : MappingConfig) (importedAt : string)
    (index : nat) (sourceRecord : Value) (r : StandardizedRecord.t) :
  importRecord validConfig importedAt index sourceRecord = Ok r →
  ∃ recordId data recordErrors id,
    Get sourceRecord (idField validConfig) = Ok recordId
    ∧ applyMappings (skipEmptyFields (options validConfig)) sourceRecord
        (fieldMappings validConfig) Data.empty
        (if isEmptyValue recordId then [missingIdError (idField validConfig)] else [])
      = Ok (data, recordErrors)
    ∧ idString recordId index = Ok id
    ∧ r = {| StandardizedRecord.id := id;
             StandardizedRecord.type := targetRepository validConfig;
             StandardizedRecord.data := data;
             StandardizedRecord._meta :=
               {| Meta.sourceIndex := index;
                  Meta.importedAt := importedAt;
                  Meta.success := bool_decide (length recordErrors = 0);
                  Meta.errors :=
                    if bool_decide (0 < length recordErrors) then Some recordErrors
                    else None |} |}.
Proof.
  unfold importRecord.
  destruct (Get sourceRecord (idField validConfig)) as [recordId|]; [|done].
  cbn.
  destruct (applyMappings _ _ _ _ _) as [[data recordErrors]|] eqn:Hloop; [|done].
  cbn.
  destruct (idString recordId index) as [id|] eqn:Hstr; [|done].
  cbn. intros [= <-]. by eexists _, _, _, _.
Qed.

(** The record made of an object none of whose entries has the target
    field [__proto__], when the conversions return. *)
Lemma importRecord_object (validConfig : MappingConfig) (importedAt : string)
    (index : nat) (properties : Obj.t) (recordId : Value) (id : string) :
  let skipEmpty := skipEmptyFields (options validConfig) in
  Get (VObj properties) (idField validConfig) = Ok recordId →
  "__proto__" ∉ mappedTargetFields validConfig →
  Forall (converts skipEmpty (VObj properties)) (fieldMappings validConfig) →
  idString recordId index = Ok id →
  importRecord validConfig importedAt index (VObj properties)
  = let recordErrors :=
      ((if isEmptyValue recordId then [missingIdError (idField validConfig)] else [])
       ++ reported skipEmpty (VObj properties) (fieldMappings validConfig))%list in
    Ok {| StandardizedRecord.id := id;
          StandardizedRecord.type := targetRepository validConfig;
          StandardizedRecord.data :=
            {| Data.own := written skipEmpty (VObj properties) ∅
                             (fieldMappings validConfig);
               Data.proto := Data.ObjectPrototype |};
          StandardizedRecord._meta :=
            {| Meta.sourceIndex := index;
               Meta.importedAt := importedAt;
               Meta.success := bool_decide (length recordErrors = 0);
               Meta.errors :=
                 if bool_decide (0 < length recordErrors) then Some recordErrors
                 else None |} |}.
Proof.
  intros skipEmpty Hid Hkeys Hall Hstr.
  erewrite importRecord_returns; [done..| |done].
  by rewrite applyMappings_returns.
Qed.

Lemma success_iff_no_error (recordErrors : list string) :
  bool_decide (length recordErrors = 0) = true ↔ recordErrors = [].
Proof. rewrite bool_decide_eq_true. by destruct recordErrors. Qed.

Lemma errors_of_list (recordErrors : list string) :
  (if bool_decide (0 < length recordErrors) then Some recordErrors else None)
  = match recordErrors with [] => None | _ => Some recordErrors end.
Proof.
  destruct recordErrors as [|e l]; [done|].
  rewrite bool_decide_eq_true_2; [done|]. simpl. lia.
Qed.

(** What an entry with the [number] transform produces from a value that
    is no number. *)
Lemma produced_not_a_number (sourceRecord : Value) (mapping : FieldMapping)
    (value : Value) (numValue : number) :
  transform mapping = Some Transform.number →
  Get sourceRecord (sourceField mapping) = Ok value →
  isPresent value = true →
  ToNumber value = Ok numValue →
  Num.isNaN numValue = true →
  produced sourceRecord mapping
  = Ok (VNum Num.zero, [numberError (sourceField mapping)]).
Proof.
  intros Ht Hv Hp Hn Hnan. unfold produced.
  rewrite (rawValue_Get _ _ _ Hv). simpl. rewrite Hp.
  unfold applyTransform. rewrite Ht, Hn. cbn. by rewrite Hnan.
Qed.

(** What it produces from a value that is a number. *)
Lemma produced_number (sourceRecord : Value) (mapping : FieldMapping)
    (value : Value) (numValue : number) :
  transform mapping = Some Transform.number →
  Get sourceRecord (sourceField mapping) = Ok value →
  isPresent value = true →
  ToNumber value = Ok numValue →
  Num.isNaN numValue = false →
  produced sourceRecord mapping = Ok (VNum numValue, []).
Proof.
  intros Ht Hv Hp Hn Hnan. unfold produced.
  rewrite (rawValue_Get _ _ _ Hv). simpl. rewrite Hp.
  unfold applyTransform. rewrite Ht, Hn. cbn. by rewrite Hnan.
Qed.

(** C4.  The specification has an entry with the [number] transform store
    [0] at its target field when its value is no number.  For the target
    field [__proto__] the handler stores nothing: the write reaches the
    setter of [Object.prototype], which ignores a number.  The record
    [{ id: "p1", price: "abc" }] under the entry [price → __proto__] gets
    the error and [success: false], and a [data] without any key. *)
Theorem number_failure_under_proto_is_not_stored :
  ∃ r, importRecord Sample.priceToProto "2026-01-28T12:00:00.000Z" 0
         Sample.priceNotNumeric = Ok r
       ∧ Meta.success (StandardizedRecord._meta r) = false
       ∧ Meta.errors (StandardizedRecord._meta r) = Some [numberError "price"]
       ∧ StandardizedRecord.data r = Data.empty
       ∧ Data.own (StandardizedRecord.data r) !! "__proto__" = None.
Proof. eexists. split; [vm_compute; reflexivity|]. done. Qed.

(** X20. An entry with the [number] transform whose source value is not
    null, is not skipped and does not coerce to a number ([Number] gives
    [NaN], as for ["abc"]) stores [0] at its target field and appends
    exactly one error, which names the source field; the record then has
    [success: false] and carries that error, and [0] stays at the target
    field unless a later entry writes it.  This is for a source record
    that is an object, and field mappings none of which has the target
    field [__proto__] and whose conversions return. *)
Theorem number_transform_failure (validConfig : MappingConfig)
    (importedAt : string) (index : nat) (properties : Obj.t)
    (pre post : list FieldMapping) (mapping : FieldMapping)
    (value recordId : Value) (numValue : number) (id : string) :
  let sourceRecord := VObj properties in
  let skipEmpty := skipEmptyFields (options validConfig) in
  fieldMappings validConfig = (pre ++ mapping :: post)%list →
  "__proto__" ∉ mappedTargetFields validConfig →
  Forall (converts skipEmpty sourceRecord) (fieldMappings validConfig) →
  Get sourceRecord (idField validConfig) = Ok recordId →
  idString recordId index = Ok id →
  transform mapping = Some Transform.number →
  Get sourceRecord (sourceField mapping) = Ok value →
  isPresent value = true →
  isEmptyValue value && skipEmpty = false →
  ToNumber value = Ok numValue →
  Num.isNaN numValue = true →
  (∀ data recordErrors,
     Data.proto data = Data.ObjectPrototype →
     applyMappings skipEmpty sourceRecord (mapping :: post) data recordErrors
     = applyMappings skipEmpty sourceRecord post
         (Data.define data (targetField mapping) (VNum Num.zero))
         (recordErrors
          ++ ["Field " +:+ Str.quoted (sourceField mapping)
              +:+ " could not be converted to number"])%list)
  ∧ ∃ r, importRecord validConfig importedAt index sourceRecord = Ok r
         ∧ Meta.success (StandardizedRecord._meta r) = false
         ∧ (∃ errs, Meta.errors (StandardizedRecord._meta r) = Some errs
                    ∧ numberError (sourceField mapping) ∈ errs)
         ∧ ((∀ m, m ∈ post → targetField m = targetField mapping →
                  skipped skipEmpty sourceRecord m = true) →
            Data.own (StandardizedRecord.data r) !! targetField mapping
            = Some (VNum Num.zero)).
Proof.
  intros sourceRecord skipEmpty Hmaps Hkeys Hall Hid Hstr Ht Hv Hp Hskip Hn Hnan.
  pose proof (produced_not_a_number _ _ _ _ Ht Hv Hp Hn Hnan) as Hprod.
  assert (Hpv : producedValue sourceRecord mapping = VNum Num.zero)
    by (unfold producedValue; by rewrite Hprod).
  assert (Hpe : producedErrors sourceRecord mapping
                = [numberError (sourceField mapping)])
    by (unfold producedErrors; by rewrite Hprod).
  assert (Hs : skipped skipEmpty sourceRecord mapping = false).
  { unfold skipped. by rewrite (rawValue_Get _ _ _ Hv). }
  assert (Hkey : targetField mapping ≠ "__proto__").
  { intros E. apply Hkeys. unfold mappedTargetFields.
    rewrite Hmaps, fmap_app, fmap_cons, E. set_solver. }
  split.
  - intros data recordErrors Hproto.
    unfold sourceRecord. rewrite applyMappings_cons by done.
    fold sourceRecord. by rewrite Hs, Hprod.
  - unfold sourceRecord. rewrite (importRecord_object _ _ _ _ _ _ Hid) by done.
    fold sourceRecord skipEmpty. cbn zeta.
    rewrite Hmaps, reported_app, reported_cons, Hs, Hpe.
    set (errs := (_ ++ (reported skipEmpty sourceRecord pre ++ _))%list).
    assert (Hin : numberError (sourceField mapping) ∈ errs) by (unfold errs; set_solver).
    assert (Hne : errs ≠ []) by (intros E; rewrite E in Hin; by apply elem_of_nil in Hin).
    eexists. split; [done|]. simpl. split; [|split].
    + apply bool_decide_eq_false. by destruct errs.
    + exists errs. split; [|done]. rewrite errors_of_list. by destruct errs.
    + intros Hlater. rewrite written_lookup, filter_app, filter_cons.
      rewrite decide_True by done.
      replace (filter _ post) with (@nil FieldMapping).
      * rewrite last_app. simpl. by rewrite Hpv.
      * symmetry. destruct (filter _ post) as [|m l] eqn:E; [done|].
        assert (Hm : m ∈ filter (λ m, targetField m = targetField mapping
                                     ∧ skipped skipEmpty sourceRecord m = false) post)
          by (rewrite E; apply list_elem_of_here).
        apply list_elem_of_filter in Hm as [[Htm Hsm] Hmp].
        rewrite (Hlater m Hmp Htm) in Hsm. done.
Qed.

Lemma number_transform_failure_witness :
  ∃ r, importRecord (Sample.productImport false) "2026-01-28T12:00:00.000Z" 0
         Sample.priceNotNumeric = Ok r
       ∧ Meta.success (StandardizedRecord._meta r) = false
       ∧ (∃ errs, Meta.errors (StandardizedRecord._meta r) = Some errs
                  ∧ numberError "price" ∈ errs)
       ∧ ((∀ m, m ∈ [] → targetField m = "price" →
                skipped false Sample.priceNotNumeric m = true) →
          Data.own (StandardizedRecord.data r) !! "price" = Some (VNum Num.zero)).
Proof.
  apply (number_transform_failure (Sample.productImport false)
           "2026-01-28T12:00:00.000Z" 0
           [("id", VStr "p1"); ("price", VStr "abc")] []
           [] (Sample.entry "price" "price" (Some Transform.number))
           (VStr "abc") (VStr "p1") NaN "p1");
    try reflexivity.
  - apply (bool_decide_unpack _). vm_compute. reflexivity.
  - repeat constructor. intros _. eexists. vm_compute. reflexivity.
Defined.

(** C5. The [id] of a record comes from [sourceRecord[idField]]; when
    that value is absent, null or the empty string, the [id] is
    ["unknown-<index>"], a missing-identifier error is the first error of
    the record, and [success] is false; [success] is true exactly when the
    record has no error.  This is for every source record, an object, of
    which the handler makes a record: the loop over the field mappings
    returns [data] and [recordErrors], and [String] returns the [id]. *)
Theorem record_id_and_success (validConfig : MappingConfig) (importedAt : string)
    (index : nat) (properties : Obj.t) (recordId : Value)
    (data : Data.t) (recordErrors : list string) (id : string) :
  let sourceRecord := VObj properties in
  Get sourceRecord (idField validConfig) = Ok recordId →
  applyMappings (skipEmptyFields (options validConfig)) sourceRecord
    (fieldMappings validConfig) Data.empty
    (if isEmptyValue recordId then [missingIdError (idField validConfig)] else [])
  = Ok (data, recordErrors) →
  (if ToBoolean recordId then ToString recordId
   else Ok ("unknown-" +:+ Str.ofNat index)) = Ok id →
  ∃ r,
    importRecord validConfig importedAt index sourceRecord = Ok r
    ∧ StandardizedRecord.id r = id
    ∧ StandardizedRecord.data r = data
    ∧ (recordId = VUndefined ∨ recordId = VNull ∨ recordId = VStr EmptyString →
       StandardizedRecord.id r = "unknown-" +:+ Str.ofNat index
       ∧ head recordErrors
         = Some ("Missing ID field " +:+ Str.quoted (idField validConfig))
       ∧ Meta.success (StandardizedRecord._meta r) = false)
    ∧ (Meta.success (StandardizedRecord._meta r) = true ↔ recordErrors = [])
    ∧ Meta.errors (StandardizedRecord._meta r)
      = match recordErrors with [] => None | _ => Some recordErrors end.
Proof.
  intros sourceRecord Hid Hloop Hstr.
  rewrite (importRecord_returns _ _ _ _ _ _ _ _ Hid Hloop Hstr).
  eexists. split; [done|]. cbn. split; [done|]. split; [done|].
  split; [|split].
  - intros Hempty.
    assert (He : isEmptyValue recordId = true) by by destruct Hempty as [-> | [-> | ->]].
    assert (Hf : ToBoolean recordId = false) by by destruct Hempty as [-> | [-> | ->]].
    rewrite He in Hloop. rewrite Hf in Hstr. injection Hstr as <-.
    apply applyMappings_appends in Hloop as (more & -> & _).
    split; [done|]. split; [done|]. by apply bool_decide_eq_false.
  - apply success_iff_no_error.
  - apply errors_of_list.
Qed.

Lemma record_id_and_success_witness :
  ∃ r,
    importRecord (Sample.productImport true) "2026-01-28T12:00:00.000Z" 3
      Sample.idAbsent = Ok r
    ∧ StandardizedRecord.id r = "unknown-3"
    ∧ StandardizedRecord.data r = Data.define Data.empty "price" (VNum (Finite false 7 0))
    ∧ (VUndefined = VUndefined ∨ VUndefined = VNull
       ∨ VUndefined = VStr EmptyString →
       StandardizedRecord.id r = "unknown-" +:+ Str.ofNat 3
       ∧ head [missingIdError "id"]
         = Some ("Missing ID field " +:+ Str.quoted "id")
       ∧ Meta.success (StandardizedRecord._meta r) = false)
    ∧ (Meta.success (StandardizedRecord._meta r) = true ↔ [missingIdError "id"] = [])
    ∧ Meta.errors (StandardizedRecord._meta r) = Some [missingIdError "id"].
Proof.
  apply (record_id_and_success (Sample.productImport true)
           "2026-01-28T12:00:00.000Z" 3 [("price", VStr "7")] VUndefined
           (Data.define Data.empty "price" (VNum (Finite false 7 0)))
           [missingIdError "id"] "unknown-3");
    reflexivity.
Defined.

(** C10. When [sourceRecord[idField]] is falsy without being absent, null
    or the empty string (the number 0, the boolean false), the [id] is
    ["unknown-<index>"] and no missing-identifier error is recorded: the
    errors of the record are those of its field mappings only, so that the
    record has [success: true] when they record none.  This is for every
    source record, an object, over whose field mappings the loop returns
    [data] and [recordErrors]. *)
Theorem falsy_id_gets_placeholder (validConfig : MappingConfig)
    (importedAt : string) (index : nat) (properties : Obj.t) (recordId : Value)
    (data : Data.t) (recordErrors : list string) :
  let sourceRecord := VObj properties in
  Get sourceRecord (idField validConfig) = Ok recordId →
  ToBoolean recordId = false →
  isEmptyValue recordId = false →
  applyMappings (skipEmptyFields (options validConfig)) sourceRecord
    (fieldMappings validConfig) Data.empty [] = Ok (data, recordErrors) →
  ∃ r,
    importRecord validConfig importedAt index sourceRecord = Ok r
    ∧ StandardizedRecord.id r = "unknown-" +:+ Str.ofNat index
    ∧ StandardizedRecord.data r = data
    ∧ (missingIdError (idField validConfig) ∉ recordErrors)
    ∧ Meta.errors (StandardizedRecord._meta r)
      = match recordErrors with [] => None | _ => Some recordErrors end
    ∧ (Meta.success (StandardizedRecord._meta r) = true ↔ recordErrors = []).
Proof.
  intros sourceRecord Hid Hfalsy Hempty Hloop.
  assert (Hstr : idString recordId index = Ok ("unknown-" +:+ Str.ofNat index))
    by (unfold idString; by rewrite Hfalsy).
  rewrite (importRecord_returns _ _ _ _ recordId data recordErrors _ Hid)
    by (by rewrite ?Hempty).
  eexists. split; [done|]. cbn. split; [done|]. split; [done|].
  split; [|split].
  - apply applyMappings_appends in Hloop as (more & -> & Hmore).
    rewrite app_nil_l. intros [sf Hsf]%Hmore.
    symmetry in Hsf. revert Hsf. unfold numberError, missingIdError. simpl.
    discriminate.
  - apply errors_of_list.
  - apply success_iff_no_error.
Qed.

Lemma falsy_id_gets_placeholder_witness :
  ∃ r, importRecord (Sample.productImport true) "2026-01-28T12:00:00.000Z" 0
         Sample.idZero = Ok r
       ∧ StandardizedRecord.id r = "unknown-0"
       ∧ StandardizedRecord.data r
         = Data.define Data.empty "price" (VNum (Finite false 7 0))
       ∧ (missingIdError "id" ∉ [])
       ∧ Meta.errors (StandardizedRecord._meta r) = None
       ∧ (Meta.success (StandardizedRecord._meta r) = true ↔ @nil string = []).
Proof.
  apply (falsy_id_gets_placeholder (Sample.productImport true)
           "2026-01-28T12:00:00.000Z" 0
           [("id", VNum Num.zero); ("price", VStr "7")] (VNum Num.zero)
           (Data.define Data.empty "price" (VNum (Finite false 7 0))) []);
    reflexivity.
Defined.

(** C9.  The specification has an entry with the [number] transform that
    reads the empty string, without [skipEmptyFields], store [0] at its
    target field.  For the target field [__proto__] the handler stores
    nothing, as in C4: the record [{ id: "p1", price: "" }] under the
    entry [price → __proto__] has no error and [success: true], and a
    [data] without any key. *)
Theorem empty_number_under_proto_is_not_stored :
  ∃ r, importRecord Sample.priceToProto "2026-01-28T12:00:00.000Z" 0
         Sample.priceEmpty = Ok r
       ∧ Meta.success (StandardizedRecord._meta r) = true
       ∧ Meta.errors (StandardizedRecord._meta r) = None
       ∧ StandardizedRecord.data r = Data.empty
       ∧ Data.own (StandardizedRecord.data r) !! "__proto__" = None.
Proof. eexists. split; [vm_compute; reflexivity|]. done. Qed.

(** X21. Without [skipEmptyFields], an entry with the [number] transform
    that reads the empty string stores [0] and records no error
    ([Number('')] is [0], not [NaN]); a record whose identifier is present
    and whose only entry is of that kind has [success: true].  This is for
    a source record that is an object and a target field other than
    [__proto__]. *)
Theorem empty_string_number_is_zero (properties : Obj.t)
    (mapping : FieldMapping) :
  let sourceRecord := VObj properties in
  transform mapping = Some Transform.number →
  targetField mapping ≠ "__proto__" →
  Get sourceRecord (sourceField mapping) = Ok (VStr EmptyString) →
  (∀ rest data recordErrors,
     Data.proto data = Data.ObjectPrototype →
     applyMappings false sourceRecord (mapping :: rest) data recordErrors
     = applyMappings false sourceRecord rest
         (Data.define data (targetField mapping) (VNum Num.zero)) recordErrors)
  ∧ (∀ validConfig importedAt index recordId id,
       skipEmptyFields (options validConfig) = false →
       fieldMappings validConfig = [mapping] →
       Get sourceRecord (idField validConfig) = Ok recordId →
       isEmptyValue recordId = false →
       idString recordId index = Ok id →
       ∃ r, importRecord validConfig importedAt index sourceRecord = Ok r
            ∧ StandardizedRecord.data r
              = Data.define Data.empty (targetField mapping) (VNum Num.zero)
            ∧ Meta.errors (StandardizedRecord._meta r) = None
            ∧ Meta.success (StandardizedRecord._meta r) = true).
Proof.
  intros sourceRecord Ht Hkey Hv.
  pose proof (produced_number _ _ _ _ Ht Hv eq_refl eq_refl eq_refl) as Hprod.
  assert (Hs : skipped false sourceRecord mapping = false).
  { unfold skipped. by rewrite andb_false_r. }
  assert (Hstep : ∀ rest data recordErrors,
     Data.proto data = Data.ObjectPrototype →
     applyMappings false sourceRecord (mapping :: rest) data recordErrors
     = applyMappings false sourceRecord rest
         (Data.define data (targetField mapping) (VNum Num.zero)) recordErrors).
  { intros rest data recordErrors Hproto.
    unfold sourceRecord. rewrite applyMappings_cons by done.
    fold sourceRecord. rewrite Hs, Hprod. cbn. by rewrite app_nil_r. }
  split; [done|].
  intros validConfig importedAt index recordId id Hskip Hmaps Hid Hempty Hstr.
  rewrite (importRecord_returns _ _ _ _ recordId
             (Data.define Data.empty (targetField mapping) (VNum Num.zero)) [] id Hid).
  - eexists. split; [done|]. by cbn.
  - rewrite Hskip, Hmaps, Hempty. by rewrite Hstep.
  - done.
Qed.

Lemma empty_string_number_is_zero_witness :
  ∃ r, importRecord (Sample.productImport false) "2026-01-28T12:00:00.000Z" 0
         Sample.priceEmpty = Ok r
       ∧ StandardizedRecord.data r
         = Data.define Data.empty "price" (VNum Num.zero)
       ∧ Meta.errors (StandardizedRecord._meta r) = None
       ∧ Meta.success (StandardizedRecord._meta r) = true.
Proof.
  destruct (empty_string_number_is_zero
              [("id", VStr "p1"); ("price", VStr EmptyString)]
              (Sample.entry "price" "price" (Some Transform.number))
              eq_refl) as [_ Hrecord]; [discriminate | reflexivity |].
  apply (Hrecord (Sample.productImport false) "2026-01-28T12:00:00.000Z" 0
           (VStr "p1") "p1"); reflexivity.
Defined.

(** ** The JSON strategy of the parser *)

Lemma inherited_no_array (key : string) (l : list Value) : inherited key ≠ VArr l.
Proof. unfold inherited. case_decide; [done|]. by case_bool_decide. Qed.

(** A key that holds no array is passed over. *)
Lemma firstArrayProperty_step (properties : Obj.t) (k : string) (rest : list string) :
  (∀ l, Obj.lookup properties k ≠ Some (VArr l)) →
  firstArrayProperty (VObj properties) (k :: rest)
  = firstArrayProperty (VObj properties) rest.
Proof.
  intros Hk. cbn.
  destruct (Obj.lookup properties k) as [v|]; cbn.
  - destruct v; try done. by destruct (Hk elements).
  - destruct (inherited k) eqn:E; try done. by apply inherited_no_array in E.
Qed.

Lemma firstArrayProperty_found (properties : Obj.t)
    (before : list string) (key : string) (after : list string)
    (elements : list Value) :
  Obj.lookup properties key = Some (VArr elements) →
  (∀ k, k ∈ before → ∀ l, Obj.lookup properties k ≠ Some (VArr l)) →
  firstArrayProperty (VObj properties) (before ++ key :: after) = Ok (Some elements).
Proof.
  intros Hkey. induction before as [|k before IH]; intros Hbefore.
  - cbn. by rewrite Hkey.
  - rewrite <- app_comm_cons, firstArrayProperty_step by (apply Hbefore; set_solver).
    apply IH. intros; apply Hbefore; set_solver.
Qed.

Lemma firstArrayProperty_none (properties : Obj.t) (keys : list string) :
  (∀ k, k ∈ keys → ∀ l, Obj.lookup properties k ≠ Some (VArr l)) →
  firstArrayProperty (VObj properties) keys = Ok None.
Proof.
  induction keys as [|k keys IH]; intros Hkeys; [done|].
  rewrite firstArrayProperty_step by (apply Hkeys; set_solver).
  apply IH. intros; apply Hkeys; set_solver.
Qed.

(** C7. For a text that [JSON.parse] reads as an object, the JSON
    strategy goes through the keys of the object in enumeration order and
    returns the array of the first key that holds one; if no key holds an
    array it returns the object alone in a sequence; and the object of
    [{"meta":{}, "items":[{"id":1}]}] gives the sequence [[{"id":1}]]. *)
Theorem json_object_first_array (JSON_parse : string → result Value)
    (text : string) (properties : list (string * Value)) :
  JSON_parse text = Ok (VObj properties) →
  (∀ before key after elements,
     Obj.ownKeys properties = (before ++ key :: after)%list →
     Obj.lookup properties key = Some (VArr elements) →
     (∀ k, k ∈ before → ∀ l, Obj.lookup properties k ≠ Some (VArr l)) →
     parseSourceFile JSON_parse text "json" = Ok elements)
  ∧ ((∀ k, k ∈ Obj.ownKeys properties →
           ∀ l, Obj.lookup properties k ≠ Some (VArr l)) →
     parseSourceFile JSON_parse text "json" = Ok [VObj properties])
  ∧ (properties = [("meta", VObj []); ("items", VArr [VObj [("id", VNum Num.one)]])] →
     parseSourceFile JSON_parse text "json" = Ok [VObj [("id", VNum Num.one)]]).
Proof.
  intros Hparse.
  assert (Hfound : ∀ before key after elements,
    Obj.ownKeys properties = (before ++ key :: after)%list →
    Obj.lookup properties key = Some (VArr elements) →
    (∀ k, k ∈ before → ∀ l, Obj.lookup properties k ≠ Some (VArr l)) →
    parseSourceFile JSON_parse text "json" = Ok elements).
  { intros before key after elements Hkeys Hkey Hbefore.
    unfold parseSourceFile, parseJSON. simpl. rewrite Hparse. simpl.
    rewrite Hkeys. by rewrite (firstArrayProperty_found _ _ _ _ _ Hkey Hbefore). }
  split; [done|]. split.
  - intros Hnone. unfold parseSourceFile, parseJSON. simpl. rewrite Hparse. simpl.
    by rewrite (firstArrayProperty_none _ _ Hnone).
  - intros ->. apply (Hfound ["meta"] "items" []); [done|done|].
    intros k ->%list_elem_of_singleton l. done.
Qed.

Lemma json_object_first_array_witness :
  parseSourceFile Reference.JSON_parse Sample.wrapperText "json"
  = Ok [VObj [("id", VNum Num.one)]].
Proof.
  destruct (json_object_first_array Reference.JSON_parse Sample.wrapperText
              Sample.wrapper eq_refl) as (_ & _ & Hexample).
  by apply Hexample.
Defined.

(** ** Two runs of the import *)

Lemma importRecord_stamp (validConfig : MappingConfig) (t1 t2 : string)
    (index : nat) (sourceRecord : Value) :
  importRecord validConfig t2 index sourceRecord
  = stampRecord t2 <$> importRecord validConfig t1 index sourceRecord.
Proof.
  unfold importRecord.
  destruct (Get sourceRecord (idField validConfig)) as [recordId|]; [|done].
  cbn. destruct (applyMappings _ _ _ _ _) as [[data recordErrors]|]; [|done].
  cbn. by destruct (idString recordId index).
Qed.

Lemma importRecords_stamp (validConfig : MappingConfig) (t1 t2 : string)
    (index : nat) (sourceRecords : list Value) :
  importRecords validConfig t2 index sourceRecords
  = map (stampRecord t2) <$> importRecords validConfig t1 index sourceRecords.
Proof.
  revert index. induction sourceRecords as [|sourceRecord rest IH]; intros index.
  - done.
  - simpl. rewrite (importRecord_stamp _ t1 t2), IH.
    destruct (importRecord validConfig t1 index sourceRecord); [|done]. simpl.
    by destruct (importRecords validConfig t1 (S index) rest).
Qed.

Lemma successCount_stamp (importedAt : string) (records : list StandardizedRecord.t) :
  successCount (map (stampRecord importedAt) records) = successCount records.
Proof.
  unfold successCount. induction records as [|r records IH]; [done|].
  simpl. rewrite !filter_cons. simpl.
  destruct (decide _); simpl; by rewrite IH.
Qed.

(** What [JSON.stringify] meets in the records does not depend on the
    time stamp. *)
Lemma stringifyThrows_stamp (toJSONThrows : string → Data.t → bool)
    (importedAt : string) (records : list StandardizedRecord.t) :
  existsb (λ r, Data.stringifyThrows toJSONThrows (StandardizedRecord.data r))
          (map (stampRecord importedAt) records)
  = existsb (λ r, Data.stringifyThrows toJSONThrows (StandardizedRecord.data r))
            records.
Proof. induction records as [|r records IH]; [done|]. simpl. by rewrite IH. Qed.

Lemma importSource_stamp (JSON_parse : string → result Value)
    (toJSONThrows : string → Data.t → bool) (t1 t2 : string)
    (validConfig : MappingConfig) (sourceFile : string) :
  importSource JSON_parse toJSONThrows t2 validConfig sourceFile
  = stampResponse t2 (importSource JSON_parse toJSONThrows t1 validConfig sourceFile).
Proof.
  unfold importSource.
  destruct (parseSourceFile _ _ _) as [sourceRecords|]; [|done].
  case_bool_decide; [done|].
  rewrite (importRecords_stamp _ t1 t2).
  destruct (importRecords validConfig t1 0 sourceRecords) as [records|]; [|done].
  cbn. rewrite stringifyThrows_stamp.
  destruct (existsb _ records); [done|].
  unfold stampResponse, Response.imported. simpl.
  by rewrite successCount_stamp.
Qed.

Lemma stampResponse_stamp (t t' : string) (response : Response.t) :
  stampResponse t (stampResponse t' response) = stampResponse t response.
Proof.
  unfold stampResponse. simpl. f_equal.
  - by destruct (Response.summary response).
  - destruct (Response.records response) as [records|]; [|done]. simpl.
    f_equal. rewrite map_map. apply map_ext. by intros [].
Qed.

(** C8. Two runs of the handler on the same configuration and source
    differ by the time stamp alone: the response of a run is that of any
    other run with its [importedAt] fields replaced, so that with the time
    stamps made equal the two responses, and their records, are equal.
    This holds from the validated configuration and from the request
    body. *)
Theorem import_is_deterministic (JSON_parse : string → result Value)
    (toJSONThrows : string → Data.t → bool)
    (safeParse : Value → SafeParse) (t1 t2 : string)
    (validConfig : MappingConfig) (sourceFile : string) (body : Value) :
  executeConfig JSON_parse toJSONThrows t2 validConfig sourceFile
  = stampResponse t2 (executeConfig JSON_parse toJSONThrows t1 validConfig sourceFile)
  ∧ (∀ t, stampResponse t
            (executeConfig JSON_parse toJSONThrows t1 validConfig sourceFile)
          = stampResponse t
              (executeConfig JSON_parse toJSONThrows t2 validConfig sourceFile))
  ∧ POST_execute_config JSON_parse toJSONThrows safeParse t2 body
    = stampResponse t2 (POST_execute_config JSON_parse toJSONThrows safeParse t1 body)
  ∧ (∀ t, stampResponse t
            (POST_execute_config JSON_parse toJSONThrows safeParse t1 body)
          = stampResponse t
              (POST_execute_config JSON_parse toJSONThrows safeParse t2 body)).
Proof.
  assert (Hexec : ∀ config text,
    executeConfig JSON_parse toJSONThrows t2 config text
    = stampResponse t2 (executeConfig JSON_parse toJSONThrows t1 config text)).
  { intros config text. unfold executeConfig.
    destruct (_ && _); [done|]. apply importSource_stamp. }
  assert (Hpost : POST_execute_config JSON_parse toJSONThrows safeParse t2 body
    = stampResponse t2 (POST_execute_config JSON_parse toJSONThrows safeParse t1 body)).
  { unfold POST_execute_config.
    destruct (_ ≫= _) as [[config sourceFile']|]; [|done].
    destruct (negb (ToBoolean config)); [done|].
    destruct sourceFile'; try done.
    destruct (negb _); [done|].
    destruct (safeParse config); [apply Hexec|done]. }
  split; [apply Hexec|]. split; [|split; [done|]].
  - intros t. by rewrite Hexec, stampResponse_stamp.
  - intros t. by rewrite Hpost, stampResponse_stamp.
Qed.

(** ** The summary *)

Lemma importRecords_length (validConfig : MappingConfig) (importedAt : string)
    (index : nat) (sourceRecords : list Value) (records : list StandardizedRecord.t) :
  importRecords validConfig importedAt index sourceRecords = Ok records →
  length records = length sourceRecords.
Proof.
  revert index records.
  induction sourceRecords as [|sourceRecord rest IH]; intros index records; simpl.
  - by intros [= <-].
  - destruct (importRecord _ _ _ _) as [r|]; [|done]. simpl.
    destruct (importRecords _ _ _ rest) as [rs|] eqn:E; [|done]. simpl.
    intros [= <-]. simpl. f_equal. by eapply IH.
Qed.

Lemma successCount_le (records : list StandardizedRecord.t) :
  (successCount records ≤ length records)%nat.
Proof. unfold successCount. apply length_filter. Qed.

(** The counts of a summary add up to the number of source records. *)
Lemma summary_counts (JSON_parse : string → result Value)
    (toJSONThrows : string → Data.t → bool) (importedAt : string)
    (validConfig : MappingConfig) (sourceFile : string) (s : Summary.t) :
  Response.summary
    (executeConfig JSON_parse toJSONThrows importedAt validConfig sourceFile)
  = Some s →
  (Summary.successfulImports s + Summary.failedImports s = Summary.totalRecords s)%nat.
Proof.
  unfold executeConfig, importSource.
  destruct (_ && _); [done|].
  destruct (parseSourceFile _ _ _) as [sourceRecords|]; [|done].
  case_bool_decide; [done|].
  destruct (importRecords _ _ _ _) as [records|] eqn:E; [|done].
  destruct (existsb _ records); [done|].
  simpl. intros [= <-]. simpl.
  pose proof (importRecords_length _ _ _ _ _ E).
  pose proof (successCount_le records). lia.
Qed.

(** A request without a configuration is refused before the schema. *)
Example request_without_config :
  POST_execute_config Reference.JSON_parse Reference.toJSONThrows
    Reference.rejectAll "2026-01-28T12:00:00.000Z" (VObj [("sourceFile", VStr Sample.twoUsers)])
  = Response.failure 400 "config is required".
Proof. reflexivity. Qed.

(** * Further properties *)

(** ** Objects *)

Lemma Obj_lookup_set (o : Obj.t) (key : string) (v : Value) :
  Obj.lookup (Obj.set o key v) key = Some v.
Proof.
  induction o as [|[k w] o IH]; simpl.
  - by rewrite decide_True.
  - destruct (decide (k = key)) as [->|Hne]; simpl.
    + by rewrite decide_True.
    + by rewrite decide_False.
Qed.

Lemma Obj_lookup_set_ne (o : Obj.t) (key key' : string) (v : Value) :
  key ≠ key' → Obj.lookup (Obj.set o key v) key' = Obj.lookup o key'.
Proof.
  intros Hne. induction o as [|[k w] o IH]; simpl.
  - by rewrite decide_False.
  - destruct (decide (k = key)) as [->|Hk]; simpl.
    + by rewrite !decide_False.
    + destruct (decide (k = key')); [done|]. apply IH.
Qed.

Lemma Obj_lookup_assignCell (record : Obj.t) (header cell : string) :
  header ≠ "__proto__" →
  Obj.lookup (assignCell record header cell) header = Some (VStr cell).
Proof.
  intros Hne. unfold assignCell. rewrite decide_False by done.
  apply Obj_lookup_set.
Qed.

Lemma Obj_lookup_assignCell_ne (record : Obj.t) (header cell key : string) :
  header ≠ key →
  Obj.lookup (assignCell record header cell) key = Obj.lookup record key.
Proof.
  intros Hne. unfold assignCell. case_decide; [done|].
  by apply Obj_lookup_set_ne.
Qed.

(** No cell is stored under [__proto__]. *)
Lemma Obj_lookup_assignCell_proto (record : Obj.t) (header cell : string) :
  Obj.lookup (assignCell record header cell) "__proto__"
  = Obj.lookup record "__proto__".
Proof.
  unfold assignCell. case_decide as Hh; [done|]. by apply Obj_lookup_set_ne.
Qed.

(** ** The CSV strategy *)

Lemma split_length (c : ascii) (s : string) :
  length (Str.split c s) = S (occurrences c s).
Proof.
  induction s as [|a r IH]; [done|]. simpl.
  destruct (decide (a = c)); simpl; [by rewrite IH|].
  destruct (Str.split c r); simpl in *; lia.
Qed.

Lemma parseCSV_count (csvString : string) :
  length (parseCSV csvString) = occurrences "010"%char (Str.trim csvString).
Proof.
  unfold parseCSV.
  pose proof (split_length "010"%char (Str.trim csvString)) as Hlen.
  destruct (Str.split "010"%char (Str.trim csvString)) as [|header lines];
    [done|].
  simpl in Hlen. injection Hlen as Hlen.
  case_bool_decide as Hshort; simpl in *.
  - simpl. lia.
  - by rewrite length_map.
Qed.

(** X1. [parseCSV] gives one record for each line break of the trimmed
    text, blank lines counted: none for an empty text, for blanks alone and
    for a header row alone. *)
Theorem parseCSV_length (csvString : string) :
  length (parseCSV csvString) = occurrences "010"%char (Str.trim csvString).
Proof.
  unfold parseCSV.
  pose proof (split_length "010"%char (Str.trim csvString)) as Hlen.
  destruct (Str.split "010"%char (Str.trim csvString)) as [|header lines];
    [done|].
  simpl in Hlen. injection Hlen as Hlen.
  case_bool_decide as Hshort; simpl in *.
  - simpl. lia.
  - by rewrite length_map.
Qed.

(** What the loop over the headers leaves at a name that is no header. *)
Lemma forEachHeader_other (headers : list string) (idx : nat)
    (values : list string) (record : Obj.t) (h : string) :
  h ∉ headers →
  Obj.lookup (forEachHeader headers idx values record) h = Obj.lookup record h.
Proof.
  revert idx record.
  induction headers as [|h0 headers IH]; intros idx record Hh; [done|].
  apply not_elem_of_cons in Hh as [Hne Hh]. simpl.
  rewrite IH by done. by apply Obj_lookup_assignCell_ne.
Qed.

(** What it leaves at [__proto__]. *)
Lemma forEachHeader_proto (headers : list string) (idx : nat)
    (values : list string) (record : Obj.t) :
  Obj.lookup (forEachHeader headers idx values record) "__proto__"
  = Obj.lookup record "__proto__".
Proof.
  revert idx record.
  induction headers as [|h0 headers IH]; intros idx record; [done|].
  simpl. rewrite IH. apply Obj_lookup_assignCell_proto.
Qed.

(** What it leaves at a header: the cell under its last column. *)
Lemma forEachHeader_last (headers : list string) (idx : nat)
    (values : list string) (record : Obj.t) (i : nat) (h : string) :
  headers !! i = Some h →
  h ≠ "__proto__" →
  (∀ j, i < j → headers !! j ≠ Some h) →
  Obj.lookup (forEachHeader headers idx values record) h
  = Some (VStr (default EmptyString (values !! (idx + i)))).
Proof.
  revert idx record i.
  induction headers as [|h0 headers IH]; intros idx record i Hi Hh Hlast; [done|].
  destruct i as [|i]; simpl in *.
  - injection Hi as ->.
    rewrite forEachHeader_other, Obj_lookup_assignCell, Nat.add_0_r; [done..|].
    intros [j Hj]%list_elem_of_lookup.
    apply (Hlast (S j)); [lia|done].
  - replace (idx + S i) with (S idx + i) by lia.
    apply IH; [done..|].
    intros j Hj. apply (Hlast (S j)). lia.
Qed.

Lemma forEachHeader_keys (headers : list string) (idx : nat)
    (values : list string) (record : Obj.t) (h : string) :
  is_Some (Obj.lookup (forEachHeader headers idx values record) h)
  ↔ (h ∈ headers ∧ h ≠ "__proto__") ∨ is_Some (Obj.lookup record h).
Proof.
  destruct (decide (h = "__proto__")) as [->|Hh].
  - rewrite forEachHeader_proto. split; [by right|]. by intros [[_ ?]|?].
  - destruct (decide (h ∈ headers)) as [Hin|Hout].
    + apply list_elem_of_lookup in Hin as [i Hi].
      assert (Hex : ∃ i, headers !! i = Some h
                         ∧ ∀ j, i < j → headers !! j ≠ Some h).
      { clear Hh. revert i Hi.
        induction headers as [|h0 headers IH] using rev_ind; intros i Hi; [done|].
        destruct (decide (h0 = h)) as [->|Hne].
        - exists (length headers). split.
          + by rewrite lookup_app_r, Nat.sub_diag by lia.
          + intros j Hj Hjh. apply lookup_lt_Some in Hjh.
            rewrite length_app in Hjh. simpl in Hjh. lia.
        - assert (Hi' : headers !! i = Some h).
          { apply lookup_lt_Some in Hi as Hlt. rewrite length_app in Hlt.
            simpl in Hlt.
            destruct (decide (i < length headers)) as [Hlt'|Hge].
            - by rewrite lookup_app_l in Hi.
            - rewrite lookup_app_r in Hi by lia.
              replace (i - length headers) with 0 in Hi by lia.
              simpl in Hi. congruence. }
          destruct (IH i Hi') as (i0 & Hi0 & Hlast).
          exists i0. split.
          + apply lookup_lt_Some in Hi0 as Hlt. by rewrite lookup_app_l.
          + intros j Hj Hjh.
            destruct (decide (j < length headers)) as [Hlt|Hge].
            * rewrite lookup_app_l in Hjh by done. by apply (Hlast j).
            * rewrite lookup_app_r in Hjh by lia.
              destruct (j - length headers); simpl in Hjh; [congruence|done]. }
      destruct Hex as (i0 & Hi0 & Hlast).
      rewrite (forEachHeader_last _ _ _ _ i0 h) by done.
      split; [intros _; left|]; eauto.
      split; [by apply list_elem_of_lookup_2 in Hi0|done].
    + rewrite forEachHeader_other by done. split; [by right|].
      by intros [[? _]|?].
Qed.

(** The fields of the records are strings. *)
Lemma forEachHeader_strings (headers : list string) (idx : nat)
    (values : list string) (record : Obj.t) (h : string) (v : Value) :
  (∀ h v, Obj.lookup record h = Some v → ∃ s, v = VStr s) →
  Obj.lookup (forEachHeader headers idx values record) h = Some v →
  ∃ s, v = VStr s.
Proof.
  revert idx record.
  induction headers as [|h0 headers IH]; intros idx record Hrecord; simpl;
    [apply Hrecord|].
  apply IH. intros h' v'.
  destruct (decide (h0 = h')) as [<-|Hne].
  - unfold assignCell. case_decide; [apply Hrecord|].
    rewrite Obj_lookup_set. intros [= <-]. eauto.
  - rewrite Obj_lookup_assignCell_ne by done. apply Hrecord.
Qed.

(** The fields of the record made of a line. *)
Lemma parseCSV_fields (csvString : string) (k : nat) (r : Value) :
  parseCSV csvString !! k = Some r →
  ∃ header line properties,
    csvLines csvString !! 0 = Some header
    ∧ csvLines csvString !! S k = Some line
    ∧ r = VObj properties
    ∧ (∀ h, is_Some (Obj.lookup properties h)
            ↔ h ∈ csvCells header ∧ h ≠ "__proto__")
    ∧ (∀ i h, csvCells header !! i = Some h →
              h ≠ "__proto__" →
              (∀ j, i < j → csvCells header !! j ≠ Some h) →
              Obj.lookup properties h
              = Some (VStr (default EmptyString (csvCells line !! i)))).
Proof.
  unfold parseCSV, csvLines, csvCells.
  destruct (Str.split "010"%char (Str.trim csvString)) as [|header lines];
    [done|].
  case_bool_decide; [done|]. simpl.
  rewrite list_lookup_fmap.
  destruct (lines !! k) as [line|] eqn:Hline; [|done].
  simpl. intros [= <-].
  exists header, line, (forEachHeader (map Str.trim (Str.split ","%char header)) 0
                          (map Str.trim (Str.split ","%char line)) []).
  split; [done|]. split; [done|]. split; [done|]. split.
  - intros h. rewrite forEachHeader_keys. simpl.
    split; [intros [?|[? ?]]; done|by left].
  - intros i h Hi Hh Hlast. by rewrite (forEachHeader_last _ 0 _ _ i h Hi Hh Hlast).
Qed.

(** X2. The record [parseCSV] makes of a line has the trimmed names of
    the header row as its fields, the name [__proto__] apart, and no
    other; each field holds a string, the trimmed cell of the line under
    the last column of that name, and the empty string when the line has
    no such cell.  Under the name [__proto__] nothing is stored. *)
Theorem parseCSV_record (csvString : string) (k : nat) (r : Value) :
  parseCSV csvString !! k = Some r →
  ∃ header line properties,
    csvLines csvString !! 0 = Some header
    ∧ csvLines csvString !! S k = Some line
    ∧ r = VObj properties
    ∧ (∀ h, is_Some (Obj.lookup properties h)
            ↔ h ∈ csvCells header ∧ h ≠ "__proto__")
    ∧ (∀ i h, csvCells header !! i = Some h →
              h ≠ "__proto__" →
              (∀ j, i < j → csvCells header !! j ≠ Some h) →
              Obj.lookup properties h
              = Some (VStr (default EmptyString (csvCells line !! i)))).
Proof.
  unfold parseCSV, csvLines, csvCells.
  destruct (Str.split "010"%char (Str.trim csvString)) as [|header lines];
    [done|].
  case_bool_decide; [done|]. simpl.
  rewrite list_lookup_fmap.
  destruct (lines !! k) as [line|] eqn:Hline; [|done].
  simpl. intros [= <-].
  exists header, line, (forEachHeader (map Str.trim (Str.split ","%char header)) 0
                          (map Str.trim (Str.split ","%char line)) []).
  split; [done|]. split; [done|]. split; [done|]. split.
  - intros h. rewrite forEachHeader_keys. simpl.
    split; [intros [?|[? ?]]; done|by left].
  - intros i h Hi Hh Hlast. by rewrite (forEachHeader_last _ 0 _ _ i h Hi Hh Hlast).
Qed.

Lemma parseCSV_record_witness :
  ∃ header line properties,
    csvLines Sample2.protoHeader !! 0 = Some header
    ∧ csvLines Sample2.protoHeader !! 1 = Some line
    ∧ VObj [("b", VStr "y")] = VObj properties
    ∧ (∀ h, is_Some (Obj.lookup properties h)
            ↔ h ∈ csvCells header ∧ h ≠ "__proto__")
    ∧ (∀ i h, csvCells header !! i = Some h →
              h ≠ "__proto__" →
              (∀ j, i < j → csvCells header !! j ≠ Some h) →
              Obj.lookup properties h
              = Some (VStr (default EmptyString (csvCells line !! i)))).
Proof.
  apply (parseCSV_record Sample2.protoHeader 0). reflexivity.
Defined.

(** ** The loop over the source records *)

Lemma importRecord_absent (validConfig : MappingConfig) (importedAt : string)
    (index : nat) (sourceRecord : Value) :
  isPresent sourceRecord = false →
  ∃ e, importRecord validConfig importedAt index sourceRecord = Throw e.
Proof. destruct sourceRecord; try done; intros _; cbn; eauto. Qed.

(** The loop returns for no source that holds a null record. *)
Lemma importRecords_present (validConfig : MappingConfig) (importedAt : string)
    (index : nat) (sourceRecords : list Value)
    (records : list StandardizedRecord.t) :
  importRecords validConfig importedAt index sourceRecords = Ok records →
  ∀ sourceRecord, sourceRecord ∈ sourceRecords → isPresent sourceRecord = true.
Proof.
  revert index records.
  induction sourceRecords as [|first rest IH]; intros index records;
    [by intros _ ? ?%elem_of_nil|].
  cbn. destruct (importRecord _ _ index first) as [r|] eqn:Hr; [|done]. cbn.
  destruct (importRecords _ _ (S index) rest) as [rs|] eqn:Hrs; [|done].
  intros _ sourceRecord [->|Hin]%elem_of_cons; [|by eapply IH].
  destruct (isPresent first) eqn:Hp; [done|].
  destruct (importRecord_absent validConfig importedAt index _ Hp) as [e He].
  congruence.
Qed.

Lemma importRecords_lookup (validConfig : MappingConfig) (importedAt : string)
    (index : nat) (sourceRecords : list Value)
    (records : list StandardizedRecord.t) (i : nat) (sourceRecord : Value) :
  importRecords validConfig importedAt index sourceRecords = Ok records →
  sourceRecords !! i = Some sourceRecord →
  ∃ r, records !! i = Some r
       ∧ importRecord validConfig importedAt (index + i) sourceRecord = Ok r.
Proof.
  revert index records i.
  induction sourceRecords as [|first rest IH]; intros index records i; [done|].
  simpl. destruct (importRecord _ _ index first) as [r|] eqn:Hr; [|done]. simpl.
  destruct (importRecords _ _ (S index) rest) as [rs|] eqn:Hrs; [|done]. simpl.
  intros [= <-]. destruct i as [|i]; simpl.
  - intros [= <-]. exists r. by rewrite Nat.add_0_r.
  - intros Hi. destruct (IH _ _ _ Hrs Hi) as (r' & Hr' & Himp).
    exists r'. split; [done|]. by replace (index + S i) with (S index + i) by lia.
Qed.

Lemma importRecord_meta (validConfig : MappingConfig) (importedAt : string)
    (index : nat) (sourceRecord : Value) (r : StandardizedRecord.t) :
  importRecord validConfig importedAt index sourceRecord = Ok r →
  Meta.sourceIndex (StandardizedRecord._meta r) = index
  ∧ Meta.importedAt (StandardizedRecord._meta r) = importedAt
  ∧ StandardizedRecord.type r = targetRepository validConfig.
Proof.
  intros (recordId & data & recordErrors & id & _ & _ & _ & ->)%importRecord_inv.
  done.
Qed.

(** X3. The records of a response follow the source records one for one
    and in order: the record at a position is the import of the source
    record at that position alone, and it carries that position as
    [sourceIndex], the target repository as [type], and the time stamp of
    the run. *)
Theorem records_follow_source (JSON_parse : string → result Value)
    (toJSONThrows : string → Data.t → bool)
    (importedAt : string) (validConfig : MappingConfig) (sourceFile : string)
    (records : list StandardizedRecord.t) :
  Response.records
    (executeConfig JSON_parse toJSONThrows importedAt validConfig sourceFile)
  = Some records →
  ∃ sourceRecords,
    parseSourceFile JSON_parse sourceFile (SourceType.name (sourceType validConfig))
    = Ok sourceRecords
    ∧ length records = length sourceRecords
    ∧ ∀ i sourceRecord,
        sourceRecords !! i = Some sourceRecord →
        ∃ r, records !! i = Some r
             ∧ importRecord validConfig importedAt i sourceRecord = Ok r
             ∧ Meta.sourceIndex (StandardizedRecord._meta r) = i
             ∧ Meta.importedAt (StandardizedRecord._meta r) = importedAt
             ∧ StandardizedRecord.type r = targetRepository validConfig.
Proof.
  unfold executeConfig, importSource.
  destruct (_ && _); [done|].
  destruct (parseSourceFile _ _ _) as [sourceRecords|]; [|done].
  case_bool_decide as Hempty.
  - simpl. intros [= <-]. exists sourceRecords. split; [done|].
    destruct sourceRecords; [|done]. split; [done|]. by intros.
  - destruct (importRecords _ _ _ _) as [rs|] eqn:E; [|done].
    destruct (existsb _ rs); [done|].
    simpl. intros [= <-]. exists sourceRecords. split; [done|].
    split; [by eapply importRecords_length|].
    intros i sourceRecord Hi.
    destruct (importRecords_lookup _ _ _ _ _ _ _ E Hi) as (r & Hr & Himp).
    simpl in Himp. exists r. split; [done|]. split; [done|].
    by apply importRecord_meta in Himp.
Qed.

Lemma records_follow_source_witness :
  ∃ sourceRecords,
    parseSourceFile Reference.JSON_parse Sample.twoUsers
      (SourceType.name (sourceType (Sample.userImport true)))
    = Ok sourceRecords
    ∧ length (default [] (Response.records
                (executeConfig Reference.JSON_parse Reference.toJSONThrows
                   "2026-01-28T12:00:00.000Z"
                   (Sample.userImport true) Sample.twoUsers)))
      = length sourceRecords
    ∧ ∀ i sourceRecord,
        sourceRecords !! i = Some sourceRecord →
        ∃ r, default [] (Response.records
               (executeConfig Reference.JSON_parse Reference.toJSONThrows
                  "2026-01-28T12:00:00.000Z"
                  (Sample.userImport true) Sample.twoUsers)) !! i = Some r
             ∧ importRecord (Sample.userImport true) "2026-01-28T12:00:00.000Z"
                 i sourceRecord = Ok r
             ∧ Meta.sourceIndex (StandardizedRecord._meta r) = i
             ∧ Meta.importedAt (StandardizedRecord._meta r)
               = "2026-01-28T12:00:00.000Z"
             ∧ StandardizedRecord.type r = targetRepository (Sample.userImport true).
Proof.
  apply (records_follow_source Reference.JSON_parse Reference.toJSONThrows
           "2026-01-28T12:00:00.000Z" (Sample.userImport true) Sample.twoUsers).
  vm_compute. reflexivity.
Defined.

Lemma executeConfig_passes (JSON_parse : string → result Value)
    (toJSONThrows : string → Data.t → bool)
    (importedAt : string) (validConfig : MappingConfig) (sourceFile : string) :
  coverageOk validConfig →
  executeConfig JSON_parse toJSONThrows importedAt validConfig sourceFile
  = importSource JSON_parse toJSONThrows importedAt validConfig sourceFile.
Proof.
  intros Hcov. unfold executeConfig.
  destruct (validateRequired (options validConfig)) eqn:Hvr; [|done].
  by rewrite (Hcov Hvr).
Qed.

(** X4. One source record that is null stops the whole batch: when the
    configuration passes the coverage check and some record of the source
    is null (or undefined), the handler answers 500, with no record at
    all. *)
Theorem null_record_aborts_batch (JSON_parse : string → result Value)
    (toJSONThrows : string → Data.t → bool)
    (importedAt : string) (validConfig : MappingConfig) (sourceFile : string)
    (sourceRecords : list Value) (sourceRecord : Value) :
  coverageOk validConfig →
  parseSourceFile JSON_parse sourceFile (SourceType.name (sourceType validConfig))
  = Ok sourceRecords →
  sourceRecord ∈ sourceRecords →
  isPresent sourceRecord = false →
  let response :=
    executeConfig JSON_parse toJSONThrows importedAt validConfig sourceFile in
  response = Response.failure 500 "Failed to execute config"
  ∧ Response.records response = None.
Proof.
  intros Hcov Hparse Hin Hnull response.
  assert (Hresp : response = Response.failure 500 "Failed to execute config");
    [|by rewrite Hresp].
  unfold response. rewrite executeConfig_passes by done.
  unfold importSource. rewrite Hparse.
  rewrite bool_decide_eq_false_2
    by (destruct sourceRecords; [by apply elem_of_nil in Hin|done]).
  destruct (importRecords _ _ _ _) as [records|] eqn:E; [|done].
  by rewrite (importRecords_present _ _ _ _ _ E _ Hin) in Hnull.
Qed.

Lemma null_record_aborts_batch_witness :
  executeConfig Reference.JSON_parse Reference.toJSONThrows
    "2026-01-28T12:00:00.000Z" (Sample.productImport true) Sample2.secondNull
  = Response.failure 500 "Failed to execute config".
Proof.
  apply (null_record_aborts_batch Reference.JSON_parse Reference.toJSONThrows
           "2026-01-28T12:00:00.000Z" (Sample.productImport true)
           Sample2.secondNull [Sample.idZero; VNull] VNull).
  - by intros [=].
  - reflexivity.
  - apply list_elem_of_further, list_elem_of_here.
  - reflexivity.
Defined.

(** ** Sources whose records are objects *)

(** [String] and [Number] return for every value that is no array and no
    parsed object. *)
Lemma ToString_flat (v : Value) :
  (∀ l, v ≠ VArr l) → (∀ p, v ≠ VObj p) → ∃ s, ToString v = Ok s.
Proof.
  intros Harr Hobj. destruct v; cbn; eauto.
  - by destruct (Harr elements).
  - by destruct (Hobj properties).
Qed.

Lemma ToNumber_flat (v : Value) :
  (∀ l, v ≠ VArr l) → (∀ p, v ≠ VObj p) → ∃ n, ToNumber v = Ok n.
Proof.
  intros Harr Hobj. destruct v; cbn; eauto.
  - by destruct (Harr elements).
  - by destruct (Hobj properties).
Qed.

Lemma applyTransform_flat (mapping : FieldMapping) (v : Value) :
  (∀ l, v ≠ VArr l) → (∀ p, v ≠ VObj p) →
  ∃ out, applyTransform mapping v [] = Ok out.
Proof.
  intros Harr Hobj.
  destruct (ToString_flat v Harr Hobj) as [s Hs].
  destruct (ToNumber_flat v Harr Hobj) as [n Hn].
  unfold applyTransform. rewrite Hs, Hn. cbn.
  destruct (transform mapping) as [[]|]; eauto.
  destruct (Num.isNaN n); eauto.
Qed.

(** What a read finds in [Object.prototype] is no array and no parsed
    object. *)
Lemma inherited_flat (key : string) :
  (∀ l, inherited key ≠ VArr l) ∧ (∀ p, inherited key ≠ VObj p).
Proof. unfold inherited. case_decide; [done|]. by case_bool_decide. Qed.

(** An object whose fields are strings: every conversion the handler
    makes of it returns. *)
Lemma strings_convertible (validConfig : MappingConfig) (properties : Obj.t) :
  (∀ h v, Obj.lookup properties h = Some v → ∃ s, v = VStr s) →
  convertible validConfig (VObj properties).
Proof.
  intros Hstrings.
  assert (Hflat : ∀ key v, Get (VObj properties) key = Ok v →
                           (∀ l, v ≠ VArr l) ∧ (∀ p, v ≠ VObj p)).
  { intros key v. cbn.
    destruct (Obj.lookup properties key) as [w|] eqn:Hw; cbn; intros [= <-].
    - by destruct (Hstrings _ _ Hw) as [s ->].
    - apply inherited_flat. }
  split.
  - intros recordId Hid _. destruct (Hflat _ _ Hid). by apply ToString_flat.
  - apply Forall_forall. intros mapping _ _. unfold produced.
    destruct (isPresent _); [|eauto].
    destruct (Hflat (sourceField mapping) (rawValue (VObj properties) mapping))
      as [Harr Hobj]; [done|].
    by apply applyTransform_flat.
Qed.

Lemma parseCSV_convertible (validConfig : MappingConfig) (csvString : string)
    (r : Value) :
  r ∈ parseCSV csvString →
  (∃ properties, r = VObj properties) ∧ convertible validConfig r.
Proof.
  unfold parseCSV. case_bool_decide; [by intros ?%elem_of_nil|].
  intros (line & -> & _)%list_elem_of_fmap. split; [eauto|].
  apply strings_convertible. intros h v. by apply forEachHeader_strings.
Qed.

(** The writes leave alone what is no target field. *)
Lemma written_other (skipEmpty : bool) (sourceRecord : Value)
    (data : gmap string Value) (mappings : list FieldMapping) (key : string) :
  key ∉ map targetField mappings →
  written skipEmpty sourceRecord data mappings !! key = data !! key.
Proof.
  intros Hkey. rewrite written_lookup.
  destruct (last _) as [m|] eqn:Hlast; [|done].
  apply last_filter_elem in Hlast as (Hin & <- & _).
  destruct Hkey. by apply list_elem_of_fmap_2.
Qed.

(** The loop over records that are objects returns, when the conversions
    do and no entry has the target field [__proto__]; the keys of the
    [data] of the records are target fields. *)
Lemma importRecords_objects (validConfig : MappingConfig) (importedAt : string)
    (index : nat) (sourceRecords : list Value) :
  "__proto__" ∉ mappedTargetFields validConfig →
  (∀ sourceRecord, sourceRecord ∈ sourceRecords →
     (∃ properties, sourceRecord = VObj properties)
     ∧ convertible validConfig sourceRecord) →
  ∃ records,
    importRecords validConfig importedAt index sourceRecords = Ok records
    ∧ ∀ r key, r ∈ records → key ∉ mappedTargetFields validConfig →
               Data.own (StandardizedRecord.data r) !! key = None.
Proof.
  intros Hkeys. revert index.
  induction sourceRecords as [|first rest IH]; intros index Hall.
  - exists []. split; [done|]. by intros r key ?%elem_of_nil.
  - destruct (Hall first) as [[properties ->] [Hidc Hconv]]; [by left|].
    destruct (IH (S index)) as (rs & Hrs & Hdata);
      [intros; apply Hall; by right|].
    assert (Hstr : ∃ id, idString (default (inherited (idField validConfig))
                                     (Obj.lookup properties (idField validConfig)))
                                  index = Ok id).
    { unfold idString. destruct (ToBoolean _) eqn:Hb; [|eauto]. by apply Hidc. }
    destruct Hstr as [id Hstr].
    cbn [importRecords].
    rewrite (importRecord_object _ _ _ _ _ id eq_refl) by done.
    cbn. rewrite Hrs. cbn. eexists. split; [done|].
    intros r key [->|Hin]%elem_of_cons Hkey; [|by eapply Hdata].
    cbn. by rewrite written_other.
Qed.

Lemma stringifyThrows_no_toJSON (toJSONThrows : string → Data.t → bool)
    (d : Data.t) :
  Data.own d !! "toJSON" = None → Data.stringifyThrows toJSONThrows d = false.
Proof. unfold Data.stringifyThrows. by intros ->. Qed.

(** The import of such a source is sent, when no entry has the target
    field [toJSON] either. *)
Lemma importSource_objects (JSON_parse : string → result Value)
    (toJSONThrows : string → Data.t → bool)
    (importedAt : string) (validConfig : MappingConfig) (sourceFile : string)
    (sourceRecords : list Value) :
  parseSourceFile JSON_parse sourceFile (SourceType.name (sourceType validConfig))
  = Ok sourceRecords →
  "__proto__" ∉ mappedTargetFields validConfig →
  "toJSON" ∉ mappedTargetFields validConfig →
  (∀ sourceRecord, sourceRecord ∈ sourceRecords →
     (∃ properties, sourceRecord = VObj properties)
     ∧ convertible validConfig sourceRecord) →
  let response := importSource JSON_parse toJSONThrows importedAt validConfig sourceFile in
  Response.status response = 200
  ∧ Response.valid response = Some true
  ∧ ∃ records, Response.records response = Some records
               ∧ length records = length sourceRecords.
Proof.
  intros Hparse Hproto HtoJSON Hall response. unfold response, importSource.
  rewrite Hparse. case_bool_decide as Hempty.
  - cbn. split; [done|]. split; [done|]. exists []. by rewrite Hempty.
  - destruct (importRecords_objects validConfig importedAt 0 sourceRecords
                Hproto Hall) as (records & E & Hdata).
    rewrite E.
    assert (Hsent : existsb (λ r, Data.stringifyThrows toJSONThrows
                                    (StandardizedRecord.data r)) records = false).
    { apply not_true_iff_false. intros (r & Hin & Hr)%existsb_exists.
      apply list_elem_of_In in Hin.
      rewrite stringifyThrows_no_toJSON in Hr; [done|]. by apply Hdata. }
    rewrite Hsent. cbn. split; [done|]. split; [done|].
    exists records. split; [done|]. by eapply importRecords_length.
Qed.

(** X5. A CSV source never fails, when no entry has the target field
    [__proto__] or [toJSON]: for such a configuration of source type [csv]
    that passes the coverage check, every text is parsed and imported, the
    response is [valid: true] with status 200, and it holds one record for
    each line break of the trimmed text. *)
Theorem csv_source_always_imports (JSON_parse : string → result Value)
    (toJSONThrows : string → Data.t → bool)
    (importedAt : string) (validConfig : MappingConfig) (sourceFile : string) :
  sourceType validConfig = SourceType.csv →
  coverageOk validConfig →
  "__proto__" ∉ mappedTargetFields validConfig →
  "toJSON" ∉ mappedTargetFields validConfig →
  let response :=
    executeConfig JSON_parse toJSONThrows importedAt validConfig sourceFile in
  Response.status response = 200
  ∧ Response.valid response = Some true
  ∧ ∃ records, Response.records response = Some records
               ∧ length records = occurrences "010"%char (Str.trim sourceFile).
Proof.
  intros Hcsv Hcov Hproto HtoJSON response. unfold response.
  rewrite executeConfig_passes by done.
  rewrite <- parseCSV_count.
  apply importSource_objects; [by rewrite Hcsv|done..|].
  intros r. apply parseCSV_convertible.
Qed.

Lemma csv_source_always_imports_witness :
  let response :=
    executeConfig Reference.JSON_parse Reference.toJSONThrows
      "2026-01-28T12:00:00.000Z" (Sample.userImport true) Sample.twoUsers in
  Response.status response = 200
  ∧ Response.valid response = Some true
  ∧ ∃ records, Response.records response = Some records
               ∧ length records
                 = occurrences "010"%char (Str.trim Sample.twoUsers).
Proof.
  apply csv_source_always_imports.
  - reflexivity.
  - intros _. reflexivity.
  - apply (bool_decide_unpack _). vm_compute. reflexivity.
  - apply (bool_decide_unpack _). vm_compute. reflexivity.
Defined.

(** ** The summary *)

Lemma length_filter_complement {A : Type} (P : A → Prop)
    `{!∀ x, Decision (P x)} (l : list A) :
  length (filter P l) + length (filter (λ x, ¬ P x) l) = length l.
Proof.
  rewrite <- length_app. apply Permutation_length, filter_app_complement.
Qed.

(** X6. A response has a summary only when it has at least one record.
    The summary counts these records: [totalRecords] is their number,
    [successfulImports] the number of those with [success: true],
    [failedImports] the number of the others, so that the two add up to
    the total; it names the target repository and the time stamp of the
    configuration and the run. *)
Theorem summary_counts_records (JSON_parse : string → result Value)
    (toJSONThrows : string → Data.t → bool)
    (importedAt : string) (validConfig : MappingConfig) (sourceFile : string)
    (s : Summary.t) :
  Response.summary
    (executeConfig JSON_parse toJSONThrows importedAt validConfig sourceFile)
  = Some s →
  ∃ records,
    Response.records
      (executeConfig JSON_parse toJSONThrows importedAt validConfig sourceFile)
    = Some records
    ∧ records ≠ []
    ∧ Summary.totalRecords s = length records
    ∧ Summary.successfulImports s
      = length (filter (λ r, Meta.success (StandardizedRecord._meta r) = true) records)
    ∧ Summary.failedImports s
      = length (filter (λ r, Meta.success (StandardizedRecord._meta r) ≠ true) records)
    ∧ (Summary.successfulImports s + Summary.failedImports s
       = Summary.totalRecords s)%nat
    ∧ Summary.targetRepository s = targetRepository validConfig
    ∧ Summary.importedAt s = importedAt.
Proof.
  unfold executeConfig, importSource.
  destruct (_ && _); [done|].
  destruct (parseSourceFile _ _ _) as [sourceRecords|]; [|done].
  case_bool_decide as Hempty; [done|].
  destruct (importRecords _ _ _ _) as [records|] eqn:E; [|done].
  destruct (existsb _ records); [done|].
  simpl. intros [= <-]. simpl.
  pose proof (importRecords_length _ _ _ _ _ E) as Hlen.
  pose proof (length_filter_complement
                (λ r, Meta.success (StandardizedRecord._meta r) = true) records)
    as Hsum.
  pose proof (successCount_le records) as Hle.
  unfold successCount in *. cbn beta in Hsum. exists records.
  split; [done|]. split; [intros ->; by destruct sourceRecords|].
  split; [lia|]. split; [done|]. split; [lia|]. split; [lia|]. done.
Qed.

Lemma summary_counts_records_witness :
  ∃ records,
    Response.records
      (executeConfig Reference.JSON_parse Reference.toJSONThrows
         "2026-01-28T12:00:00.000Z"
         (Sample.userImport true) Sample.twoUsers) = Some records
    ∧ records ≠ []
    ∧ 2 = length records
    ∧ 2 = length (filter (λ r, Meta.success (StandardizedRecord._meta r) = true)
                         records)
    ∧ 0 = length (filter (λ r, Meta.success (StandardizedRecord._meta r) ≠ true)
                         records)
    ∧ (2 + 0 = 2)%nat
    ∧ Repository.users = targetRepository (Sample.userImport true)
    ∧ "2026-01-28T12:00:00.000Z" = "2026-01-28T12:00:00.000Z".
Proof.
  apply (summary_counts_records Reference.JSON_parse Reference.toJSONThrows
           "2026-01-28T12:00:00.000Z"
           (Sample.userImport true) Sample.twoUsers
           {| Summary.totalRecords := 2;
              Summary.successfulImports := 2;
              Summary.failedImports := 0;
              Summary.targetRepository := Repository.users;
              Summary.importedAt := "2026-01-28T12:00:00.000Z" |}).
  vm_compute. reflexivity.
Defined.

(** ** The errors and the data of a record *)

(** Where an error of a transform comes from. *)
Lemma applyTransform_cause (mapping : FieldMapping) (value : Value)
    (out : Value * list string) (e : string) :
  applyTransform mapping value [] = Ok out →
  e ∈ out.2 →
  transform mapping = Some Transform.number
  ∧ e = numberError (sourceField mapping)
  ∧ ∃ numValue, ToNumber value = Ok numValue ∧ Num.isNaN numValue = true.
Proof.
  unfold applyTransform.
  destruct (transform mapping) as [[| | | |]|].
  - by intros [= <-] ?%elem_of_nil.
  - destruct (ToString value); cbn; [|done]. by intros [= <-] ?%elem_of_nil.
  - destruct (ToString value); cbn; [|done]. by intros [= <-] ?%elem_of_nil.
  - destruct (ToString value); cbn; [|done]. by intros [= <-] ?%elem_of_nil.
  - destruct (ToNumber value) as [numValue|]; cbn; [|done].
    destruct (Num.isNaN numValue) eqn:Hnan; intros [= <-]; cbn.
    + intros ->%list_elem_of_singleton. eauto.
    + by intros ?%elem_of_nil.
  - by intros [= <-] ?%elem_of_nil.
Qed.

(** Where an error of the loop over the mappings comes from. *)
Lemma applyMappings_causes (skipEmpty : bool) (sourceRecord : Value)
    (mappings : list FieldMapping) (data data' : Data.t)
    (recordErrors recordErrors' : list string) :
  applyMappings skipEmpty sourceRecord mappings data recordErrors
  = Ok (data', recordErrors') →
  ∃ more, recordErrors' = (recordErrors ++ more)%list
    ∧ ∀ e, e ∈ more →
        ∃ m, m ∈ mappings
             ∧ transform m = Some Transform.number
             ∧ e = numberError (sourceField m)
             ∧ skipped skipEmpty sourceRecord m = false
             ∧ ∃ numValue, ToNumber (rawValue sourceRecord m) = Ok numValue
                           ∧ Num.isNaN numValue = true.
Proof.
  revert data recordErrors.
  induction mappings as [|mapping rest IH]; intros data recordErrors.
  - intros [= <- <-]. exists []. split; [by rewrite app_nil_r|].
    by intros e ?%elem_of_nil.
  - cbn [applyMappings]. unfold skipped at 1.
    destruct (Get sourceRecord (sourceField mapping)) as [value|] eqn:Hv; [|done].
    cbn [mbind result_bind].
    assert (Hlater : ∀ d errs,
      applyMappings skipEmpty sourceRecord rest d errs = Ok (data', recordErrors') →
      ∀ first, (∀ e, e ∈ first →
          transform mapping = Some Transform.number
          ∧ e = numberError (sourceField mapping)
          ∧ skipped skipEmpty sourceRecord mapping = false
          ∧ ∃ numValue, ToNumber (rawValue sourceRecord mapping) = Ok numValue
                        ∧ Num.isNaN numValue = true) →
      errs = (recordErrors ++ first)%list →
      ∃ more, recordErrors' = (recordErrors ++ more)%list
        ∧ ∀ e, e ∈ more →
            ∃ m, m ∈ mapping :: rest
                 ∧ transform m = Some Transform.number
                 ∧ e = numberError (sourceField m)
                 ∧ skipped skipEmpty sourceRecord m = false
                 ∧ ∃ numValue, ToNumber (rawValue sourceRecord m) = Ok numValue
                               ∧ Num.isNaN numValue = true).
    { intros d errs (more & -> & Hmore)%IH first Hfirst ->.
      exists (first ++ more)%list. split; [by rewrite app_assoc|].
      intros e [He|He]%elem_of_app.
      - exists mapping. split; [by left|]. by apply Hfirst.
      - destruct (Hmore e He) as (m & Hm & Hrest).
        exists m. split; [by right|done]. }
    destruct (isEmptyValue value && skipEmpty) eqn:Hs.
    + intros Hloop. apply (Hlater _ _ Hloop []); [|by rewrite app_nil_r].
      by intros e ?%elem_of_nil.
    + destruct (isPresent value).
      * rewrite applyTransform_errors.
        destruct (applyTransform mapping value []) as [out|] eqn:Hout; [|done].
        cbn.
        destruct (Data.assign data (targetField mapping) out.1) as [d|]; [|done].
        cbn. intros Hloop. apply (Hlater _ _ Hloop out.2); [|done].
        intros e He.
        destruct (applyTransform_cause _ _ _ _ Hout He) as (Ht & -> & Hnan).
        unfold skipped. by rewrite (rawValue_Get _ _ _ Hv).
      * cbn.
        destruct (Data.assign data (targetField mapping) value) as [d|]; [|done].
        cbn. intros Hloop. apply (Hlater _ _ Hloop []); [|by rewrite app_nil_r].
        by intros e ?%elem_of_nil.
Qed.

(** X7. A record has errors from two causes only: its identifier is
    absent, null or empty, or an entry with the [number] transform that is
    not skipped reads a value that [Number] makes [NaN].  So a record with
    an identifier, under a configuration without [number] transforms,
    always has [success: true].  This is for every record the handler
    makes of a source record that is an object. *)
Theorem record_error_causes (validConfig : MappingConfig) (importedAt : string)
    (index : nat) (properties : Obj.t) (recordId : Value)
    (r : StandardizedRecord.t) :
  let sourceRecord := VObj properties in
  Get sourceRecord (idField validConfig) = Ok recordId →
  importRecord validConfig importedAt index sourceRecord = Ok r →
  (∀ e, e ∈ default [] (Meta.errors (StandardizedRecord._meta r)) →
        (e = missingIdError (idField validConfig)
         ∧ isEmptyValue recordId = true)
        ∨ ∃ m, m ∈ fieldMappings validConfig
               ∧ transform m = Some Transform.number
               ∧ e = numberError (sourceField m)
               ∧ skipped (skipEmptyFields (options validConfig))
                   sourceRecord m = false
               ∧ ∃ numValue, ToNumber (rawValue sourceRecord m) = Ok numValue
                             ∧ Num.isNaN numValue = true)
  ∧ ((∀ m, m ∈ fieldMappings validConfig →
           transform m ≠ Some Transform.number) →
     isEmptyValue recordId = false →
     Meta.success (StandardizedRecord._meta r) = true
     ∧ Meta.errors (StandardizedRecord._meta r) = None).
Proof.
  intros sourceRecord Hid
    (recordId' & data & recordErrors & id & Hid' & Hloop & _ & ->)%importRecord_inv.
  assert (recordId' = recordId) as -> by congruence.
  apply applyMappings_causes in Hloop as (more & -> & Hmore).
  cbn. rewrite errors_of_list.
  split.
  - intros e He.
    assert (Hin : e ∈ ((if isEmptyValue recordId
                        then [missingIdError (idField validConfig)] else [])
                       ++ more)%list).
    { destruct (_ ++ _)%list; [by apply elem_of_nil in He|done]. }
    apply elem_of_app in Hin as [Hin|Hin].
    + left. destruct (isEmptyValue recordId); [|by apply elem_of_nil in Hin].
      by apply list_elem_of_singleton in Hin.
    + right. by apply Hmore.
  - intros Hnone Hpresent.
    assert (Hrep : more = []).
    { destruct more as [|e l]; [done|].
      destruct (Hmore e) as (m & Hm & Ht & _); [by left|].
      by destruct (Hnone m Hm). }
    by rewrite Hrep, Hpresent.
Qed.

Lemma record_error_causes_witness :
  (∀ e, e ∈ default [] (Meta.errors (StandardizedRecord._meta Sample2.bobRecord)) →
        (e = missingIdError "user_id" ∧ isEmptyValue (VStr "2") = true)
        ∨ ∃ m, m ∈ fieldMappings (Sample.userImport true)
               ∧ transform m = Some Transform.number
               ∧ e = numberError (sourceField m)
               ∧ skipped true Sample2.bob m = false
               ∧ ∃ numValue, ToNumber (rawValue Sample2.bob m) = Ok numValue
                             ∧ Num.isNaN numValue = true)
  ∧ ((∀ m, m ∈ fieldMappings (Sample.userImport true) →
           transform m ≠ Some Transform.number) →
     isEmptyValue (VStr "2") = false →
     Meta.success (StandardizedRecord._meta Sample2.bobRecord) = true
     ∧ Meta.errors (StandardizedRecord._meta Sample2.bobRecord) = None).
Proof.
  apply (record_error_causes (Sample.userImport true) "2026-01-28T12:00:00.000Z"
           1 Sample2.bobProperties (VStr "2") Sample2.bobRecord);
    reflexivity.
Defined.

(** X8. The keys of [data] are target fields of the configuration, and
    each holds what an entry that was not skipped produced (so that with
    [skipEmptyFields] no key comes from an empty, null or absent value).  Without
    [skipEmptyFields] every target field of the configuration is a key,
    and a field whose last entry reads an absent or null source field
    holds that [undefined] or [null] as it is, whatever the transform of
    the entry.  This is for a source record that is an object, and a
    configuration none of whose entries has the target field
    [__proto__]. *)
Theorem data_keys_are_target_fields (validConfig : MappingConfig)
    (importedAt : string) (index : nat) (properties : Obj.t)
    (r : StandardizedRecord.t) :
  let sourceRecord := VObj properties in
  "__proto__" ∉ mappedTargetFields validConfig →
  importRecord validConfig importedAt index sourceRecord = Ok r →
  (∀ k v, Data.own (StandardizedRecord.data r) !! k = Some v →
          ∃ m, m ∈ fieldMappings validConfig ∧ targetField m = k
               ∧ skipped (skipEmptyFields (options validConfig)) sourceRecord m
                 = false
               ∧ v = producedValue sourceRecord m)
  ∧ (skipEmptyFields (options validConfig) = false →
     (∀ k, k ∈ mappedTargetFields validConfig →
           is_Some (Data.own (StandardizedRecord.data r) !! k))
     ∧ (∀ m, last (filter (λ m', targetField m' = targetField m)
                          (fieldMappings validConfig)) = Some m →
             isPresent (rawValue sourceRecord m) = false →
             Data.own (StandardizedRecord.data r) !! targetField m
             = Some (rawValue sourceRecord m))).
Proof.
  intros sourceRecord Hkeys
    (recordId & data & recordErrors & id & _ & Hloop & _ & ->)%importRecord_inv.
  apply applyMappings_inv in Hloop as (Hown & _ & _); [|done..].
  cbn. rewrite Hown. cbn.
  split.
  - intros k v. rewrite written_lookup.
    destruct (last _) as [m|] eqn:Hlast; [|done].
    intros [= <-]. apply last_filter_elem in Hlast as (Hin & Ht & Hs). eauto.
  - intros ->.
    assert (Hfilter : ∀ k,
      filter (λ m, targetField m = k ∧ skipped false sourceRecord m = false)
             (fieldMappings validConfig)
      = filter (λ m, targetField m = k) (fieldMappings validConfig)).
    { intros k. apply list_filter_iff. intros m. unfold skipped.
      rewrite andb_false_r. tauto. }
    split.
    + intros k (m & Ht & Hm)%list_elem_of_fmap.
      rewrite written_lookup, Hfilter.
      destruct (last _) as [m'|] eqn:Hlast; [eauto|].
      by destruct (last_filter_none _ _ m Hlast Hm).
    + intros m Hlast Hnull. rewrite written_lookup, Hfilter, Hlast.
      unfold producedValue, produced. fold sourceRecord.
      change (isPresent (rawValue sourceRecord m) = false) in Hnull.
      by rewrite Hnull.
Qed.

Lemma data_keys_are_target_fields_witness :
  (∀ k v, Data.own (StandardizedRecord.data Sample2.noPriceRecord) !! k = Some v →
          ∃ m, m ∈ fieldMappings (Sample.productImport false) ∧ targetField m = k
               ∧ skipped (skipEmptyFields (options (Sample.productImport false)))
                   Sample2.noPrice m = false
               ∧ v = producedValue Sample2.noPrice m)
  ∧ (skipEmptyFields (options (Sample.productImport false)) = false →
     (∀ k, k ∈ mappedTargetFields (Sample.productImport false) →
           is_Some (Data.own (StandardizedRecord.data Sample2.noPriceRecord) !! k))
     ∧ (∀ m, last (filter (λ m', targetField m' = targetField m)
                          (fieldMappings (Sample.productImport false))) = Some m →
             isPresent (rawValue Sample2.noPrice m) = false →
             Data.own (StandardizedRecord.data Sample2.noPriceRecord) !! targetField m
             = Some (rawValue Sample2.noPrice m))).
Proof.
  apply (data_keys_are_target_fields (Sample.productImport false)
           "2026-01-28T12:00:00.000Z" 0 [("id", VStr "p1")] Sample2.noPriceRecord).
  - apply (bool_decide_unpack _). vm_compute. reflexivity.
  - reflexivity.
Defined.

(** ** JSON sources that are no object *)

Lemma firstArrayProperty_string (s : string) (keys : list string) :
  firstArrayProperty (VStr s) keys = Ok None.
Proof.
  induction keys as [|key keys IH]; [done|]. simpl.
  case_decide; [done|].
  destruct (Obj.arrayIndex key); [|done]. simpl.
  by destruct (String.get _ s).
Qed.

(** X9. For a JSON text that is no object: an array is taken as the
    sequence of its elements, whatever they are; a number, a boolean or a
    string is wrapped alone in a sequence; [null] makes the parser throw;
    and what [JSON.parse] throws is thrown on. *)
Theorem json_other_values (JSON_parse : string → result Value) (text : string) :
  (∀ elements, JSON_parse text = Ok (VArr elements) →
               parseSourceFile JSON_parse text "json" = Ok elements)
  ∧ (∀ v, JSON_parse text = Ok v →
          (∃ b, v = VBool b) ∨ (∃ n, v = VNum n) ∨ (∃ s, v = VStr s) →
          parseSourceFile JSON_parse text "json" = Ok [v])
  ∧ (JSON_parse text = Ok VNull →
     ∃ msg, parseSourceFile JSON_parse text "json" = Throw (TypeError msg))
  ∧ (∀ e, JSON_parse text = Throw e →
          parseSourceFile JSON_parse text "json" = Throw e).
Proof.
  unfold parseSourceFile, parseJSON. simpl.
  split; [by intros elements ->|]. split; [|split].
  - intros v -> [[b ->]|[[n ->]|[s ->]]]; simpl; try done.
    by rewrite firstArrayProperty_string.
  - intros ->. simpl. eauto.
  - by intros e ->.
Qed.

(** X10. A source that cannot be parsed is refused and nothing is
    imported: when the parser throws (a malformed JSON text, the JSON text
    [null]), a configuration that passes the coverage check gets
    [valid: false] with exactly one issue, at path [sourceFile], whose
    message is the message of what was thrown after ["Failed to parse: "];
    the response has no record and no summary. *)
Theorem unparsable_source_is_refused (JSON_parse : string → result Value)
    (toJSONThrows : string → Data.t → bool)
    (importedAt : string) (validConfig : MappingConfig) (sourceFile : string)
    (e : Exn) :
  coverageOk validConfig →
  parseSourceFile JSON_parse sourceFile (SourceType.name (sourceType validConfig))
  = Throw e →
  let response :=
    executeConfig JSON_parse toJSONThrows importedAt validConfig sourceFile in
  Response.status response = 200
  ∧ Response.valid response = Some false
  ∧ Response.errors response
    = Some [ {| Issue.path := "sourceFile";
                Issue.message := "Failed to parse: " +:+ messageOf e |} ]
  ∧ Response.records response = None
  ∧ Response.summary response = None
  ∧ sourceType validConfig = SourceType.json.
Proof.
  intros Hcov Hparse response. unfold response.
  rewrite executeConfig_passes by done. unfold importSource. rewrite Hparse.
  simpl. repeat (split; [done|]).
  destruct (sourceType validConfig); [done|done].
Qed.

Lemma unparsable_source_is_refused_witness :
  let response :=
    executeConfig Reference.JSON_parse Reference.toJSONThrows
      "2026-01-28T12:00:00.000Z" (Sample.productImport true) "null" in
  Response.status response = 200
  ∧ Response.valid response = Some false
  ∧ Response.errors response
    = Some [ {| Issue.path := "sourceFile";
                Issue.message :=
                  "Failed to parse: "
                  +:+ messageOf (TypeError "Cannot convert undefined or null to object") |} ]
  ∧ Response.records response = None
  ∧ Response.summary response = None
  ∧ sourceType (Sample.productImport true) = SourceType.json.
Proof.
  apply unparsable_source_is_refused.
  - by intros [=].
  - reflexivity.
Defined.

(** ** The request *)

Lemma importSource_status (JSON_parse : string → result Value)
    (toJSONThrows : string → Data.t → bool)
    (importedAt : string) (validConfig : MappingConfig) (sourceFile : string) :
  let response :=
    importSource JSON_parse toJSONThrows importedAt validConfig sourceFile in
  Response.status response = 200 ∨ Response.status response = 500.
Proof.
  unfold importSource.
  destruct (parseSourceFile _ _ _); [|by left].
  case_bool_decide; [by left|].
  destruct (importRecords _ _ _ _) as [records|]; [|by right].
  destruct (existsb _ records); [by right|by left].
Qed.

Lemma executeConfig_status (JSON_parse : string → result Value)
    (toJSONThrows : string → Data.t → bool)
    (importedAt : string) (validConfig : MappingConfig) (sourceFile : string) :
  let response :=
    executeConfig JSON_parse toJSONThrows importedAt validConfig sourceFile in
  Response.status response = 200 ∨ Response.status response = 500.
Proof.
  unfold executeConfig. destruct (_ && _); [by left|]. apply importSource_status.
Qed.

(** X11. The handler answers 400 exactly when the request has no
    configuration (a falsy [config]) or its [sourceFile] is not a
    non-empty string, and then it has validated and imported nothing;
    otherwise a configuration that the schema refuses gets [valid: false]
    with one issue for each issue of the schema, and is not executed. *)
Theorem request_is_checked_first (JSON_parse : string → result Value)
    (toJSONThrows : string → Data.t → bool)
    (safeParse : Value → SafeParse) (importedAt : string)
    (body config sourceFile : Value) :
  Get body "config" = Ok config →
  Get body "sourceFile" = Ok sourceFile →
  let response :=
    POST_execute_config JSON_parse toJSONThrows safeParse importedAt body in
  (Response.status response = 400
   ↔ ToBoolean config = false
     ∨ ¬ ∃ text, sourceFile = VStr text ∧ text ≠ EmptyString)
  ∧ (Response.status response = 400 →
     Response.valid response = None ∧ Response.records response = None)
  ∧ (∀ issues, Response.status response ≠ 400 →
               safeParse config = ParseFailure issues →
               Response.valid response = Some false
               ∧ Response.records response = None
               ∧ ∃ errs, Response.errors response = Some errs
                         ∧ length errs = length issues).
Proof.
  intros Hconfig Hsource response. unfold response, POST_execute_config.
  rewrite Hconfig. simpl. rewrite Hsource. simpl.
  destruct (ToBoolean config) eqn:Hc; simpl.
  2: { split; [split; [by left|done]|]. split; [done|]. by intros issues []. }
  assert (Hother : ∀ v, (∀ text, v ≠ VStr text) →
    ¬ ∃ text, v = VStr text ∧ text ≠ EmptyString).
  { intros v Hv (text & -> & _). by destruct (Hv text). }
  destruct sourceFile as [| | | |text| | | |]; simpl;
    try (split; [split; [intros _; right; by apply Hother|done]|];
         split; [done|]; by intros issues []).
  case_bool_decide as Htext; simpl.
  - subst text.
    split; [split; [|done]|].
    { intros _. right. by intros (text & [= <-] & Hne). }
    split; [done|]. by intros issues [].
  - destruct (safeParse config) as [validConfig|issues'] eqn:Hparse.
    + pose proof (executeConfig_status JSON_parse toJSONThrows importedAt
                    validConfig text) as Hstatus.
      cbn zeta in Hstatus.
      split; [split|].
      * intros H400. rewrite H400 in Hstatus. by destruct Hstatus.
      * intros [?|Hno]; [done|]. destruct Hno. by exists text.
      * split; [|done]. intros H400. rewrite H400 in Hstatus. by destruct Hstatus.
    + simpl. split; [split; [done|]|].
      * intros [?|Hno]; [done|]. destruct Hno. by exists text.
      * split; [done|]. intros issues _ [= <-].
        split; [done|]. split; [done|]. eexists. split; [done|].
        by rewrite length_map.
Qed.

Lemma request_is_checked_first_witness :
  let response :=
    POST_execute_config Reference.JSON_parse Reference.toJSONThrows
      Reference.rejectAll "2026-01-28T12:00:00.000Z"
      (VObj [("config", VObj []); ("sourceFile", VStr Sample.twoUsers)]) in
  (Response.status response = 400
   ↔ ToBoolean (VObj []) = false
     ∨ ¬ ∃ text, VStr Sample.twoUsers = VStr text ∧ text ≠ EmptyString)
  ∧ (Response.status response = 400 →
     Response.valid response = None ∧ Response.records response = None)
  ∧ (∀ issues, Response.status response ≠ 400 →
               Reference.rejectAll (VObj []) = ParseFailure issues →
               Response.valid response = Some false
               ∧ Response.records response = None
               ∧ ∃ errs, Response.errors response = Some errs
                         ∧ length errs = length issues).
Proof.
  apply request_is_checked_first; reflexivity.
Defined.

(** ** The order-only server *)

Lemma Order_missingRequired_nil (mappings : list FieldMapping) :
  Order.missingRequired mappings = [].
Proof. done. Qed.

(** X12. In the order-only server the check of the required target fields
    never fails, whatever the mappings and [validateRequired]: the only
    required field is [orderId], which the check leaves out.  After the
    schema, a response with [valid: false] can only report a source that
    could not be parsed. *)
Theorem order_coverage_never_fails (JSON_parse : string → result Value)
    (toJSONThrows : string → Data.t → bool)
    (importedAt : string) (validConfig : OrderServer.MappingConfig)
    (sourceFile : string) :
  Order.missingRequired (OrderServer.fieldMappings validConfig) = []
  ∧ (OrderServer.valid
       (executeOrderConfig JSON_parse toJSONThrows importedAt validConfig sourceFile)
     = Some false →
     ∃ e, parseSourceFile JSON_parse sourceFile
            (SourceType.name (OrderServer.sourceType validConfig)) = Throw e
          ∧ OrderServer.errors
              (executeOrderConfig JSON_parse toJSONThrows importedAt validConfig
                 sourceFile)
            = Some [ {| Issue.path := "sourceFile";
                        Issue.message := "Failed to parse: " +:+ messageOf e |} ]).
Proof.
  split; [done|]. unfold executeOrderConfig.
  rewrite Order_missingRequired_nil. simpl. rewrite andb_false_r.
  destruct (parseSourceFile _ _ _) as [sourceRecords|e]; [|eauto].
  case_bool_decide; [done|].
  destruct (OrderServer.importOrders _ _ _) as [orders|]; [|done].
  by destruct (existsb _ orders).
Qed.

(** X13. An imported order always has the field [orderId].  It holds the
    string made of [sourceRecord[idField]], or ["unknown-<index>"] when
    that is falsy, unless an entry that is not skipped maps to [orderId]:
    then the value of the last such entry replaces it.  This is for every
    order the handler makes of a source record that is an object, under
    field mappings none of which has the target field [__proto__]. *)
Theorem order_id_can_be_overwritten (validConfig : OrderServer.MappingConfig)
    (index : nat) (properties : Obj.t) (orderId : Value) (id : string)
    (o : OrderServer.ImportedOrder) :
  let sourceRecord := VObj properties in
  "__proto__" ∉ map targetField (OrderServer.fieldMappings validConfig) →
  Get sourceRecord (OrderServer.idField validConfig) = Ok orderId →
  (if ToBoolean orderId then ToString orderId
   else Ok ("unknown-" +:+ Str.ofNat index)) = Ok id →
  OrderServer.importOrder validConfig index sourceRecord = Ok o →
  Data.own (OrderServer.order o) !! "orderId"
  = Some match last (filter
                  (λ m, targetField m = "orderId"
                        ∧ skipped (skipEmptyFields (OrderServer.options validConfig))
                            sourceRecord m = false)
                  (OrderServer.fieldMappings validConfig)) with
         | Some m => producedValue sourceRecord m
         | None => VStr id
         end.
Proof.
  intros sourceRecord Hkeys Hid Hstr. unfold OrderServer.importOrder.
  rewrite Hid. cbn. unfold idString. rewrite Hstr. cbn.
  destruct (applyMappings _ _ _ _ _) as [[order recordErrors]|] eqn:Hloop; [|done].
  cbn. intros [= <-]. cbn.
  apply applyMappings_inv in Hloop as (Hown & _ & _); [|done..].
  rewrite Hown, written_lookup. destruct (last _); [done|].
  cbn. by rewrite lookup_insert_eq.
Qed.

Lemma order_id_can_be_overwritten_witness :
  Data.own (Data.define (Data.define Data.empty "orderId" (VStr "A1"))
              "orderId" (VStr "B2")) !! "orderId"
  = Some (VStr "B2").
Proof.
  apply (order_id_can_be_overwritten Sample2.orderImport 0
           [("id", VStr "A1"); ("ref", VStr "B2")] (VStr "A1") "A1"
           {| OrderServer._sourceIndex := 0;
              OrderServer._success := true;
              OrderServer._errors := None;
              OrderServer.order :=
                Data.define (Data.define Data.empty "orderId" (VStr "A1"))
                  "orderId" (VStr "B2") |}).
  - apply (bool_decide_unpack _). vm_compute. reflexivity.
  - reflexivity.
  - reflexivity.
  - reflexivity.
Defined.

(** ** The first server *)

Lemma known_not_inherited (repository : string) :
  repository ∈ ["users"; "products"; "orders"] →
  repository ∉ Object_prototype_keys.
Proof.
  rewrite !elem_of_cons, elem_of_nil.
  intros [->|[->|[->|[]]]];
    apply (proj1 (bool_decide_eq_false _)); reflexivity.
Qed.

Lemma not_elem_of_three (x a b c : string) :
  x ∉ [a; b; c] → x ≠ a ∧ x ≠ b ∧ x ≠ c.
Proof. rewrite !not_elem_of_cons. tauto. Qed.

Lemma REPOSITORY_SCHEMA_at_missing (repository : string) :
  repository ∉ ["users"; "products"; "orders"] →
  repository ∉ Object_prototype_keys →
  REPOSITORY_SCHEMA_at repository = Missing.
Proof.
  intros (Hu & Hp & Ho)%not_elem_of_three Hinherited.
  unfold REPOSITORY_SCHEMA_at.
  rewrite !decide_False by done. by rewrite bool_decide_eq_false_2.
Qed.

Lemma REPOSITORY_SCHEMA_at_inherited (repository : string) :
  repository ∈ Object_prototype_keys →
  REPOSITORY_SCHEMA_at repository = Inherited.
Proof.
  intros Hinherited.
  assert (Hne : repository ∉ ["users"; "products"; "orders"])
    by (intros Hin; by apply (known_not_inherited repository)).
  apply not_elem_of_three in Hne as (Hu & Hp & Ho).
  unfold REPOSITORY_SCHEMA_at.
  rewrite !decide_False by done. by rewrite bool_decide_eq_true_2.
Qed.

(** X14. In the first server a configuration may name any repository.
    A name that is none of [users], [products], [orders] (and no member
    every object inherits) gets [valid: false] with one issue at path
    [targetRepository] that lists the valid names; a name that every
    object inherits, such as [toString], is found by the lookup and makes
    the handler fail with status 500. *)
Theorem legacy_unknown_repository (toJSONThrows : string → Data.t → bool)
    (validConfig : Legacy.MappingConfig) (sourceData : Value) :
  let repository := Legacy.targetRepository validConfig in
  (repository ∉ ["users"; "products"; "orders"] →
   repository ∉ Object_prototype_keys →
   Legacy.executeConfig toJSONThrows validConfig sourceData
   = Legacy.invalid
       [ {| Issue.path := "targetRepository";
            Issue.message :=
              "Unknown repository " +:+ Str.quoted repository
              +:+ ". Valid: users, products, orders" |} ])
  ∧ (repository ∈ Object_prototype_keys →
     Legacy.executeConfig toJSONThrows validConfig sourceData
     = Legacy.failure 500 "Failed to execute config").
Proof.
  intros repository. unfold Legacy.executeConfig. fold repository. split.
  - intros Hknown Hinherited. by rewrite REPOSITORY_SCHEMA_at_missing.
  - intros Hinherited. by rewrite REPOSITORY_SCHEMA_at_inherited.
Qed.

(** X15. In the first server no required field is exempt: with
    [validateRequired], every required field of a known repository that no
    mapping targets, [id] included, gives one issue and [valid: false].
    A configuration that passes, sent without an array of source data, is
    answered by a summary of the configuration and nothing is imported;
    sent with an empty array, it gets a summary that counts zero
    records. *)
Theorem legacy_validation (toJSONThrows : string → Data.t → bool)
    (validConfig : Legacy.MappingConfig)
    (sourceData : Value) (repoSchema : RepositorySchema) :
  REPOSITORY_SCHEMA_at (Legacy.targetRepository validConfig) = Own repoSchema →
  let missing :=
    filter (λ f, f ∉ map targetField (Legacy.fieldMappings validConfig))
           (required repoSchema) in
  let response := Legacy.executeConfig toJSONThrows validConfig sourceData in
  (validateRequired (Legacy.options validConfig) = true → missing ≠ [] →
   response = Legacy.invalid (map missingFieldIssue missing))
  ∧ ((validateRequired (Legacy.options validConfig) = true → missing = []) →
     ((∀ records, sourceData ≠ VArr records) →
      Legacy.valid response = Some true
      ∧ Legacy.importedRecords response = None
      ∧ Legacy.summary response = None
      ∧ Legacy.configSummary response
        = Some {| Legacy.ConfigSummary.name := Legacy.name validConfig;
                  Legacy.ConfigSummary.targetRepository :=
                    Legacy.targetRepository validConfig;
                  Legacy.ConfigSummary.fieldCount :=
                    length (Legacy.fieldMappings validConfig);
                  Legacy.ConfigSummary.mappedFields :=
                    map targetField (Legacy.fieldMappings validConfig) |})
     ∧ (sourceData = VArr [] →
        Legacy.valid response = Some true
        ∧ Legacy.importedRecords response = Some []
        ∧ Legacy.summary response
          = Some {| Legacy.Summary.totalRecords := 0;
                    Legacy.Summary.successfulImports := 0;
                    Legacy.Summary.failedImports := 0;
                    Legacy.Summary.targetRepository :=
                      Legacy.targetRepository validConfig |})).
Proof.
  intros Hschema missing response. unfold response, Legacy.executeConfig.
  rewrite Hschema. fold missing. split.
  - intros -> Hmissing. simpl.
    by rewrite (proj2 (coverage_gate _) Hmissing).
  - intros Hpass.
    assert (Hgate : validateRequired (Legacy.options validConfig)
                    && bool_decide (0 < length missing) = false).
    { destruct (validateRequired _); [|done]. by rewrite Hpass. }
    rewrite Hgate. split.
    + intros Hnoarray. destruct sourceData; try done. by destruct (Hnoarray elements).
    + by intros ->.
Qed.

Lemma legacy_validation_witness :
  Legacy.executeConfig Reference.toJSONThrows Sample2.legacyUsers
    (VArr [Sample2.bob])
  = Legacy.invalid [missingFieldIssue "id"].
Proof.
  destruct (legacy_validation Reference.toJSONThrows Sample2.legacyUsers
              (VArr [Sample2.bob])
              (REPOSITORY_SCHEMA Repository.users) eq_refl) as [Hfails _].
  apply Hfails; done.
Defined.

(** ** The keys of an object *)

Lemma Obj_lookup_is_Some (o : Obj.t) (key : string) :
  is_Some (Obj.lookup o key) ↔ key ∈ map fst o.
Proof.
  induction o as [|[k v] o IH]; simpl.
  - rewrite elem_of_nil. split; [by intros [? ?]|done].
  - rewrite elem_of_cons. destruct (decide (k = key)) as [->|Hne].
    + split; [by left|eauto].
    + rewrite IH. split; [by right|]. intros [?|?]; [congruence|done].
Qed.

Lemma insertByIndex_elem (i : N) (k : string) (sorted : list (N * string))
    (x : N * string) :
  x ∈ Obj.insertByIndex i k sorted ↔ x = (i, k) ∨ x ∈ sorted.
Proof.
  induction sorted as [|[j k'] sorted IH]; simpl.
  - rewrite list_elem_of_singleton, elem_of_nil. tauto.
  - case_bool_decide.
    + rewrite elem_of_cons. tauto.
    + rewrite !elem_of_cons, IH. tauto.
Qed.

(** [Object.keys] of an object gives its own keys, and nothing else. *)
Lemma ownKeys_elem (o : Obj.t) (key : string) :
  key ∈ Obj.ownKeys o ↔ key ∈ map fst o.
Proof.
  unfold Obj.ownKeys. rewrite elem_of_app.
  assert (Hindexed : ∀ x,
    x ∈ foldr (λ kv acc, match Obj.arrayIndex kv.1 with
                         | Some i => Obj.insertByIndex i kv.1 acc
                         | None => acc
                         end) [] o
    ↔ x.2 ∈ map fst o ∧ Obj.arrayIndex x.2 = Some x.1).
  { intros [i k]. simpl. induction o as [|[k0 v0] o IH]; simpl.
    - rewrite !elem_of_nil. tauto.
    - rewrite elem_of_cons.
      destruct (Obj.arrayIndex k0) as [i0|] eqn:Hk0.
      + rewrite insertByIndex_elem, IH. split.
        * intros [[= -> ->]|[? ?]]; [by split; [left|]|by split; [right|]].
        * intros [[->|?] Hi]; [left; congruence|by right].
      + rewrite IH. split.
        * intros [? ?]. by split; [right|].
        * intros [[->|?] Hi]; [congruence|done]. }
  rewrite list_elem_of_fmap.
  rewrite list_elem_of_In, filter_In, <- list_elem_of_In.
  split.
  - intros [([i k] & -> & Hx)|[? _]]; [|done]. by apply Hindexed in Hx as [? _].
  - intros Hkey. destruct (Obj.arrayIndex key) as [i|] eqn:Hi.
    + left. exists (i, key). split; [done|]. by apply Hindexed.
    + by right.
Qed.

(** ** The handler of [POST /generate/config] *)

(** X16. For a request with a non-empty CSV text and one of the three
    repositories, the handler answers 200 with the schema of that
    repository, and the source fields it detects are the trimmed names of
    the header row, each of them but [__proto__] and nothing else, when
    the text has a line after the header; it detects no field when the
    text has none. *)
Theorem generate_detects_csv_headers (JSON_parse : string → result Value)
    (body : Value) (text repository : string) :
  Get body "sourceFile" = Ok (VStr text) →
  text ≠ EmptyString →
  Get body "fileType" = Ok (VStr "csv") →
  Get body "targetRepository" = Ok (VStr repository) →
  repository ∈ ["users"; "products"; "orders"] →
  ∃ placeholder schema,
    POST_generate_config JSON_parse body
    = {| Generate.status := 200; Generate.error := None;
         Generate.config := Some placeholder |}
    ∧ Generate.targetRepository placeholder = VStr repository
    ∧ Generate.targetSchema placeholder = Own schema
    ∧ REPOSITORY_SCHEMA_at repository = Own schema
    ∧ (occurrences "010"%char (Str.trim text) = 0 →
       Generate.detectedSourceFields placeholder = [])
    ∧ (occurrences "010"%char (Str.trim text) ≠ 0 →
       ∃ header, csvLines text !! 0 = Some header
                 ∧ ∀ h, h ∈ Generate.detectedSourceFields placeholder
                        ↔ h ∈ csvCells header ∧ h ≠ "__proto__").
Proof.
  intros Hsource Htext Htype Hrepo Hknown.
  unfold POST_generate_config. rewrite Hsource. simpl. rewrite Htype. simpl.
  rewrite Hrepo. simpl.
  rewrite (bool_decide_eq_false_2 (text = EmptyString)) by done. simpl.
  assert (Hschema : ∃ schema, REPOSITORY_SCHEMA_at repository = Own schema).
  { rewrite !elem_of_cons, elem_of_nil in Hknown.
    destruct Hknown as [->|[->|[->|[]]]]; eexists; reflexivity. }
  destruct Hschema as [schema Hschema].
  assert (Hname : repository ≠ EmptyString).
  { intros ->. rewrite !elem_of_cons, elem_of_nil in Hknown.
    by destruct Hknown as [?|[?|[?|[]]]]. }
  rewrite (bool_decide_eq_false_2 (repository = EmptyString)) by done. simpl.
  rewrite Hschema. unfold detectSourceFields, parseSourceFile. simpl.
  pose proof (parseCSV_count text) as Hlen.
  destruct (parseCSV text) as [|first rest] eqn:Hrecords.
  - simpl. eexists _, schema. split; [done|]. simpl.
    split; [done|]. split; [done|]. split; [done|]. split; [done|].
    intros Hlines. by rewrite <- Hlen in Hlines.
  - destruct (parseCSV_fields text 0 first) as
      (header & line & properties & Hheader & _ & -> & Hkeys & _).
    { by rewrite Hrecords. }
    simpl. eexists _, schema. split; [done|]. simpl.
    split; [done|]. split; [done|]. split; [done|].
    split; [intros Hlines; by rewrite <- Hlen in Hlines|].
    intros _. exists header. split; [done|]. intros h.
    by rewrite ownKeys_elem, <- Obj_lookup_is_Some.
Qed.

Lemma generate_detects_csv_headers_witness :
  ∃ placeholder schema,
    POST_generate_config Reference.JSON_parse
      (VObj [("sourceFile", VStr Sample2.protoHeader); ("fileType", VStr "csv");
             ("targetRepository", VStr "users")])
    = {| Generate.status := 200; Generate.error := None;
         Generate.config := Some placeholder |}
    ∧ Generate.targetRepository placeholder = VStr "users"
    ∧ Generate.targetSchema placeholder = Own schema
    ∧ REPOSITORY_SCHEMA_at "users" = Own schema
    ∧ (occurrences "010"%char (Str.trim Sample2.protoHeader) = 0 →
       Generate.detectedSourceFields placeholder = [])
    ∧ (occurrences "010"%char (Str.trim Sample2.protoHeader) ≠ 0 →
       ∃ header, csvLines Sample2.protoHeader !! 0 = Some header
                 ∧ ∀ h, h ∈ Generate.detectedSourceFields placeholder
                        ↔ h ∈ csvCells header ∧ h ≠ "__proto__").
Proof.
  apply generate_detects_csv_headers; try reflexivity.
  - done.
  - apply (bool_decide_unpack _). vm_compute. reflexivity.
Defined.

(** X17. The handler of [/generate/config] answers 200, 400 or 500 to a
    request it can read, and 200 only when the request is complete: the
    source is a non-empty string, the file type is [csv] or [json], the
    target repository is truthy, is found, as a string, in the table of the
    repositories, and the source parses (with a first record that is not
    null).  A request answered with 400 gets no configuration.  It answers
    500 exactly when source and file type are right and the target
    repository is truthy and cannot be made a string. *)
Theorem generate_validates_request (JSON_parse : string → result Value)
    (body sourceFile fileType targetRepository : Value) :
  Get body "sourceFile" = Ok sourceFile →
  Get body "fileType" = Ok fileType →
  Get body "targetRepository" = Ok targetRepository →
  let response := POST_generate_config JSON_parse body in
  (Generate.status response = 200 ∨ Generate.status response = 400
   ∨ Generate.status response = 500)
  ∧ (Generate.status response = 200 →
     ∃ text kind key fields,
       sourceFile = VStr text ∧ text ≠ EmptyString
       ∧ fileType = VStr kind ∧ (kind = "csv" ∨ kind = "json")
       ∧ ToBoolean targetRepository = true
       ∧ ToString targetRepository = Ok key
       ∧ REPOSITORY_SCHEMA_at key ≠ Missing
       ∧ detectSourceFields JSON_parse text kind = Ok fields
       ∧ Generate.detectedSourceFields <$> Generate.config response = Some fields)
  ∧ (Generate.status response = 400 → Generate.config response = None)
  ∧ (Generate.status response = 500
     ↔ (∃ text, sourceFile = VStr text ∧ text ≠ EmptyString)
       ∧ (∃ kind, fileType = VStr kind ∧ (kind = "csv" ∨ kind = "json"))
       ∧ ToBoolean targetRepository = true
       ∧ ∃ e, ToString targetRepository = Throw e).
Proof.
  intros Hsource Htype Hrepo response. unfold response, POST_generate_config.
  rewrite Hsource. simpl. rewrite Htype. simpl. rewrite Hrepo. simpl.
  destruct sourceFile as [| | | |text| | | |]; simpl;
    try (split; [by right; left|]; split; [done|]; split; [done|];
         split; [done|]; by intros [(text & ? & _) _]).
  case_bool_decide as Htext; simpl.
  { split; [by right; left|]. split; [done|]. split; [done|].
    split; [done|]. intros [(text' & [= <-] & Hne) _]. done. }
  destruct fileType as [| | | |kind| | | |]; simpl;
    try (split; [by right; left|]; split; [done|]; split; [done|];
         split; [done|]; by intros (_ & (kind & ? & _) & _)).
  case_bool_decide as Hkind.
  2: { split; [by right; left|]. split; [done|]. split; [done|].
       split; [done|]. intros (_ & (kind' & [= <-] & Hk) & _). done. }
  destruct (ToBoolean targetRepository) eqn:Htruthy.
  2: { split; [by right; left|]. split; [done|]. split; [done|].
       split; [done|]. by intros (_ & _ & ? & _). }
  destruct (ToString targetRepository) as [key|e] eqn:Hkey; cbn.
  2: { split; [by right; right|]. split; [done|]. split; [done|].
       split; [intros _|done]. split; [by exists text|].
       split; [by exists kind|]. split; [done|]. by exists e. }
  assert (Hno500 : ¬ ((∃ text0, VStr text = VStr text0 ∧ text0 ≠ EmptyString)
                      ∧ (∃ kind0, VStr kind = VStr kind0
                                  ∧ (kind0 = "csv" ∨ kind0 = "json"))
                      ∧ true = true
                      ∧ ∃ e, @Ok string key = Throw e)).
  { by intros (_ & _ & _ & e & ?). }
  destruct (REPOSITORY_SCHEMA_at key) as [schema| |] eqn:Hschema.
  - destruct (detectSourceFields JSON_parse text kind) as [fields|] eqn:Hfields.
    + simpl. split; [by left|]. split; [|split; [done|]; split; [done|]].
      * intros _. exists text, kind, key, fields.
        rewrite Hschema. repeat (split; [done|]). done.
      * intros H500. by destruct Hno500.
    + split; [by right; left|]. split; [done|]. split; [done|].
      split; [done|]. intros H500. by destruct Hno500.
  - destruct (detectSourceFields JSON_parse text kind) as [fields|] eqn:Hfields.
    + simpl. split; [by left|]. split; [|split; [done|]; split; [done|]].
      * intros _. exists text, kind, key, fields.
        rewrite Hschema. repeat (split; [done|]). done.
      * intros H500. by destruct Hno500.
    + split; [by right; left|]. split; [done|]. split; [done|].
      split; [done|]. intros H500. by destruct Hno500.
  - split; [by right; left|]. split; [done|]. split; [done|].
    split; [done|]. intros H500. by destruct Hno500.
Qed.

Lemma generate_validates_request_witness :
  let response :=
    POST_generate_config Reference.JSON_parse
      (VObj [("sourceFile", VStr Sample.twoUsers); ("fileType", VStr "csv");
             ("targetRepository", VStr "users")]) in
  (Generate.status response = 200 ∨ Generate.status response = 400
   ∨ Generate.status response = 500)
  ∧ (Generate.status response = 200 →
     ∃ text kind key fields,
       VStr Sample.twoUsers = VStr text ∧ text ≠ EmptyString
       ∧ VStr "csv" = VStr kind ∧ (kind = "csv" ∨ kind = "json")
       ∧ ToBoolean (VStr "users") = true
       ∧ ToString (VStr "users") = Ok key
       ∧ REPOSITORY_SCHEMA_at key ≠ Missing
       ∧ detectSourceFields Reference.JSON_parse text kind = Ok fields
       ∧ Generate.detectedSourceFields <$> Generate.config response = Some fields)
  ∧ (Generate.status response = 400 → Generate.config response = None)
  ∧ (Generate.status response = 500
     ↔ (∃ text, VStr Sample.twoUsers = VStr text ∧ text ≠ EmptyString)
       ∧ (∃ kind, VStr "csv" = VStr kind ∧ (kind = "csv" ∨ kind = "json"))
       ∧ ToBoolean (VStr "users") = true
       ∧ ∃ e, ToString (VStr "users") = Throw e).
Proof.
  apply generate_validates_request; reflexivity.
Defined.

(** ** Trimmed cells *)

Lemma trimStart_head (s : string) :
  Str.trimStart s = EmptyString
  ∨ ∃ c r, Str.trimStart s = String c r ∧ Str.isWhiteSpace c = false.
Proof.
  induction s as [|c r IH]; simpl; [by left|].
  destruct (Str.isWhiteSpace c) eqn:Hc; [done|]. right. eauto.
Qed.

Lemma trimEnd_head (c : ascii) (r : string) :
  Str.isWhiteSpace c = false → ∃ r', Str.trimEnd (String c r) = String c r'.
Proof.
  intros Hc. simpl. destruct (Str.trimEnd r); [|eauto]. rewrite Hc. eauto.
Qed.

Lemma trimEnd_idempotent (s : string) :
  Str.trimEnd (Str.trimEnd s) = Str.trimEnd s.
Proof.
  induction s as [|c r IH]; [done|]. simpl.
  destruct (Str.trimEnd r) as [|c' t] eqn:Ht.
  - destruct (Str.isWhiteSpace c) eqn:Hc; [done|]. simpl. by rewrite Hc.
  - change (Str.trimEnd (String c (String c' t)))
      with (match Str.trimEnd (String c' t) with
            | EmptyString =>
                if Str.isWhiteSpace c then EmptyString else String c EmptyString
            | r' => String c r'
            end).
    by rewrite IH.
Qed.

(** Trimming a trimmed string changes nothing. *)
Lemma trim_idempotent (s : string) : Str.trim (Str.trim s) = Str.trim s.
Proof.
  unfold Str.trim.
  destruct (trimStart_head s) as [->|(c & r & -> & Hc)]; [done|].
  destruct (trimEnd_head c r Hc) as [r' Hr']. rewrite Hr'. simpl Str.trimStart.
  rewrite Hc, <- Hr'. apply trimEnd_idempotent.
Qed.

(** The cells the loop over the headers stores. *)
Lemma forEachHeader_values (headers : list string) (idx : nat)
    (values : list string) (record : Obj.t) (h : string) (v : Value) :
  Obj.lookup (forEachHeader headers idx values record) h = Some v →
  Obj.lookup record h = Some v
  ∨ ∃ i, v = VStr (default EmptyString (values !! i)).
Proof.
  revert idx record.
  induction headers as [|h0 headers IH]; intros idx record; simpl; [by left|].
  intros [Hv|Hv]%IH; [|by right].
  unfold assignCell in Hv. case_decide; [by left|].
  destruct (decide (h0 = h)) as [->|Hne].
  - rewrite Obj_lookup_set in Hv. injection Hv as <-. right. eauto.
  - rewrite Obj_lookup_set_ne in Hv by done. by left.
Qed.

(** X18. Every field of a CSV record holds a string without white space
    at either end, so that the [trim] transform, and no transform at all,
    give the same value for a field of a CSV source. *)
Theorem csv_cells_are_trimmed (csvString : string) (properties : Obj.t)
    (h : string) (v : Value) :
  VObj properties ∈ parseCSV csvString →
  Obj.lookup properties h = Some v →
  ∃ cell, v = VStr cell
          ∧ Str.trim cell = cell
          ∧ ∀ mapping recordErrors,
              transform mapping = Some Transform.trim →
              applyTransform mapping v recordErrors = Ok (v, recordErrors).
Proof.
  unfold parseCSV. case_bool_decide; [by intros ?%elem_of_nil|].
  intros (line & [= ->] & _)%list_elem_of_fmap.
  intros [?|[i ->]]%forEachHeader_values; [done|].
  eexists. split; [done|].
  assert (Htrim : Str.trim (default EmptyString
                    (map Str.trim (Str.split ","%char line) !! i))
                  = default EmptyString
                      (map Str.trim (Str.split ","%char line) !! i)).
  { rewrite list_lookup_fmap.
    destruct (Str.split ","%char line !! i); simpl; [|done].
    apply trim_idempotent. }
  split; [done|]. intros mapping recordErrors Ht.
  unfold applyTransform. rewrite Ht. cbn. by rewrite Htrim.
Qed.

Lemma csv_cells_are_trimmed_witness :
  ∃ cell, VStr "Alice Smith" = VStr cell
          ∧ Str.trim cell = cell
          ∧ ∀ mapping recordErrors,
              transform mapping = Some Transform.trim →
              applyTransform mapping (VStr "Alice Smith") recordErrors
              = Ok (VStr "Alice Smith", recordErrors).
Proof.
  apply (csv_cells_are_trimmed Sample.twoUsers
           [("user_id", VStr "1"); ("email_address", VStr "alice@example.com");
            ("full_name", VStr "Alice Smith")] "full_name").
  - vm_compute. apply list_elem_of_here.
  - reflexivity.
Defined.

(** ** The import of the first server *)

Lemma importOne_object (validConfig : Legacy.MappingConfig) (index : nat)
    (properties : Obj.t) :
  let skipEmpty := skipEmptyFields (Legacy.options validConfig) in
  "__proto__" ∉ map targetField (Legacy.fieldMappings validConfig) →
  Forall (converts skipEmpty (VObj properties)) (Legacy.fieldMappings validConfig) →
  Legacy.importOne validConfig index (VObj properties)
  = let recordErrors :=
      reported skipEmpty (VObj properties) (Legacy.fieldMappings validConfig) in
    Ok {| Legacy._index := index;
          Legacy._success := bool_decide (length recordErrors = 0);
          Legacy._errors := recordErrors;
          Legacy.record :=
            {| Data.own := written skipEmpty (VObj properties) ∅
                             (Legacy.fieldMappings validConfig);
               Data.proto := Data.ObjectPrototype |} |}.
Proof.
  intros skipEmpty Hkeys Hall. unfold Legacy.importOne.
  by rewrite applyMappings_returns.
Qed.

Lemma importAll_objects (validConfig : Legacy.MappingConfig) (index : nat)
    (sourceData : list Value) :
  let skipEmpty := skipEmptyFields (Legacy.options validConfig) in
  "__proto__" ∉ map targetField (Legacy.fieldMappings validConfig) →
  (∀ sourceRecord, sourceRecord ∈ sourceData →
     (∃ properties, sourceRecord = VObj properties)
     ∧ Forall (converts skipEmpty sourceRecord) (Legacy.fieldMappings validConfig)) →
  ∃ records,
    Legacy.importAll validConfig index sourceData = Ok records
    ∧ length records = length sourceData
    ∧ ∀ i sourceRecord,
        sourceData !! i = Some sourceRecord →
        ∃ r, records !! i = Some r
             ∧ Legacy.importOne validConfig (index + i) sourceRecord = Ok r.
Proof.
  intros skipEmpty Hkeys. revert index.
  induction sourceData as [|first rest IH]; intros index Hall; simpl.
  - exists []. by split; [|split].
  - destruct (Hall first) as [[properties ->] Hfirst]; [by left|].
    destruct (IH (S index)) as (rs & Hrs & Hlen & Hlookup).
    { intros x Hx. apply Hall. by right. }
    rewrite (importOne_object _ _ _ Hkeys Hfirst). cbn. rewrite Hrs. cbn.
    eexists. split; [done|]. split; [simpl; by rewrite Hlen|].
    intros [|i] sourceRecord; simpl.
    + intros [= <-]. eexists. split; [done|].
      by rewrite Nat.add_0_r, (importOne_object _ _ _ Hkeys Hfirst).
    + intros Hi. destruct (Hlookup _ _ Hi) as (r & Hr & Himp).
      exists r. split; [done|].
      by replace (index + S i) with (S index + i) by lia.
Qed.

(** X19. The first server imports an array of source records that are
    objects, when the conversions of their entries return and no entry has
    the target field [__proto__] or [toJSON]: for a known repository and a
    configuration that passes the coverage check, the response is
    [valid: true] with one imported record for each source record, in
    order; a record carries its position, the data its mappings wrote, the
    errors of its [number] transforms as a list (empty when there is
    none), and [_success] is true exactly when that list is empty.  No
    identifier is read, and none can be missing. *)
Theorem legacy_import (toJSONThrows : string → Data.t → bool)
    (validConfig : Legacy.MappingConfig)
    (repoSchema : RepositorySchema) (sourceData : list Value) :
  let skipEmpty := skipEmptyFields (Legacy.options validConfig) in
  REPOSITORY_SCHEMA_at (Legacy.targetRepository validConfig) = Own repoSchema →
  (validateRequired (Legacy.options validConfig) = true →
   filter (λ f, f ∉ map targetField (Legacy.fieldMappings validConfig))
          (required repoSchema) = []) →
  "__proto__" ∉ map targetField (Legacy.fieldMappings validConfig) →
  "toJSON" ∉ map targetField (Legacy.fieldMappings validConfig) →
  (∀ sourceRecord, sourceRecord ∈ sourceData →
     (∃ properties, sourceRecord = VObj properties)
     ∧ Forall (converts skipEmpty sourceRecord) (Legacy.fieldMappings validConfig)) →
  let response := Legacy.executeConfig toJSONThrows validConfig (VArr sourceData) in
  Legacy.valid response = Some true
  ∧ ∃ records s,
      Legacy.importedRecords response = Some records
      ∧ Legacy.summary response = Some s
      ∧ length records = length sourceData
      ∧ Legacy.Summary.totalRecords s = length sourceData
      ∧ ∀ i sourceRecord,
          sourceData !! i = Some sourceRecord →
          ∃ r, records !! i = Some r
               ∧ Legacy._index r = i
               ∧ Data.own (Legacy.record r)
                 = written skipEmpty sourceRecord ∅ (Legacy.fieldMappings validConfig)
               ∧ Legacy._errors r
                 = reported skipEmpty sourceRecord (Legacy.fieldMappings validConfig)
               ∧ (Legacy._success r = true ↔ Legacy._errors r = []).
Proof.
  intros skipEmpty Hschema Hpass Hproto HtoJSON Hall response.
  unfold response, Legacy.executeConfig. rewrite Hschema.
  assert (Hgate : validateRequired (Legacy.options validConfig)
    && bool_decide (0 < length
         (filter (λ f, f ∉ map targetField (Legacy.fieldMappings validConfig))
                 (required repoSchema))) = false).
  { destruct (validateRequired _); [|done]. by rewrite Hpass. }
  rewrite Hgate.
  destruct (importAll_objects validConfig 0 sourceData Hproto Hall)
    as (records & -> & Hlen & Hlookup).
  assert (Hrecord : ∀ i sourceRecord r,
    sourceData !! i = Some sourceRecord → records !! i = Some r →
    Legacy._index r = i
    ∧ Data.own (Legacy.record r)
      = written skipEmpty sourceRecord ∅ (Legacy.fieldMappings validConfig)
    ∧ Legacy._errors r
      = reported skipEmpty sourceRecord (Legacy.fieldMappings validConfig)
    ∧ (Legacy._success r = true ↔ Legacy._errors r = [])).
  { intros i sourceRecord r Hi Hr.
    destruct (Hlookup _ _ Hi) as (r' & Hr' & Himp).
    assert (r' = r) as -> by congruence.
    destruct (Hall sourceRecord) as [[properties ->] Hconv];
      [by eapply list_elem_of_lookup_2|].
    rewrite importOne_object in Himp by done.
    cbn in Himp. injection Himp as <-. cbn.
    split; [done|]. split; [done|]. split; [done|]. apply success_iff_no_error. }
  assert (Hsent : existsb (λ r, Data.stringifyThrows toJSONThrows (Legacy.record r))
                    records = false).
  { apply not_true_iff_false. intros (r & Hin & Hr)%existsb_exists.
    apply list_elem_of_In, list_elem_of_lookup in Hin as [i Hi].
    destruct (lookup_lt_is_Some_2 sourceData i) as [sourceRecord Hs].
    { rewrite <- Hlen. by eapply lookup_lt_Some. }
    destruct (Hrecord _ _ _ Hs Hi) as (_ & Hown & _).
    rewrite stringifyThrows_no_toJSON in Hr; [done|].
    by rewrite Hown, written_other. }
  rewrite Hsent. cbn. split; [done|]. eexists records, _.
  split; [done|]. split; [done|]. split; [done|]. split; [done|].
  intros i sourceRecord Hi.
  destruct (Hlookup _ _ Hi) as (r & Hr & _). exists r. split; [done|]. eauto.
Qed.

Lemma legacy_import_witness :
  let response :=
    Legacy.executeConfig Reference.toJSONThrows Sample2.legacyUsersWithId
      (VArr [Sample2.bob]) in
  Legacy.valid response = Some true
  ∧ ∃ records s,
      Legacy.importedRecords response = Some records
      ∧ Legacy.summary response = Some s
      ∧ length records = length [Sample2.bob]
      ∧ Legacy.Summary.totalRecords s = length [Sample2.bob]
      ∧ ∀ i sourceRecord,
          [Sample2.bob] !! i = Some sourceRecord →
          ∃ r, records !! i = Some r
               ∧ Legacy._index r = i
               ∧ Data.own (Legacy.record r)
                 = written true sourceRecord ∅
                     (Legacy.fieldMappings Sample2.legacyUsersWithId)
               ∧ Legacy._errors r
                 = reported true sourceRecord
                     (Legacy.fieldMappings Sample2.legacyUsersWithId)
               ∧ (Legacy._success r = true ↔ Legacy._errors r = []).
Proof.
  apply (legacy_import Reference.toJSONThrows Sample2.legacyUsersWithId
           (REPOSITORY_SCHEMA Repository.users) [Sample2.bob]).
  - reflexivity.
  - intros _. reflexivity.
  - apply (bool_decide_unpack _). vm_compute. reflexivity.
  - apply (bool_decide_unpack _). vm_compute. reflexivity.
  - intros sourceRecord ->%list_elem_of_singleton. split; [by eexists|].
    repeat constructor; intros _; eexists; vm_compute; reflexivity.
Defined.

(** ** Conversions that throw *)

(** [String] of a parsed object throws exactly when the object has an own
    property [toString]. *)
Lemma ToString_object (properties : Obj.t) :
  (∃ e, ToString (VObj properties) = Throw e)
  ↔ is_Some (Obj.lookup properties "toString").
Proof.
  cbn. destruct (Obj.lookup properties "toString"); split; eauto.
  - by intros [e ?].
  - by intros [? ?].
Qed.

(** X22. An identifier that is an object with an own property [toString]
    cannot be made a string: [String] throws, and so does [Number]; the
    handler then answers 500 and the whole batch is lost, whatever the
    other records are. *)
Theorem throwing_identifier_aborts_batch (JSON_parse : string → result Value)
    (toJSONThrows : string → Data.t → bool)
    (importedAt : string) (validConfig : MappingConfig) (sourceFile : string)
    (sourceRecords : list Value) (i : nat) (properties held : Obj.t) :
  coverageOk validConfig →
  parseSourceFile JSON_parse sourceFile (SourceType.name (sourceType validConfig))
  = Ok sourceRecords →
  sourceRecords !! i = Some (VObj properties) →
  Obj.lookup properties (idField validConfig) = Some (VObj held) →
  is_Some (Obj.lookup held "toString") →
  (∃ e, ToString (VObj held) = Throw e)
  ∧ (∃ e, ToNumber (VObj held) = Throw e)
  ∧ executeConfig JSON_parse toJSONThrows importedAt validConfig sourceFile
    = Response.failure 500 "Failed to execute config".
Proof.
  intros Hcov Hparse Hi Hid Hown.
  assert (Hthrow : ∃ e, ToString (VObj held) = Throw e) by by apply ToString_object.
  split; [done|]. split.
  { destruct Hthrow as [e He]. exists e. unfold ToNumber. by rewrite He. }
  rewrite executeConfig_passes by done. unfold importSource. rewrite Hparse.
  rewrite bool_decide_eq_false_2 by (by destruct sourceRecords).
  destruct (importRecords _ _ _ _) as [records|] eqn:E; [|done].
  destruct (importRecords_lookup _ _ _ _ _ _ _ E Hi) as (r & _ & Himp).
  apply importRecord_inv in Himp
    as (recordId & data & recordErrors & id & Hget & _ & Hstr & _).
  cbn in Hget. rewrite Hid in Hget. injection Hget as <-.
  destruct Hthrow as [e He]. unfold idString in Hstr. cbn [ToBoolean] in Hstr.
  congruence.
Qed.

Lemma throwing_identifier_aborts_batch_witness :
  executeConfig Reference.JSON_parse Reference.toJSONThrows
    "2026-01-28T12:00:00.000Z" (Sample.productImport true) Sample2.idWithToString
  = Response.failure 500 "Failed to execute config".
Proof.
  apply (throwing_identifier_aborts_batch Reference.JSON_parse
           Reference.toJSONThrows "2026-01-28T12:00:00.000Z"
           (Sample.productImport true) Sample2.idWithToString
           [VObj [("id", VObj [("toString", VNum Num.one)])]] 0
           [("id", VObj [("toString", VNum Num.one)])]
           [("toString", VNum Num.one)]).
  - by intros [=].
  - reflexivity.
  - reflexivity.
  - reflexivity.
  - by eexists.
Defined.
